(** * The DXGI duplicator controller of aspia, embedded in Rocq

    Source: [source/desktop/win/dxgi_duplicator_controller.cc].

    The controller is a stateful C++ object.  Its members become a record
    [Controller]; every member function becomes a function that takes the
    record (and the state of the outside world it talks to) and returns the
    new record.  The collaborators the file only calls ([DxgiAdapterDuplicator],
    [D3dDevice], [DisplayConfigurationMonitor], [DxgiFrame], [SharedFrame],
    the Win32 probes and the clock) are interfaces: type classes whose
    operations return the mutated object next to the result. *)

From Stdlib Require Import String ZArith List Bool Lia.
Import ListNotations.
Open Scope Z_scope.

Set Implicit Arguments.

(* ------------------------------------------------------------------ *)
(** * Machine integers *)

(** C++ [int] (32 bits, two's complement): a [Z] reduced into
    [-2^31, 2^31) after every arithmetic operation. *)
Definition wrap_int (z : Z) : Z := (z + 2 ^ 31) mod 2 ^ 32 - 2 ^ 31.

(** [uint32_t]: a [Z] reduced into [0, 2^32). *)
Definition wrap_uint32 (z : Z) : Z := z mod 2 ^ 32.

Definition int_add (a b : Z) : Z := wrap_int (a + b).
Definition int_sub (a b : Z) : Z := wrap_int (a - b).

Definition in_int (z : Z) : Prop := - 2 ^ 31 <= z < 2 ^ 31.

(** [std::numeric_limits<int64_t>::max()] *)
Definition INT64_MAX : Z := 2 ^ 63 - 1.

(** [int64_t], the representation of the clock's time points and durations. *)
Definition wrap_int64 (z : Z) : Z := (z + 2 ^ 63) mod 2 ^ 64 - 2 ^ 63.
Definition int64_sub (a b : Z) : Z := wrap_int64 (a - b).
Definition int64_mul (a b : Z) : Z := wrap_int64 (a * b).

(* ------------------------------------------------------------------ *)
(** * Qt value types used by the controller

    [QPoint], [QSize] and [QRect] as Qt 5 defines them ([qpoint.h],
    [qsize.h], [qrect.h], [qrect.cpp]): a rectangle stores its two corners
    [x1, y1, x2, y2] as [int]s, the right and bottom ones inclusive. *)

Record QPoint : Type := mkQPoint { xp : Z; yp : Z }.
Record QSize : Type := mkQSize { wd : Z; ht : Z }.
Record QRect : Type := mkQRect { x1 : Z; y1 : Z; x2 : Z; y2 : Z }.

(** [QPoint()] *)
Definition QPoint_zero : QPoint := mkQPoint 0 0.

(** [operator-(const QPoint&, const QPoint&)] *)
Definition QPoint_sub (p q : QPoint) : QPoint :=
  mkQPoint (int_sub (xp p) (xp q)) (int_sub (yp p) (yp q)).

(** [QRect()]: [x1 = y1 = 0], [x2 = y2 = -1]. *)
Definition QRect_null : QRect := mkQRect 0 0 (-1) (-1).

Definition isNull (r : QRect) : bool :=
  (x2 r =? int_sub (x1 r) 1) && (y2 r =? int_sub (y1 r) 1).

Definition isEmpty (r : QRect) : bool :=
  (x1 r >? x2 r) || (y1 r >? y2 r).

Definition width (r : QRect) : Z := int_add (int_sub (x2 r) (x1 r)) 1.
Definition height (r : QRect) : Z := int_add (int_sub (y2 r) (y1 r)) 1.

Definition topLeft (r : QRect) : QPoint := mkQPoint (x1 r) (y1 r).
Definition size (r : QRect) : QSize := mkQSize (width r) (height r).

(** [QRect::translate(const QPoint&)] *)
Definition translate (r : QRect) (p : QPoint) : QRect :=
  mkQRect (int_add (x1 r) (xp p)) (int_add (y1 r) (yp p))
          (int_add (x2 r) (xp p)) (int_add (y2 r) (yp p)).

(** [QRect::united], that is [QRect::operator|]: a null operand yields the
    other one; otherwise both are normalised and the bounding rectangle is
    taken. *)
Definition united (a r : QRect) : QRect :=
  if isNull a then r
  else if isNull r then a
  else
    let l1 := if width a <? 0 then x2 a else x1 a in
    let r1 := if width a <? 0 then x1 a else x2 a in
    let l2 := if width r <? 0 then x2 r else x1 r in
    let r2 := if width r <? 0 then x1 r else x2 r in
    let t1 := if height a <? 0 then y2 a else y1 a in
    let b1 := if height a <? 0 then y1 a else y2 a in
    let t2 := if height r <? 0 then y2 r else y1 r in
    let b2 := if height r <? 0 then y1 r else y2 r in
    mkQRect (Z.min l1 l2) (Z.min t1 t2) (Z.max r1 r2) (Z.max b1 b2).

(** Rectangles and offsets whose coordinates stay far from the limits of
    [int]: on them no operation above wraps around. *)
Definition small_rect (r : QRect) : Prop :=
  (- 2 ^ 28 <= x1 r < 2 ^ 28 /\ - 2 ^ 28 <= y1 r < 2 ^ 28)
  /\ (- 2 ^ 28 <= x2 r < 2 ^ 28 /\ - 2 ^ 28 <= y2 r < 2 ^ 28).

Definition small_offset (p : QPoint) : Prop :=
  - 2 ^ 28 <= xp p <= 2 ^ 28 /\ - 2 ^ 28 <= yp p <= 2 ^ 28.

Definition medium_rect (r : QRect) : Prop :=
  (- 2 ^ 29 <= x1 r < 2 ^ 29 /\ - 2 ^ 29 <= y1 r < 2 ^ 29)
  /\ (- 2 ^ 29 <= x2 r < 2 ^ 29 /\ - 2 ^ 29 <= y2 r < 2 ^ 29).

(* ------------------------------------------------------------------ *)
(** * Results of a call *)

Inductive Result : Type :=
| SUCCEEDED
| UNSUPPORTED_SESSION
| FRAME_PREPARE_FAILED
| INITIALIZATION_FAILED
| DUPLICATION_FAILED
| INVALID_MONITOR_ID.

Definition resultName (result : Result) : string :=
  match result with
  | SUCCEEDED => "Succeeded"%string
  | UNSUPPORTED_SESSION => "Unsupported session"%string
  | FRAME_PREPARE_FAILED => "Frame preparation failed"%string
  | INITIALIZATION_FAILED => "Initialization failed"%string
  | DUPLICATION_FAILED => "Duplication failed"%string
  | INVALID_MONITOR_ID => "Invalid monitor id"%string
  end.

(** What a call can come to.  Two things in the source have no value to
    return: [operator[]] on a vector beyond its size, and a warm-up loop that
    is still running when the fuel given to the model is used up. *)
Inductive Outcome (A : Type) : Type :=
| Returns (a : A)
| OutOfRange
| OutOfFuel.

Arguments OutOfRange {A}.
Arguments OutOfFuel {A}.

Definition bind {A B : Type} (m : Outcome A) (k : A -> Outcome B) : Outcome B :=
  match m with
  | Returns a => k a
  | OutOfRange => OutOfRange
  | OutOfFuel => OutOfFuel
  end.

(** [sound m P] : the call [m] never indexes out of range, and if it returns
    its result satisfies [P]. *)
Definition sound {A : Type} (m : Outcome A) (P : A -> Prop) : Prop :=
  match m with
  | Returns a => P a
  | OutOfRange => False
  | OutOfFuel => True
  end.

Notation "' p <- m ;; k" := (bind m (fun p => k))
  (at level 61, p pattern, m at next level, right associativity).

(* ------------------------------------------------------------------ *)
(** * Collaborators *)

(** [D3dDevice] and [DxgiAdapterDuplicator].  A duplicator is built from a
    device and then initialised; every later call may change the duplicator,
    the per-adapter context it is given and the target frame. *)
Class AdapterDuplicator (Device Dup SubCtx SharedFrame : Type) : Type := {
  (** [devices[i].d3dDevice()->GetFeatureLevel()] *)
  feature_level : Device -> Z;
  (** [DxgiAdapterDuplicator duplicator(devices[i])] *)
  dup_new : Device -> Dup;
  dup_initialize : Dup -> bool * Dup;
  dup_desktopRect : Dup -> QRect;
  dup_screenCount : Dup -> Z;
  dup_screenRect : Dup -> Z -> QRect;
  dup_deviceName : Dup -> Z -> string;
  dup_numFramesCaptured : Dup -> Z;
  dup_setup : Dup -> SubCtx -> Dup * SubCtx;
  dup_unregister : Dup -> SubCtx -> Dup;
  dup_duplicate : Dup -> SubCtx -> SharedFrame -> bool * Dup * SubCtx * SharedFrame;
  dup_duplicateMonitor :
    Dup -> SubCtx -> Z -> SharedFrame -> bool * Dup * SubCtx * SharedFrame;
  dup_translateRect : Dup -> QPoint -> Dup;
  (** a default-constructed per-adapter context, as [contexts.resize] makes *)
  subctx_default : SubCtx
}.

(** [SharedFrame] and [FrameSimple]. *)
Class FrameOps (SharedFrame : Type) : Type := {
  sf_size : SharedFrame -> QSize;
  sf_setTopLeft : SharedFrame -> QPoint -> SharedFrame;
  (** [*frame->updatedRegion() = QRegion()] *)
  sf_clearUpdatedRegion : SharedFrame -> SharedFrame;
  (** [SharedFrame::wrap(FrameSimple::create(size, PixelFormat::ARGB()))] *)
  FrameSimple_create : QSize -> SharedFrame
}.

(** The operating system and [DisplayConfigurationMonitor].  [World] is
    whatever the probes read; each probe returns the world it leaves. *)
Class Platform (World Device Monitor : Type) : Type := {
  (** [D3dDevice::enumDevices()] *)
  enumDevices : World -> list Device * World;
  (** [ProcessIdToSessionId(GetCurrentProcessId(), &session_id)]:
      [None] when the call fails, else the session id *)
  ProcessIdToSessionId : World -> option Z * World;
  (** [GetDC(nullptr)] with the two [GetDeviceCaps] queries and [ReleaseDC]:
      [None] when no device context is obtained *)
  GetDC_DeviceCaps : World -> option QPoint * World;
  (** [Clock::now()], in clock ticks *)
  Clock_now : World -> Z * World;
  (** [std::this_thread::sleep_for] *)
  sleep_for : Z -> World -> World;
  (** clock ticks in a millisecond *)
  ticks_per_ms : Z;
  (** [display_configuration_monitor_.isChanged()] *)
  dcm_isChanged : Monitor -> World -> bool * Monitor * World;
  (** [display_configuration_monitor_.reset()] *)
  dcm_reset : Monitor -> Monitor
}.

(* ------------------------------------------------------------------ *)
(** * The controller *)

Record D3dInfo : Type := mkD3dInfo {
  min_feature_level : Z;
  max_feature_level : Z
}.

Section Controller.

Context {Device Dup SubCtx SharedFrame World Monitor : Type}.
Context {AD : AdapterDuplicator Device Dup SubCtx SharedFrame}.
Context {FO : FrameOps SharedFrame}.
Context {PF : Platform World Device Monitor}.

(** [DxgiDuplicatorController::Context] *)
Record Context : Type := mkContext {
  controller_id : Z;
  contexts : list SubCtx
}.

(** Modelled from the spec: [DxgiFrame] is declared in
    [desktop/win/dxgi_frame.h], which is not among the sources.  The
    controller reaches the caller's context through [frame->context()] and
    the pixel buffer through [frame->frame()]. *)
Record DxgiFrame : Type := mkDxgiFrame {
  context : Context;
  frame : SharedFrame
}.

(** Modelled from the spec: [DxgiFrame::prepare(size, monitor_id)] sizes
    the caller's buffer and records the monitor id; it can fail. *)
Variable frame_prepare : DxgiFrame -> QSize -> Z -> bool * DxgiFrame.

(** Modelled from the spec: the data members are declared in
    [dxgi_duplicator_controller.h], which is not among the sources.
    [identity_] and [refcount_] are taken as [int], and
    [succeeded_duplications_] as [uint32_t]. *)
Record Controller : Type := mkController {
  refcount_ : Z;
  identity_ : Z;
  desktop_rect_ : QRect;
  dpi_ : QPoint;
  duplicators_ : list Dup;
  d3d_info_ : D3dInfo;
  display_configuration_monitor_ : Monitor;
  succeeded_duplications_ : Z
}.

(** Assignments to single members. *)
Definition set_refcount (c : Controller) (v : Z) : Controller :=
  mkController v (identity_ c) (desktop_rect_ c) (dpi_ c) (duplicators_ c)
               (d3d_info_ c) (display_configuration_monitor_ c)
               (succeeded_duplications_ c).
Definition set_identity (c : Controller) (v : Z) : Controller :=
  mkController (refcount_ c) v (desktop_rect_ c) (dpi_ c) (duplicators_ c)
               (d3d_info_ c) (display_configuration_monitor_ c)
               (succeeded_duplications_ c).
Definition set_desktop_rect (c : Controller) (v : QRect) : Controller :=
  mkController (refcount_ c) (identity_ c) v (dpi_ c) (duplicators_ c)
               (d3d_info_ c) (display_configuration_monitor_ c)
               (succeeded_duplications_ c).
Definition set_dpi (c : Controller) (v : QPoint) : Controller :=
  mkController (refcount_ c) (identity_ c) (desktop_rect_ c) v (duplicators_ c)
               (d3d_info_ c) (display_configuration_monitor_ c)
               (succeeded_duplications_ c).
Definition set_duplicators (c : Controller) (v : list Dup) : Controller :=
  mkController (refcount_ c) (identity_ c) (desktop_rect_ c) (dpi_ c) v
               (d3d_info_ c) (display_configuration_monitor_ c)
               (succeeded_duplications_ c).
Definition set_d3d_info (c : Controller) (v : D3dInfo) : Controller :=
  mkController (refcount_ c) (identity_ c) (desktop_rect_ c) (dpi_ c)
               (duplicators_ c) v (display_configuration_monitor_ c)
               (succeeded_duplications_ c).
Definition set_monitor (c : Controller) (v : Monitor) : Controller :=
  mkController (refcount_ c) (identity_ c) (desktop_rect_ c) (dpi_ c)
               (duplicators_ c) (d3d_info_ c) v (succeeded_duplications_ c).
Definition set_succeeded (c : Controller) (v : Z) : Controller :=
  mkController (refcount_ c) (identity_ c) (desktop_rect_ c) (dpi_ c)
               (duplicators_ c) (d3d_info_ c)
               (display_configuration_monitor_ c) v.

(** The controller as the constructor and the default member initialisers
    leave it; the probe's own initial state is the caller's. *)
Definition new_controller (m : Monitor) : Controller :=
  mkController 0 0 QRect_null QPoint_zero [] (mkD3dInfo 0 0) m 0.

Definition is_empty {A : Type} (l : list A) : bool :=
  match l with [] => true | _ :: _ => false end.

(** ** [isCurrentSessionSupported] *)
Definition isCurrentSessionSupported (w : World) : bool * World :=
  let (r, w') := ProcessIdToSessionId w in
  match r with
  | None => (false, w')
  | Some session_id => (negb (session_id =? 0), w')
  end.

(** ** [deinitialize] *)
Definition deinitialize (c : Controller) : Controller :=
  let c1 := set_desktop_rect c QRect_null in
  let c2 := set_duplicators c1 [] in
  set_monitor c2 (dcm_reset (display_configuration_monitor_ c2)).

(** ** [translateRect] *)
Definition translateRect (c : Controller) : Controller :=
  let position := QPoint_sub (mkQPoint 0 0) (topLeft (desktop_rect_ c)) in
  let c1 := set_desktop_rect c (translate (desktop_rect_ c) position) in
  set_duplicators c1
    (map (fun duplicator => dup_translateRect duplicator position)
         (duplicators_ c1)).

(** ** [doInitialize] *)

(** The two updates of [d3d_info_] at the head of a loop turn. *)
Definition recordLevel (info : D3dInfo) (level : Z) : D3dInfo :=
  let info1 :=
    if (max_feature_level info =? 0) || (level >? max_feature_level info)
    then mkD3dInfo (min_feature_level info) level else info in
  if (min_feature_level info1 =? 0) || (level <? min_feature_level info1)
  then mkD3dInfo level (max_feature_level info1) else info1.

(** One turn of the loop over [devices]. *)
Definition initDevice (c : Controller) (device : Device) : Controller :=
  let c1 := set_d3d_info c (recordLevel (d3d_info_ c) (feature_level device)) in
  let (ok, duplicator) := dup_initialize (dup_new device) in
  if negb ok then c1
  else
    let c2 := set_duplicators c1 (duplicators_ c1 ++ [duplicator]) in
    set_desktop_rect c2
      (united (desktop_rect_ c2) (dup_desktopRect duplicator)).

Definition doInitialize (c : Controller) (w : World) : bool * Controller * World :=
  let c1 := set_d3d_info c (mkD3dInfo 0 0) in
  let (devices, w1) := enumDevices w in
  if is_empty devices then (false, c1, w1)
  else
    let c2 := fold_left initDevice devices c1 in
    let c3 := translateRect c2 in
    let (hdc, w2) := GetDC_DeviceCaps w1 in
    let c4 := match hdc with
              | Some caps => set_dpi c3 caps
              | None => c3
              end in
    let c5 := set_identity c4 (int_add (identity_ c4) 1) in
    (negb (is_empty (duplicators_ c5)), c5, w2).

(** ** [initialize] *)
Definition initialize (c : Controller) (w : World) : bool * Controller * World :=
  if negb (is_empty (duplicators_ c)) then (true, c, w)
  else
    let '(ok, c1, w1) := doInitialize c w in
    if ok then (true, c1, w1)
    else (false, deinitialize c1, w1).

(** ** [contextExpired] *)
Definition contextExpired (c : Controller) (ctx : Context) : bool :=
  negb (controller_id ctx =? identity_ c)
  || negb (Nat.eqb (length (contexts ctx)) (length (duplicators_ c))).

(** ** [setup] *)

(** [for i: duplicators_[i].setup(&context->contexts[i])] *)
Fixpoint setupAll (ds : list Dup) (cs : list SubCtx)
  : Outcome (list Dup * list SubCtx) :=
  match ds with
  | [] => Returns ([], cs)
  | d :: ds' =>
      match cs with
      | [] => OutOfRange
      | s :: cs' =>
          let (d', s') := dup_setup d s in
          '(ds'', cs'') <- setupAll ds' cs' ;;
          Returns (d' :: ds'', s' :: cs'')
      end
  end.

Definition setup (c : Controller) (ctx : Context) : Outcome (Controller * Context) :=
  if contextExpired c ctx then
    (* contexts.clear(); contexts.resize(duplicators_.size()) *)
    let fresh := repeat subctx_default (length (duplicators_ c)) in
    '(ds, cs) <- setupAll (duplicators_ c) fresh ;;
    Returns (set_duplicators c ds, mkContext (identity_ c) cs)
  else Returns (c, ctx).

(** ** [doDuplicateAll] *)
Fixpoint duplicateAll (ds : list Dup) (cs : list SubCtx) (target : SharedFrame)
  : Outcome (bool * list Dup * list SubCtx * SharedFrame) :=
  match ds with
  | [] => Returns (true, [], cs, target)
  | d :: ds' =>
      match cs with
      | [] => OutOfRange
      | s :: cs' =>
          let '(ok, d', s', target') := dup_duplicate d s target in
          if negb ok then Returns (false, d' :: ds', s' :: cs', target')
          else
            '(r, ds'', cs'', target'') <- duplicateAll ds' cs' target' ;;
            Returns (r, d' :: ds'', s' :: cs'', target'')
      end
  end.

Definition doDuplicateAll (c : Controller) (ctx : Context) (target : SharedFrame)
  : Outcome (bool * Controller * Context * SharedFrame) :=
  '(r, ds, cs, target') <- duplicateAll (duplicators_ c) (contexts ctx) target ;;
  Returns (r, set_duplicators c ds, mkContext (controller_id ctx) cs, target').

(** ** [doDuplicateOne] *)
Fixpoint duplicateOne (ds : list Dup) (cs : list SubCtx) (monitor_id : Z)
         (target : SharedFrame) : bool * list Dup * list SubCtx * SharedFrame :=
  match ds, cs with
  | d :: ds', s :: cs' =>
      if monitor_id >=? dup_screenCount d then
        let '(r, ds'', cs'', target') :=
          duplicateOne ds' cs' (int_sub monitor_id (dup_screenCount d)) target in
        (r, d :: ds'', s :: cs'', target')
      else
        let '(ok, d', s', target') := dup_duplicateMonitor d s monitor_id target in
        if ok then
          (true, d' :: ds', s' :: cs',
           sf_setTopLeft target' (topLeft (dup_screenRect d' monitor_id)))
        else (false, d' :: ds', s' :: cs', target')
  | _, _ => (false, ds, cs, target)
  end.

Definition doDuplicateOne (c : Controller) (ctx : Context) (monitor_id : Z)
           (target : SharedFrame) : bool * Controller * Context * SharedFrame :=
  let '(r, ds, cs, target') :=
    duplicateOne (duplicators_ c) (contexts ctx) monitor_id target in
  (r, set_duplicators c ds, mkContext (controller_id ctx) cs, target').

(** ** [numFramesCaptured] *)
Definition numFramesCaptured (c : Controller) : Z :=
  fold_left (fun min duplicator => Z.min min (dup_numFramesCaptured duplicator))
            (duplicators_ c) INT64_MAX.

(** ** [desktopSize] *)
Definition desktopSize (c : Controller) : QSize := size (desktop_rect_ c).

(** ** [screenRect] *)
Fixpoint screenRectFrom (ds : list Dup) (id : Z) : QRect :=
  match ds with
  | [] => QRect_null
  | d :: ds' =>
      if id >=? dup_screenCount d
      then screenRectFrom ds' (int_sub id (dup_screenCount d))
      else dup_screenRect d id
  end.

Definition screenRect (c : Controller) (id : Z) : QRect :=
  screenRectFrom (duplicators_ c) id.

(** ** [screenCountUnlocked] *)
Definition screenCountUnlocked (c : Controller) : Z :=
  fold_left (fun result duplicator => int_add result (dup_screenCount duplicator))
            (duplicators_ c) 0.

(** ** [deviceNamesUnlocked] *)
Definition deviceNamesUnlocked (c : Controller) (output : list string) : list string :=
  fold_left
    (fun out duplicator =>
       out ++ map (fun i => dup_deviceName duplicator (Z.of_nat i))
                  (seq 0 (Z.to_nat (dup_screenCount duplicator))))
    (duplicators_ c) output.

(** ** [selectedDesktopSize] *)
Definition selectedDesktopSize (c : Controller) (monitor_id : Z) : QSize :=
  if monitor_id <? 0 then desktopSize c
  else size (screenRect c monitor_id).

(** ** [ensureFrameCaptured] *)
Definition ms_per_frame : Z := int64_mul 17 ticks_per_ms.
Definition frames_to_skip : Z := 1.
Definition timeout_ms : Z := int64_mul 500 ticks_per_ms.

(** The [while] loop.  [shared_frame] is the frame the loop captures into;
    one unit of fuel pays for one turn. *)
Fixpoint warmUp (fuel : nat) (start_ms last_frame_start_ms : Z)
         (c : Controller) (w : World) (ctx : Context) (shared_frame : SharedFrame)
  : Outcome (bool * Controller * World * Context * SharedFrame) :=
  if numFramesCaptured c <? frames_to_skip then
    match fuel with
    | O => OutOfFuel
    | S fuel' =>
        let w1 :=
          if numFramesCaptured c >? 0 then
            let (now, w') := Clock_now w in
            sleep_for (int64_sub ms_per_frame (int64_sub now last_frame_start_ms)) w'
          else w in
        let (last', w2) := Clock_now w1 in
        '(ok, c', ctx', shared') <- doDuplicateAll c ctx shared_frame ;;
        if negb ok then Returns (false, c', w2, ctx', shared')
        else
          let (now, w3) := Clock_now w2 in
          if int64_sub now start_ms >? timeout_ms
          then Returns (false, c', w3, ctx', shared')
          else warmUp fuel' start_ms last' c' w3 ctx' shared'
    end
  else Returns (true, c, w, ctx, shared_frame).

Definition ensureFrameCaptured (fuel : nat) (c : Controller) (w : World)
           (ctx : Context) (target : SharedFrame)
  : Outcome (bool * Controller * World * Context * SharedFrame) :=
  if numFramesCaptured c >=? frames_to_skip then Returns (true, c, w, ctx, target)
  else
    let use_target :=
      (wd (sf_size target) >=? wd (desktopSize c))
      && (ht (sf_size target) >=? ht (desktopSize c)) in
    let (start_ms, w1) := Clock_now w in
    if use_target then
      (* shared_frame = target *)
      warmUp fuel start_ms 0 c w1 ctx target
    else
      (* shared_frame = fallback_frame.get(); the target is not written *)
      '(r, c', w', ctx', _) <-
        warmUp fuel start_ms 0 c w1 ctx (FrameSimple_create (desktopSize c)) ;;
      Returns (r, c', w', ctx', target).

(** ** [doDuplicateUnlocked] *)
Definition doDuplicateUnlocked (fuel : nat) (c : Controller) (w : World)
           (ctx : Context) (monitor_id : Z) (target : SharedFrame)
  : Outcome (bool * Controller * World * Context * SharedFrame) :=
  '(c1, ctx1) <- setup c ctx ;;
  '(ok, c2, w2, ctx2, target2) <- ensureFrameCaptured fuel c1 w ctx1 target ;;
  if negb ok then Returns (false, c2, w2, ctx2, target2)
  else if monitor_id <? 0 then
    '(result, c3, ctx3, target3) <- doDuplicateAll c2 ctx2 target2 ;;
    Returns (result, c3, w2, ctx3, target3)
  else
    let '(result, c3, ctx3, target3) := doDuplicateOne c2 ctx2 monitor_id target2 in
    Returns (result, c3, w2, ctx3, target3).

(** ** [doDuplicate] *)

(** [if (display_configuration_monitor_.isChanged()) deinitialize();] *)
Definition checkDisplayChange (c : Controller) (w : World) : Controller * World :=
  let '(changed, mon, w0) := dcm_isChanged (display_configuration_monitor_ c) w in
  let c0 := set_monitor c mon in
  (if changed then deinitialize c0 else c0, w0).

(** The display check followed by the call of [initialize()] that opens
    [doDuplicate]: its result, and the controller and world it leaves. *)
Definition enterDuplicate (c : Controller) (w : World) : bool * Controller * World :=
  let (c1, w0) := checkDisplayChange c w in
  initialize c1 w0.

Definition doDuplicate (fuel : nat) (c : Controller) (w : World)
           (f : DxgiFrame) (monitor_id : Z)
  : Outcome (Result * Controller * World * DxgiFrame) :=
  let '(ok, c2, w1) := enterDuplicate c w in
  if negb ok then
    if succeeded_duplications_ c2 =? 0 then
      let (supported, w2) := isCurrentSessionSupported w1 in
      if negb supported then Returns (UNSUPPORTED_SESSION, c2, w2, f)
      else Returns (INITIALIZATION_FAILED, c2, w2, f)
    else Returns (INITIALIZATION_FAILED, c2, w1, f)
  else
    let (prepared, f1) := frame_prepare f (selectedDesktopSize c2 monitor_id) monitor_id in
    if negb prepared then Returns (FRAME_PREPARE_FAILED, c2, w1, f1)
    else
      let target := sf_clearUpdatedRegion (frame f1) in
      '(ok', c3, w2, ctx, target') <-
        doDuplicateUnlocked fuel c2 w1 (context f1) monitor_id target ;;
      let f2 := mkDxgiFrame ctx target' in
      if ok' then
        Returns (SUCCEEDED,
                 set_succeeded c3 (wrap_uint32 (succeeded_duplications_ c3 + 1)),
                 w2, f2)
      else if monitor_id >=? screenCountUnlocked c3 then
        Returns (INVALID_MONITOR_ID, c3, w2, f2)
      else Returns (DUPLICATION_FAILED, deinitialize c3, w2, f2).

(** ** The public operations *)

Definition duplicate (fuel : nat) (c : Controller) (w : World) (f : DxgiFrame)
  : Outcome (Result * Controller * World * DxgiFrame) :=
  doDuplicate fuel c w f (-1).

Definition duplicateMonitor (fuel : nat) (c : Controller) (w : World)
           (f : DxgiFrame) (monitor_id : Z)
  : Outcome (Result * Controller * World * DxgiFrame) :=
  doDuplicate fuel c w f monitor_id.

Definition unload (c : Controller) : Controller := deinitialize c.

Definition addRef (c : Controller) : Controller :=
  set_refcount c (int_add (refcount_ c) 1).

Definition release (c : Controller) : Controller :=
  let c1 := set_refcount c (int_sub (refcount_ c) 1) in
  if refcount_ c1 =? 0 then unload c1 else c1.

Definition isSupported (c : Controller) (w : World) : bool * Controller * World :=
  initialize c w.

Definition retrieveD3dInfo (c : Controller) (w : World)
  : bool * D3dInfo * Controller * World :=
  let '(result, c1, w1) := initialize c w in
  (result, d3d_info_ c1, c1, w1).

Definition dpi (c : Controller) (w : World) : QPoint * Controller * World :=
  let '(ok, c1, w1) := initialize c w in
  if ok then (dpi_ c1, c1, w1) else (QPoint_zero, c1, w1).

Definition screenCount (c : Controller) (w : World) : Z * Controller * World :=
  let '(ok, c1, w1) := initialize c w in
  if ok then (screenCountUnlocked c1, c1, w1) else (0, c1, w1).

Definition deviceNames (c : Controller) (w : World) (output : list string)
  : bool * list string * Controller * World :=
  let '(ok, c1, w1) := initialize c w in
  if ok then (true, deviceNamesUnlocked c1 output, c1, w1)
  else (false, output, c1, w1).

(** ** [unregister] *)

(** [for i: duplicators_[i].unregister(&context->contexts[i])] *)
Fixpoint unregisterAll (ds : list Dup) (cs : list SubCtx) : Outcome (list Dup) :=
  match ds with
  | [] => Returns []
  | d :: ds' =>
      match cs with
      | [] => OutOfRange
      | s :: cs' =>
          'ds'' <- unregisterAll ds' cs' ;;
          Returns (dup_unregister d s :: ds'')
      end
  end.

Definition unregister (c : Controller) (ctx : Context) : Outcome Controller :=
  if contextExpired c ctx then Returns c
  else
    'ds <- unregisterAll (duplicators_ c) (contexts ctx) ;;
    Returns (set_duplicators c ds).

(** ** The states the controller can be in

    One step is one call of a public operation, with any world, frame,
    context or monitor id the caller may bring. *)
Inductive step : Controller -> Controller -> Prop :=
| step_addRef c : step c (addRef c)
| step_release c : step c (release c)
| step_unload c : step c (unload c)
| step_isSupported c w r c' w' :
    isSupported c w = (r, c', w') -> step c c'
| step_retrieveD3dInfo c w r i c' w' :
    retrieveD3dInfo c w = (r, i, c', w') -> step c c'
| step_dpi c w p c' w' :
    dpi c w = (p, c', w') -> step c c'
| step_screenCount c w n c' w' :
    screenCount c w = (n, c', w') -> step c c'
| step_deviceNames c w out r out' c' w' :
    deviceNames c w out = (r, out', c', w') -> step c c'
| step_duplicate fuel c w f r c' w' f' :
    duplicate fuel c w f = Returns (r, c', w', f') -> step c c'
| step_duplicateMonitor fuel c w f monitor_id r c' w' f' :
    0 <= monitor_id ->
    duplicateMonitor fuel c w f monitor_id = Returns (r, c', w', f') ->
    step c c'
| step_unregister c ctx c' :
    unregister c ctx = Returns c' -> step c c'.

Inductive reachable : Controller -> Prop :=
| reachable_new m : reachable (new_controller m)
| reachable_step c c' : reachable c -> step c c' -> reachable c'.

End Controller.

(* ------------------------------------------------------------------ *)
(** * What the controller may expect of an adapter duplicator

    [same_rects d d'] : [d'] reports the rectangles and the monitor count of
    [d].  [translated p d d'] : [d'] reports the rectangles of [d] moved by
    [p], and the same monitor count. *)

Section Laws.

Context {Device Dup SubCtx SharedFrame : Type}.
Context {AD : AdapterDuplicator Device Dup SubCtx SharedFrame}.

Definition same_rects (d d' : Dup) : Prop :=
  dup_desktopRect d' = dup_desktopRect d
  /\ dup_screenCount d' = dup_screenCount d
  /\ forall i, dup_screenRect d' i = dup_screenRect d i.

Definition translated (p : QPoint) (d d' : Dup) : Prop :=
  dup_desktopRect d' = translate (dup_desktopRect d) p
  /\ dup_screenCount d' = dup_screenCount d
  /\ forall i, 0 <= i < dup_screenCount d ->
               dup_screenRect d' i = translate (dup_screenRect d i) p.

(** The rectangles of an adapter are fixed when it is initialised and
    moved only by [translateRect]; no call adds or removes a monitor. *)
Class AdapterLaws : Prop := {
  translateRect_translated :
    forall d p, translated p d (dup_translateRect d p);
  setup_same_rects :
    forall d s, same_rects d (fst (dup_setup d s));
  unregister_same_rects :
    forall d s, same_rects d (dup_unregister d s);
  duplicate_same_rects :
    forall d s t, same_rects d (snd (fst (fst (dup_duplicate d s t))));
  duplicateMonitor_same_rects :
    forall d s i t, same_rects d (snd (fst (fst (dup_duplicateMonitor d s i t))))
}.

End Laws.

Arguments AdapterLaws {Device Dup SubCtx SharedFrame} AD.

(* ------------------------------------------------------------------ *)
(** * Vocabulary of the properties *)

Section Vocabulary.

Context {Device Dup SubCtx SharedFrame World Monitor : Type}.
Context {AD : AdapterDuplicator Device Dup SubCtx SharedFrame}.
Context {FO : FrameOps SharedFrame}.
Context {PF : Platform World Device Monitor}.

(** The union of a sequence of rectangles, taken as [doInitialize] takes it:
    from [QRect()], one [united] per rectangle, in order. *)
Definition unionRects (rs : list QRect) : QRect := fold_left united rs QRect_null.

(** [QPoint(0, 0) - u.topLeft()] *)
Definition origin_offset (u : QRect) : QPoint :=
  QPoint_sub (mkQPoint 0 0) (topLeft u).

(** The adapters of a device list whose duplicator initialises, as
    initialised and before any translation. *)
Definition initialised (devices : list Device) : list Dup :=
  flat_map (fun device =>
              let (ok, duplicator) := dup_initialize (dup_new device) in
              if ok then [duplicator] else [])
           devices.

(** The invariant of the desktop rectangle: there are adapters [origs] (the
    adapters as they were initialised) such that, with [u] the union of their
    desktop rectangles, [desktop_rect_] is [u] moved by [-u.topLeft()] and
    every current adapter reports the rectangles of its original moved by
    that same offset; and, where the original rectangles are far from the
    limits of [int], [desktop_rect_] is the union of the rectangles the
    adapters report now. *)
Definition desktop_invariant (c : @Controller Dup Monitor) : Prop :=
  duplicators_ c <> [] ->
  exists origs : list Dup,
    let u := unionRects (map dup_desktopRect origs) in
    topLeft (desktop_rect_ c) = mkQPoint 0 0
    /\ desktop_rect_ c = translate u (origin_offset u)
    /\ Forall2 (translated (origin_offset u)) origs (duplicators_ c)
    /\ (Forall small_rect (map dup_desktopRect origs) ->
        desktop_rect_ c = unionRects (map dup_desktopRect (duplicators_ c))).

(** What holds of every state the controller can be in: without adapters
    the desktop rectangle is [QRect()], and with adapters the invariant
    above holds. *)
Definition controller_invariant (c : @Controller Dup Monitor) : Prop :=
  (duplicators_ c = [] -> desktop_rect_ c = QRect_null)
  /\ desktop_invariant c.

(** [evolved c c'] : [c'] is [c] except for what the adapters changed inside
    themselves; no adapter was added, removed or moved, and nothing was torn
    down. *)
Definition evolved (c c' : @Controller Dup Monitor) : Prop :=
  refcount_ c' = refcount_ c
  /\ identity_ c' = identity_ c
  /\ desktop_rect_ c' = desktop_rect_ c
  /\ dpi_ c' = dpi_ c
  /\ d3d_info_ c' = d3d_info_ c
  /\ display_configuration_monitor_ c' = display_configuration_monitor_ c
  /\ succeeded_duplications_ c' = succeeded_duplications_ c
  /\ Forall2 same_rects (duplicators_ c) (duplicators_ c').

(** A context that has one sub-context per adapter. *)
Definition aligned (c : @Controller Dup Monitor) (ctx : @Context SubCtx) : Prop :=
  length (contexts ctx) = length (duplicators_ c).

(** The smallest and the largest element of a list of levels. *)
Definition minLevel (levels : list Z) : Z :=
  match levels with
  | [] => 0
  | x :: rest => fold_left Z.min rest x
  end.

Definition maxLevel (levels : list Z) : Z :=
  match levels with
  | [] => 0
  | x :: rest => fold_left Z.max rest x
  end.

(** The sum of the adapters' screen counts, as an integer. *)
Definition totalScreens (ds : list Dup) : Z :=
  fold_right (fun d n => dup_screenCount d + n) 0 ds.

(** The resolution of a flat monitor id in the words of the specification:
    walk the adapters in order, subtracting each adapter's monitor count from
    the id until the id is below the count of the adapter at hand; the result
    is the index of that adapter and the remainder. *)
Fixpoint resolveMonitor (ds : list Dup) (m : Z) : option (nat * Z) :=
  match ds with
  | [] => None
  | d :: ds' =>
      if m <? dup_screenCount d then Some (O, m)
      else match resolveMonitor ds' (m - dup_screenCount d) with
           | Some (i, r) => Some (S i, r)
           | None => None
           end
  end.

(** [l] with its [i]-th element replaced by [x]. *)
Definition replace_nth {A : Type} (i : nat) (x : A) (l : list A) : list A :=
  firstn i l ++ x :: skipn (S i) l.

(** [n] full-desktop duplications in a row into the same frame, stopping at
    the first that fails. *)
Fixpoint duplicateAllTimes (n : nat) (c : @Controller Dup Monitor)
         (ctx : @Context SubCtx) (shared_frame : SharedFrame)
  : Outcome (bool * @Controller Dup Monitor * @Context SubCtx * SharedFrame) :=
  match n with
  | O => Returns (true, c, ctx, shared_frame)
  | S n' =>
      '(ok, c', ctx', shared') <- doDuplicateAll c ctx shared_frame ;;
      if ok then duplicateAllTimes n' c' ctx' shared'
      else Returns (false, c', ctx', shared')
  end.

(** [same_members c c'] : [c'] has the members of [c], except that the
    adapters may have changed inside; there are as many of them. *)
Definition same_members (c c' : @Controller Dup Monitor) : Prop :=
  refcount_ c' = refcount_ c
  /\ identity_ c' = identity_ c
  /\ desktop_rect_ c' = desktop_rect_ c
  /\ dpi_ c' = dpi_ c
  /\ d3d_info_ c' = d3d_info_ c
  /\ display_configuration_monitor_ c' = display_configuration_monitor_ c
  /\ succeeded_duplications_ c' = succeeded_duplications_ c
  /\ length (duplicators_ c') = length (duplicators_ c).

(** The warm-up loop of [ensureFrameCaptured] with the sleeping branch left
    out, to compare the loop with. *)
Fixpoint warmUpNoSleep (fuel : nat) (start_ms : Z)
         (c : @Controller Dup Monitor) (w : World) (ctx : @Context SubCtx)
         (shared_frame : SharedFrame)
  : Outcome (bool * @Controller Dup Monitor * World * @Context SubCtx * SharedFrame) :=
  if numFramesCaptured c <? frames_to_skip then
    match fuel with
    | O => OutOfFuel
    | S fuel' =>
        let (_, w2) := Clock_now w in
        '(ok, c', ctx', shared') <- doDuplicateAll c ctx shared_frame ;;
        if negb ok then Returns (false, c', w2, ctx', shared')
        else
          let (now, w3) := Clock_now w2 in
          if int64_sub now start_ms >? timeout_ms
          then Returns (false, c', w3, ctx', shared')
          else warmUpNoSleep fuel' start_ms c' w3 ctx' shared'
    end
  else Returns (true, c, w, ctx, shared_frame).

(** The world after [n] readings of the clock. *)
Fixpoint clock_after (n : nat) (w : World) : World :=
  match n with
  | O => w
  | S n' => snd (Clock_now (clock_after n' w))
  end.

(** For a warm-up that begins in world [w]: the reading of the clock that
    ends its [i]-th turn, less the reading [start_ms] taken before the loop.
    The loop reads the clock once before it starts and twice in every turn
    ([last_frame_start_ms], then the reading compared with the deadline). *)
Definition turn_elapsed (i : nat) (w : World) : Z :=
  int64_sub (fst (Clock_now (clock_after (2 * i) w))) (fst (Clock_now w)).

(** The clock advances: at the end of some turn the deadline [timeout_ms]
    has passed. *)
Definition deadline_passes (w : World) : Prop :=
  exists i : nat, (1 <= i)%nat /\ turn_elapsed i w > timeout_ms.

End Vocabulary.

(* ------------------------------------------------------------------ *)
(** * A simulated machine

    Concrete collaborators, to run the controller on: devices that carry the
    rectangles of their monitors and say whether duplication works on them, a
    world that answers every probe from a fixed record, and a clock that
    advances by [w_tick] at each reading. *)

Module Sim.

Record Device : Type := mkDevice {
  dev_level : Z;
  dev_supported : bool;      (* does the duplicator initialise? *)
  dev_captures : bool;       (* does a duplication succeed? *)
  dev_rect : QRect;
  dev_screens : list QRect
}.

Record Dup : Type := mkDup {
  device : Device;
  rect : QRect;
  screens : list QRect;
  frames : Z;
  registered : Z
}.

Definition SubCtx : Type := Z.

Record SharedFrame : Type := mkSharedFrame {
  f_size : QSize;
  f_topLeft : QPoint;
  f_updated : bool
}.

Record World : Type := mkWorld {
  w_devices : list Device;
  w_session : option Z;
  w_caps : option QPoint;
  w_display : Z;
  w_time : Z;
  w_tick : Z
}.

Record Monitor : Type := mkMonitor {
  m_initialized : bool;
  m_seen : Z
}.

Definition adapter_initialize (d : Dup) : bool * Dup :=
  if dev_supported (device d)
  then (true, mkDup (device d) (dev_rect (device d)) (dev_screens (device d))
                    (frames d) (registered d))
  else (false, d).

Definition capture (d : Dup) : Dup :=
  mkDup (device d) (rect d) (screens d) (frames d + 1) (registered d).

Definition adapter_duplicate (d : Dup) (s : SubCtx) (t : SharedFrame)
  : bool * Dup * SubCtx * SharedFrame :=
  if dev_captures (device d)
  then (true, capture d, s, mkSharedFrame (f_size t) (f_topLeft t) true)
  else (false, d, s, t).

Definition adapter_duplicateMonitor (d : Dup) (s : SubCtx) (i : Z) (t : SharedFrame)
  : bool * Dup * SubCtx * SharedFrame :=
  if dev_captures (device d) && (i <? Z.of_nat (length (screens d)))
  then (true, capture d, s, mkSharedFrame (f_size t) (f_topLeft t) true)
  else (false, d, s, t).

#[global] Instance adapter : AdapterDuplicator Device Dup SubCtx SharedFrame := {
  feature_level := dev_level;
  dup_new := fun dev => mkDup dev QRect_null [] 0 0;
  dup_initialize := adapter_initialize;
  dup_desktopRect := rect;
  dup_screenCount := fun d => Z.of_nat (length (screens d));
  dup_screenRect := fun d i => nth (Z.to_nat i) (screens d) QRect_null;
  dup_deviceName := fun _ _ => EmptyString;
  dup_numFramesCaptured := frames;
  dup_setup := fun d _ =>
    (mkDup (device d) (rect d) (screens d) (frames d) (registered d + 1), 1);
  dup_unregister := fun d s =>
    mkDup (device d) (rect d) (screens d) (frames d) (registered d - s);
  dup_duplicate := adapter_duplicate;
  dup_duplicateMonitor := adapter_duplicateMonitor;
  dup_translateRect := fun d p =>
    mkDup (device d) (translate (rect d) p)
          (map (fun r => translate r p) (screens d)) (frames d) (registered d);
  subctx_default := 0
}.

#[global] Instance frames_ops : FrameOps SharedFrame := {
  sf_size := f_size;
  sf_setTopLeft := fun t p => mkSharedFrame (f_size t) p (f_updated t);
  sf_clearUpdatedRegion := fun t => mkSharedFrame (f_size t) (f_topLeft t) false;
  FrameSimple_create := fun sz => mkSharedFrame sz QPoint_zero false
}.

Definition tick (w : World) : World :=
  mkWorld (w_devices w) (w_session w) (w_caps w) (w_display w)
          (w_time w + w_tick w) (w_tick w).

Definition monitor_isChanged (m : Monitor) (w : World) : bool * Monitor * World :=
  if negb (m_initialized m) then (false, mkMonitor true (w_display w), w)
  else if m_seen m =? w_display w then (false, m, w)
  else (true, mkMonitor true (w_display w), w).

#[global] Instance platform : Platform World Device Monitor := {
  enumDevices := fun w => (w_devices w, w);
  ProcessIdToSessionId := fun w => (w_session w, w);
  GetDC_DeviceCaps := fun w => (w_caps w, w);
  Clock_now := fun w => (w_time w, tick w);
  sleep_for := fun d w =>
    mkWorld (w_devices w) (w_session w) (w_caps w) (w_display w)
            (w_time w + Z.max d 0) (w_tick w);
  ticks_per_ms := 1000000;
  dcm_isChanged := monitor_isChanged;
  dcm_reset := fun m => mkMonitor false (m_seen m)
}.

(** A [prepare] that resizes the buffer, and one that cannot. *)
Definition prepare_ok (f : @DxgiFrame SubCtx SharedFrame) (sz : QSize) (id : Z)
  : bool * @DxgiFrame SubCtx SharedFrame :=
  (true, mkDxgiFrame (context f)
                     (mkSharedFrame sz (f_topLeft (frame f)) (f_updated (frame f)))).

Definition prepare_fails (f : @DxgiFrame SubCtx SharedFrame) (sz : QSize) (id : Z)
  : bool * @DxgiFrame SubCtx SharedFrame := (false, f).

(** Two full-HD monitors side by side, the left one at negative
    x-coordinates, each on an adapter of its own. *)
Definition left_rect : QRect := mkQRect (-1920) 0 (-1) 1079.
Definition right_rect : QRect := mkQRect 0 0 1919 1079.

Definition gpu_left : Device := mkDevice 45056 true true left_rect [left_rect].
Definition gpu_right : Device := mkDevice 45312 true true right_rect [right_rect].
(** an adapter without duplication support *)
Definition gpu_virtual : Device := mkDevice 37120 false false QRect_null [].
(** an adapter that initialises but whose duplication calls fail *)
Definition gpu_broken : Device := mkDevice 45056 true false right_rect [right_rect].

Definition world (devices : list Device) (session : option Z) : World :=
  mkWorld devices session (Some (mkQPoint 96 96)) 0 0 1000000.

Definition fresh : @Controller Dup Monitor := new_controller (mkMonitor false 0).

Definition blank_frame : @DxgiFrame SubCtx SharedFrame :=
  mkDxgiFrame (mkContext 0 []) (mkSharedFrame (mkQSize 0 0) QPoint_zero false).

(** Worlds: an interactive session with both monitors; session 0 with no
    device at all; an interactive session whose only adapter does not
    support duplication; one whose only adapter fails every duplication. *)
Definition two_monitors : World := world [gpu_left; gpu_right] (Some 1).
Definition session_zero : World := world [] (Some 0).
Definition virtual_only : World := world [gpu_virtual] (Some 1).
Definition broken_only : World := world [gpu_broken] (Some 1).

(** The controller after a first successful [initialize()] on the two
    monitors, and a context set up against it. *)
Definition running : @Controller Dup Monitor :=
  Eval vm_compute in snd (fst (initialize fresh two_monitors)).

Definition current_context : @Context SubCtx := mkContext 1 [1; 1].
Definition stale_context : @Context SubCtx := mkContext 0 [1; 1].

Definition desktop_frame : SharedFrame :=
  mkSharedFrame (mkQSize 3840 1080) QPoint_zero false.

(** Three adapters, the middle one failing every duplication, and the
    controller initialised on them with a context set up against it. *)
Definition three_adapters : World :=
  world [gpu_left; gpu_broken; gpu_right] (Some 1).

Definition running_three : @Controller Dup Monitor :=
  Eval vm_compute in snd (fst (initialize fresh three_adapters)).

Definition context_three : @Context SubCtx := mkContext 1 [1; 1; 1].

End Sim.

(* ------------------------------------------------------------------ *)
(** * Properties of the controller *)

Unset Implicit Arguments.

Section Facts.

Context {Device Dup SubCtx SharedFrame World Monitor : Type}.
Context {AD : AdapterDuplicator Device Dup SubCtx SharedFrame}.
Context {FO : FrameOps SharedFrame}.
Context {PF : Platform World Device Monitor}.

Abbreviation Ctl := (@Controller Dup Monitor).
Abbreviation Ctx := (@Context SubCtx).
Abbreviation Frm := (@DxgiFrame SubCtx SharedFrame).

Variable frame_prepare : Frm -> QSize -> Z -> bool * Frm.

(** ** What each internal operation leaves alone *)

Lemma deinitialize_fields (c : Ctl) :
  duplicators_ (deinitialize c) = []
  /\ desktop_rect_ (deinitialize c) = QRect_null
  /\ display_configuration_monitor_ (deinitialize c)
     = dcm_reset (display_configuration_monitor_ c).
Proof. repeat split. Qed.

Lemma deinitialize_frame (c : Ctl) :
  refcount_ (deinitialize c) = refcount_ c
  /\ identity_ (deinitialize c) = identity_ c
  /\ succeeded_duplications_ (deinitialize c) = succeeded_duplications_ c
  /\ dpi_ (deinitialize c) = dpi_ c
  /\ d3d_info_ (deinitialize c) = d3d_info_ c.
Proof. repeat split. Qed.

Lemma initDevice_succeeded (c : Ctl) (device : Device) :
  succeeded_duplications_ (initDevice c device) = succeeded_duplications_ c.
Proof.
  unfold initDevice. destruct (dup_initialize (dup_new device)) as [[] d]; reflexivity.
Qed.

Lemma fold_initDevice_succeeded (devices : list Device) (c : Ctl) :
  succeeded_duplications_ (fold_left initDevice devices c)
  = succeeded_duplications_ c.
Proof.
  revert c. induction devices as [|dev devices IH]; intros c; simpl.
  - reflexivity.
  - rewrite IH. apply initDevice_succeeded.
Qed.

Lemma doInitialize_succeeded (c : Ctl) (w : World) :
  succeeded_duplications_ (snd (fst (doInitialize c w)))
  = succeeded_duplications_ c.
Proof.
  unfold doInitialize. destruct (enumDevices w) as [devices w1].
  destruct (is_empty devices); [reflexivity|].
  destruct (GetDC_DeviceCaps w1) as [[caps|] w2]; simpl;
    rewrite fold_initDevice_succeeded; reflexivity.
Qed.

Lemma initialize_succeeded (c : Ctl) (w : World) :
  succeeded_duplications_ (snd (fst (initialize c w)))
  = succeeded_duplications_ c.
Proof.
  unfold initialize. destruct (negb (is_empty (duplicators_ c))); [reflexivity|].
  pose proof (doInitialize_succeeded c w) as H.
  destruct (doInitialize c w) as [[[] c1] w1]; simpl in *; exact H.
Qed.

Lemma checkDisplayChange_succeeded (c : Ctl) (w : World) :
  succeeded_duplications_ (fst (checkDisplayChange c w))
  = succeeded_duplications_ c.
Proof.
  unfold checkDisplayChange.
  destruct (dcm_isChanged (display_configuration_monitor_ c) w) as [[[] mon] w0];
    reflexivity.
Qed.

Lemma enterDuplicate_succeeded (c : Ctl) (w : World) :
  succeeded_duplications_ (snd (fst (enterDuplicate c w)))
  = succeeded_duplications_ c.
Proof.
  unfold enterDuplicate.
  pose proof (checkDisplayChange_succeeded c w) as H.
  destruct (checkDisplayChange c w) as [c1 w0]; simpl in H.
  rewrite initialize_succeeded. exact H.
Qed.

(** ** Failed initialisation *)

(** C1.  When the initialisation that opens [doDuplicate] fails (for
    [duplicate], monitor id [-1], and for [duplicateMonitor] alike), the
    call returns, leaving the frame as it was; the result is
    [UNSUPPORTED_SESSION] exactly when [succeeded_duplications_] was 0 at
    call entry and the session probe reports an unsupported session, and
    [INITIALIZATION_FAILED] in every other case. *)
Theorem C1_failed_initialization_result :
  forall (fuel : nat) (c : Ctl) (w : World) (f : Frm) (monitor_id : Z),
    fst (fst (enterDuplicate c w)) = false ->
    exists r w',
      doDuplicate frame_prepare fuel c w f monitor_id
      = Returns (r, snd (fst (enterDuplicate c w)), w', f)
      /\ (r = UNSUPPORTED_SESSION <->
          succeeded_duplications_ c = 0
          /\ fst (isCurrentSessionSupported (snd (enterDuplicate c w))) = false)
      /\ (r <> UNSUPPORTED_SESSION -> r = INITIALIZATION_FAILED).
Proof.
  intros fuel c w f monitor_id Hfail.
  unfold doDuplicate.
  pose proof (enterDuplicate_succeeded c w) as Hs.
  destruct (enterDuplicate c w) as [[ok c2] w1]; simpl in *. subst ok. simpl.
  rewrite Hs.
  destruct (succeeded_duplications_ c =? 0) eqn:Hz.
  - apply Z.eqb_eq in Hz.
    destruct (isCurrentSessionSupported w1) as [[] w2]; simpl.
    + exists INITIALIZATION_FAILED, w2. repeat split; try congruence.
      intros [_ H]. discriminate H.
    + exists UNSUPPORTED_SESSION, w2. repeat split; congruence.
  - apply Z.eqb_neq in Hz.
    exists INITIALIZATION_FAILED, w1. repeat split; try congruence.
    intros [H _]. contradiction.
Qed.

(** ** Teardown *)

Lemma release_cases (c : Ctl) :
  release c = deinitialize (set_refcount c (int_sub (refcount_ c) 1))
  \/ release c = set_refcount c (int_sub (refcount_ c) 1).
Proof.
  unfold release, unload.
  destruct (refcount_ (set_refcount c (int_sub (refcount_ c) 1)) =? 0); auto.
Qed.

Lemma checkDisplayChange_cases (c : Ctl) (w : World) :
  let mon := snd (fst (dcm_isChanged (display_configuration_monitor_ c) w)) in
  fst (checkDisplayChange c w) = deinitialize (set_monitor c mon)
  \/ fst (checkDisplayChange c w) = set_monitor c mon.
Proof.
  unfold checkDisplayChange.
  destruct (dcm_isChanged (display_configuration_monitor_ c) w) as [[[] mon] w0];
    simpl; auto.
Qed.

(** What [doDuplicate] does once initialisation and [prepare] are behind
    it, read off its result. *)
Lemma doDuplicate_inv (fuel : nat) (c : Ctl) (w : World) (f : Frm) (m : Z)
      (r : Result) (c' : Ctl) (w' : World) (f' : Frm) :
  doDuplicate frame_prepare fuel c w f m = Returns (r, c', w', f') ->
  let c2 := snd (fst (enterDuplicate c w)) in
  let w1 := snd (enterDuplicate c w) in
  let p := frame_prepare f (selectedDesktopSize c2 m) m in
  (fst (fst (enterDuplicate c w)) = false
   /\ (r = UNSUPPORTED_SESSION \/ r = INITIALIZATION_FAILED) /\ c' = c2 /\ f' = f)
  \/ (fst (fst (enterDuplicate c w)) = true /\ fst p = false
      /\ r = FRAME_PREPARE_FAILED /\ c' = c2 /\ w' = w1 /\ f' = snd p)
  \/ (fst (fst (enterDuplicate c w)) = true /\ fst p = true
      /\ exists ok c3 ctx target,
          doDuplicateUnlocked fuel c2 w1 (context (snd p)) m
                              (sf_clearUpdatedRegion (frame (snd p)))
          = Returns (ok, c3, w', ctx, target)
          /\ f' = mkDxgiFrame ctx target
          /\ ((ok = true /\ r = SUCCEEDED
               /\ c' = set_succeeded c3 (wrap_uint32 (succeeded_duplications_ c3 + 1)))
              \/ (ok = false /\ (m >=? screenCountUnlocked c3) = true
                  /\ r = INVALID_MONITOR_ID /\ c' = c3)
              \/ (ok = false /\ (m >=? screenCountUnlocked c3) = false
                  /\ r = DUPLICATION_FAILED /\ c' = deinitialize c3))).
Proof.
  unfold doDuplicate.
  destruct (enterDuplicate c w) as [[ok c2] w1]; simpl.
  destruct ok; simpl.
  - destruct (frame_prepare f (selectedDesktopSize c2 m) m) as [prepared f1]; simpl.
    destruct prepared; simpl.
    + destruct (doDuplicateUnlocked fuel c2 w1 (context f1) m
                                    (sf_clearUpdatedRegion (frame f1)))
        as [[[[[ok' c3] w2] ctx] target]| |]; simpl; try discriminate.
      intros H. right. right. repeat split.
      exists ok', c3, ctx, target.
      destruct ok'.
      * inversion H; subst. repeat split. left. repeat split.
      * destruct (m >=? screenCountUnlocked c3) eqn:E; inversion H; subst;
          repeat split; [right; left | right; right]; repeat split.
    + intros H. inversion H; subst. right. left. repeat split.
  - intros H. left. split; [reflexivity|].
    destruct (succeeded_duplications_ c2 =? 0).
    + destruct (isCurrentSessionSupported w1) as [[] w2]; simpl in H;
        inversion H; subst; auto.
    + inversion H; subst; auto.
Qed.

(** C9.  Teardown is [deinitialize] on every path that reaches it ([unload],
    a [release] that brings the reference count to zero, a detected display
    change, a [DUPLICATION_FAILED] return), and [deinitialize] leaves [identity_], [succeeded_duplications_],
    [dpi_] and [d3d_info_] (and the reference count) as they were: only
    [desktop_rect_], [duplicators_] and the display-change probe change. *)
Theorem C9_teardown_changes_only_rect_adapters_probe :
  forall (c : Ctl),
    (identity_ (deinitialize c) = identity_ c
     /\ succeeded_duplications_ (deinitialize c) = succeeded_duplications_ c
     /\ dpi_ (deinitialize c) = dpi_ c
     /\ d3d_info_ (deinitialize c) = d3d_info_ c
     /\ refcount_ (deinitialize c) = refcount_ c)
    /\ (duplicators_ (deinitialize c) = []
        /\ desktop_rect_ (deinitialize c) = QRect_null
        /\ display_configuration_monitor_ (deinitialize c)
           = dcm_reset (display_configuration_monitor_ c))
    /\ unload c = deinitialize c
    /\ (release c = deinitialize (set_refcount c (int_sub (refcount_ c) 1))
        \/ release c = set_refcount c (int_sub (refcount_ c) 1))
    /\ (identity_ (release c) = identity_ c
        /\ succeeded_duplications_ (release c) = succeeded_duplications_ c
        /\ dpi_ (release c) = dpi_ c
        /\ d3d_info_ (release c) = d3d_info_ c)
    /\ (forall w : World,
          let c1 := fst (checkDisplayChange c w) in
          identity_ c1 = identity_ c
          /\ succeeded_duplications_ c1 = succeeded_duplications_ c
          /\ dpi_ c1 = dpi_ c
          /\ d3d_info_ c1 = d3d_info_ c)
    /\ (forall fuel w f monitor_id c' w' f',
          doDuplicate frame_prepare fuel c w f monitor_id
          = Returns (DUPLICATION_FAILED, c', w', f') ->
          exists c3,
            c' = deinitialize c3
            /\ identity_ c' = identity_ c3
            /\ succeeded_duplications_ c' = succeeded_duplications_ c3
            /\ dpi_ c' = dpi_ c3
            /\ d3d_info_ c' = d3d_info_ c3).
Proof.
  intros c. split; [repeat split|]. split; [repeat split|].
  split; [reflexivity|]. split; [apply release_cases|]. split; [|split].
  - destruct (release_cases c) as [H|H]; rewrite H; repeat split.
  - intros w c1. subst c1.
    destruct (checkDisplayChange_cases c w) as [H|H]; simpl in H; rewrite H;
      repeat split.
  - intros fuel w f monitor_id c' w' f' H.
    apply doDuplicate_inv in H. simpl in H.
    destruct H as [(_ & [E|E] & _) | [(_ & _ & E & _) | (_ & _ & H)]];
      try discriminate E.
    destruct H as (ok & c3 & ctx & target & _ & _
                   & [(_ & E & _) | [(_ & _ & E & _) | (_ & _ & _ & ->)]]);
      try discriminate E.
    exists c3. repeat split.
Qed.

(** C2.  A call that returns [DUPLICATION_FAILED] was initialised, had a
    monitor id below the screen count, and has deinitialised before
    returning: [duplicators_] is empty, [desktop_rect_] is the empty
    [QRect()], the display-change probe has been reset, and the next
    [initialize()] goes through [doInitialize]. *)
Theorem C2_duplication_failed_deinitializes :
  forall (fuel : nat) (c : Ctl) (w : World) (f : Frm) (monitor_id : Z)
         (c' : Ctl) (w' : World) (f' : Frm),
    doDuplicate frame_prepare fuel c w f monitor_id
    = Returns (DUPLICATION_FAILED, c', w', f') ->
    fst (fst (enterDuplicate c w)) = true
    /\ (exists c3, c' = deinitialize c3 /\ monitor_id < screenCountUnlocked c3)
    /\ duplicators_ c' = []
    /\ desktop_rect_ c' = QRect_null
    /\ isEmpty (desktop_rect_ c') = true
    /\ (exists mon, display_configuration_monitor_ c' = dcm_reset mon)
    /\ (forall w1 : World,
          initialize c' w1
          = (let '(ok, c1, w2) := doInitialize c' w1 in
             if ok then (true, c1, w2) else (false, deinitialize c1, w2))).
Proof.
  intros fuel c w f monitor_id c' w' f' H.
  apply doDuplicate_inv in H. simpl in H.
  destruct H as [(_ & [E|E] & _) | [(_ & _ & E & _) | (Hinit & _ & H)]];
    try discriminate E.
  destruct H as (ok & c3 & ctx & target & _ & _ & [(_ & E & _) | [(_ & _ & E & _) | H]]);
    try discriminate E.
  destruct H as (_ & Hlt & _ & ->).
  split; [exact Hinit|]. split.
  - exists c3. split; [reflexivity|]. rewrite Z.geb_leb in Hlt.
    apply Z.leb_gt in Hlt. exact Hlt.
  - repeat split.
    exists (display_configuration_monitor_ c3). reflexivity.
Qed.

(** ** Contexts *)

Lemma contextExpired_false (c : Ctl) (ctx : Ctx) :
  contextExpired c ctx = false <->
  controller_id ctx = identity_ c
  /\ length (contexts ctx) = length (duplicators_ c).
Proof.
  unfold contextExpired. rewrite orb_false_iff, !negb_false_iff.
  rewrite Z.eqb_eq, Nat.eqb_eq. reflexivity.
Qed.

Lemma contextExpired_true (c : Ctl) (ctx : Ctx) :
  contextExpired c ctx = true <->
  controller_id ctx <> identity_ c
  \/ length (contexts ctx) <> length (duplicators_ c).
Proof.
  unfold contextExpired. rewrite orb_true_iff, !negb_true_iff.
  rewrite Z.eqb_neq, Nat.eqb_neq. reflexivity.
Qed.

Lemma unregisterAll_combine (ds : list Dup) (cs : list SubCtx) :
  length cs = length ds ->
  unregisterAll ds cs
  = Returns (map (fun p => dup_unregister (fst p) (snd p)) (combine ds cs)).
Proof.
  revert cs. induction ds as [|d ds IH]; intros [|s cs] Hlen;
    simpl in *; try discriminate; [reflexivity|].
  rewrite IH by congruence. reflexivity.
Qed.

Lemma nth_error_combine {A B : Type} (l : list A) (l' : list B) (i : nat) (a : A) (b : B) :
  nth_error l i = Some a -> nth_error l' i = Some b ->
  nth_error (combine l l') i = Some (a, b).
Proof.
  revert l l'. induction i as [|i IH]; intros [|x l] [|y l'] Ha Hb;
    simpl in *; try discriminate.
  - congruence.
  - apply IH; assumption.
Qed.

(** C8.  A context is expired exactly when its [controller_id] differs from
    [identity_] or it has another number of sub-contexts than there are
    adapters.  On an expired context [unregister] returns with the
    controller as it was, no duplicator having been called; on a current one
    the [i]-th duplicator is replaced, for every [i], by the result of its
    [unregister] on the [i]-th sub-context, and nothing else changes. *)
Theorem C8_unregister_expired_noop :
  forall (c : Ctl) (ctx : Ctx),
    (contextExpired c ctx = true <->
     controller_id ctx <> identity_ c
     \/ length (contexts ctx) <> length (duplicators_ c))
    /\ (contextExpired c ctx = true -> unregister c ctx = Returns c)
    /\ (contextExpired c ctx = false ->
        exists ds,
          unregister c ctx = Returns (set_duplicators c ds)
          /\ length ds = length (duplicators_ c)
          /\ (forall i d, nth_error (duplicators_ c) i = Some d ->
                          exists s, nth_error (contexts ctx) i = Some s
                                    /\ nth_error ds i = Some (dup_unregister d s))).
Proof.
  intros c ctx. split; [apply contextExpired_true|]. split.
  - intros H. unfold unregister. rewrite H. reflexivity.
  - intros H. unfold unregister. rewrite H.
    apply contextExpired_false in H. destruct H as [_ Hlen].
    rewrite (unregisterAll_combine _ _ Hlen). simpl.
    eexists. split; [reflexivity|]. split.
    + rewrite length_map, length_combine, Hlen. apply Nat.min_id.
    + intros i d Hd.
      destruct (nth_error (contexts ctx) i) as [s|] eqn:Hs.
      * exists s. split; [reflexivity|].
        rewrite nth_error_map, (nth_error_combine _ _ _ _ _ Hd Hs). reflexivity.
      * apply nth_error_None in Hs.
        assert (i < length (duplicators_ c))%nat
          by (apply nth_error_Some; congruence).
        lia.
Qed.

(** ** Initialisation without a usable adapter *)

Lemma fold_initDevice_none (devices : list Device) (c : Ctl) :
  Forall (fun device => fst (dup_initialize (dup_new device)) = false) devices ->
  fold_left initDevice devices c
  = set_d3d_info c (fold_left recordLevel (map feature_level devices) (d3d_info_ c)).
Proof.
  intros H. revert c. induction H as [|device devices Hd _ IH]; intros c; simpl.
  - destruct c; reflexivity.
  - rewrite IH. unfold initDevice.
    destruct (dup_initialize (dup_new device)) as [ok d]. simpl in Hd. subst ok.
    reflexivity.
Qed.

Lemma recordLevel_seeded (mn mx x : Z) :
  0 < mn -> 0 < mx ->
  recordLevel (mkD3dInfo mn mx) x = mkD3dInfo (Z.min mn x) (Z.max mx x).
Proof.
  intros Hmn Hmx. unfold recordLevel. simpl. rewrite Z.gtb_ltb.
  destruct (Z.eqb_spec mx 0); [lia|].
  destruct (Z.ltb_spec mx x); simpl;
    destruct (Z.eqb_spec mn 0); try lia;
    destruct (Z.ltb_spec x mn); simpl; f_equal; lia.
Qed.

Lemma fold_recordLevel_seeded (levels : list Z) (mn mx : Z) :
  0 < mn -> 0 < mx ->
  Forall (fun level => 0 < level) levels ->
  fold_left recordLevel levels (mkD3dInfo mn mx)
  = mkD3dInfo (fold_left Z.min levels mn) (fold_left Z.max levels mx).
Proof.
  intros Hmn Hmx H. revert mn mx Hmn Hmx.
  induction H as [|x levels Hx _ IH]; intros mn mx Hmn Hmx; simpl.
  - reflexivity.
  - rewrite recordLevel_seeded by assumption. apply IH; lia.
Qed.

Lemma fold_recordLevel_positive (levels : list Z) :
  Forall (fun level => 0 < level) levels ->
  levels <> [] ->
  fold_left recordLevel levels (mkD3dInfo 0 0)
  = mkD3dInfo (minLevel levels) (maxLevel levels).
Proof.
  intros H Hne. destruct levels as [|x levels]; [contradiction|].
  inversion H; subst. simpl.
  replace (recordLevel (mkD3dInfo 0 0) x) with (mkD3dInfo x x).
  - apply fold_recordLevel_seeded; assumption.
  - unfold recordLevel. simpl. reflexivity.
Qed.

Lemma wrap_int_cancel (x : Z) : int_add x (int_sub 0 x) = 0.
Proof.
  unfold int_add, int_sub, wrap_int.
  replace (x + ((0 - x + 2 ^ 31) mod 2 ^ 32 - 2 ^ 31) + 2 ^ 31)
    with (x + (0 - x + 2 ^ 31) mod 2 ^ 32) by lia.
  rewrite Z.add_mod_idemp_r by lia.
  replace (x + (0 - x + 2 ^ 31)) with (2 ^ 31) by lia.
  reflexivity.
Qed.

(** C4, as the code has it.  When the enumeration is not empty but no
    adapter duplicator initialises, [initialize] fails and deinitialises:
    [duplicators_] and [desktop_rect_] are empty and the probe is reset.
    [d3d_info_] is not cleaned up: it holds the smallest and the largest
    feature level of the enumerated devices; and [identity_] has been
    incremented, as [doInitialize] does whenever there is a device. *)
Theorem C4_initialize_without_adapter :
  forall (c : Ctl) (w : World),
    duplicators_ c = [] ->
    fst (enumDevices w) <> [] ->
    Forall (fun device => fst (dup_initialize (dup_new device)) = false)
           (fst (enumDevices w)) ->
    Forall (fun device => 0 < feature_level device) (fst (enumDevices w)) ->
    let c' := snd (fst (initialize c w)) in
    fst (fst (initialize c w)) = false
    /\ duplicators_ c' = []
    /\ desktop_rect_ c' = QRect_null
    /\ isEmpty (desktop_rect_ c') = true
    /\ display_configuration_monitor_ c'
       = dcm_reset (display_configuration_monitor_ c)
    /\ identity_ c' = int_add (identity_ c) 1
    /\ d3d_info_ c'
       = mkD3dInfo (minLevel (map feature_level (fst (enumDevices w))))
                   (maxLevel (map feature_level (fst (enumDevices w))))
    /\ dpi_ c' = match fst (GetDC_DeviceCaps (snd (enumDevices w))) with
                 | Some caps => caps
                 | None => dpi_ c
                 end
    /\ succeeded_duplications_ c' = succeeded_duplications_ c
    /\ refcount_ c' = refcount_ c.
Proof.
  intros c w Hempty Hne Hnone Hpos c'. subst c'.
  unfold initialize. rewrite Hempty. simpl.
  unfold doInitialize.
  destruct (enumDevices w) as [devices w1]. simpl in *.
  destruct devices as [|dev devices]; [contradiction|].
  cbv [is_empty].
  rewrite (fold_initDevice_none _ _ Hnone).
  assert (Hlev : fold_left recordLevel (map feature_level (dev :: devices))
                           (mkD3dInfo 0 0)
                 = mkD3dInfo (minLevel (map feature_level (dev :: devices)))
                             (maxLevel (map feature_level (dev :: devices)))).
  { apply fold_recordLevel_positive.
    - apply Forall_map. exact Hpos.
    - discriminate. }
  destruct (GetDC_DeviceCaps w1) as [[caps|] w2]; simpl;
    rewrite Hempty; simpl; repeat split; exact Hlev.
Qed.

(** ** Integer arithmetic *)

Lemma wrap_int_small (z : Z) : - 2 ^ 31 <= z < 2 ^ 31 -> wrap_int z = z.
Proof.
  intros H. unfold wrap_int. rewrite Z.mod_small by lia. lia.
Qed.

Lemma wrap_int_range (z : Z) : - 2 ^ 31 <= wrap_int z < 2 ^ 31.
Proof.
  unfold wrap_int.
  pose proof (Z.mod_pos_bound (z + 2 ^ 31) (2 ^ 32)). lia.
Qed.

Lemma wrap_int_add_l (a b : Z) : wrap_int (wrap_int a + b) = wrap_int (a + b).
Proof.
  unfold wrap_int.
  replace ((a + 2 ^ 31) mod 2 ^ 32 - 2 ^ 31 + b + 2 ^ 31)
    with ((a + 2 ^ 31) mod 2 ^ 32 + b) by lia.
  rewrite Z.add_mod_idemp_l by lia. f_equal. f_equal. lia.
Qed.

Lemma wrap_int_le (z : Z) : 0 <= z -> wrap_int z <= z.
Proof.
  intros H. destruct (Z_lt_le_dec z (2 ^ 31)).
  - rewrite wrap_int_small; lia.
  - pose proof (wrap_int_range z). lia.
Qed.

(** ** Screen counts *)

Lemma totalScreens_nonneg (ds : list Dup) :
  Forall (fun d => 0 <= dup_screenCount d) ds -> 0 <= totalScreens ds.
Proof.
  induction 1; simpl; lia.
Qed.

Lemma fold_screenCount (ds : list Dup) (a : Z) :
  fold_left (fun result d => int_add result (dup_screenCount d)) ds (wrap_int a)
  = wrap_int (a + totalScreens ds).
Proof.
  revert a. induction ds as [|d ds IH]; intros a; simpl.
  - f_equal. lia.
  - unfold int_add at 2. rewrite wrap_int_add_l, IH. f_equal. lia.
Qed.

Lemma screenCountUnlocked_total (c : Ctl) :
  screenCountUnlocked c = wrap_int (totalScreens (duplicators_ c)).
Proof.
  unfold screenCountUnlocked.
  change 0 with (wrap_int 0) at 1. rewrite fold_screenCount. reflexivity.
Qed.

Lemma screenCountUnlocked_exact (c : Ctl) :
  Forall (fun d => 0 <= dup_screenCount d) (duplicators_ c) ->
  totalScreens (duplicators_ c) < 2 ^ 31 ->
  screenCountUnlocked c = totalScreens (duplicators_ c).
Proof.
  intros Hnn Hlt. rewrite screenCountUnlocked_total.
  pose proof (totalScreens_nonneg _ Hnn). apply wrap_int_small. lia.
Qed.

(** ** Monitor ids beyond the last monitor *)

Lemma screenRectFrom_beyond (ds : list Dup) (id : Z) :
  Forall (fun d => 0 <= dup_screenCount d) ds ->
  totalScreens ds <= id < 2 ^ 31 ->
  screenRectFrom ds id = QRect_null.
Proof.
  intros H. revert id. induction H as [|d ds Hd Hds IH]; intros id Hid; simpl in *.
  - reflexivity.
  - pose proof (totalScreens_nonneg _ Hds).
    destruct (Z.geb_spec id (dup_screenCount d)); [|lia].
    apply IH. unfold int_sub. rewrite wrap_int_small; lia.
Qed.

Lemma duplicateOne_beyond (ds : list Dup) (cs : list SubCtx) (id : Z) (t : SharedFrame) :
  Forall (fun d => 0 <= dup_screenCount d) ds ->
  totalScreens ds <= id < 2 ^ 31 ->
  duplicateOne ds cs id t = (false, ds, cs, t).
Proof.
  intros H. revert cs id. induction H as [|d ds Hd Hds IH]; intros cs id Hid; simpl in *.
  - reflexivity.
  - destruct cs as [|s cs]; [reflexivity|].
    pose proof (totalScreens_nonneg _ Hds).
    destruct (Z.geb_spec id (dup_screenCount d)); [|lia].
    rewrite IH; [reflexivity|]. unfold int_sub. rewrite wrap_int_small; lia.
Qed.

Lemma size_QRect_null : size QRect_null = mkQSize 0 0.
Proof. reflexivity. Qed.

(** ** Calls that only change the adapters inside *)

Lemma sound_bind {A B : Type} (m : Outcome A) (k : A -> Outcome B)
      (P : A -> Prop) (Q : B -> Prop) :
  sound m P -> (forall a, P a -> sound (k a) Q) -> sound (bind m k) Q.
Proof.
  destruct m; simpl; auto.
Qed.

Lemma sound_returns {A : Type} (m : Outcome A) (P : A -> Prop) (a : A) :
  sound m P -> m = Returns a -> P a.
Proof.
  intros H ->. exact H.
Qed.

Lemma sound_cases {A : Type} (m : Outcome A) (P : A -> Prop) :
  sound m P -> m = OutOfFuel \/ exists a, m = Returns a /\ P a.
Proof.
  destruct m; simpl; intros H; [right; eauto | contradiction | left; reflexivity].
Qed.

Lemma same_rects_refl (d : Dup) : same_rects d d.
Proof. repeat split. Qed.

Lemma same_rects_trans (d1 d2 d3 : Dup) :
  same_rects d1 d2 -> same_rects d2 d3 -> same_rects d1 d3.
Proof.
  intros (A1 & B1 & C1) (A2 & B2 & C2).
  repeat split; try congruence; intros i; rewrite C2; apply C1.
Qed.

Lemma all_same_rects_refl (ds : list Dup) : Forall2 same_rects ds ds.
Proof.
  induction ds; constructor; auto using same_rects_refl.
Qed.

Lemma all_same_rects_trans (ds1 ds2 ds3 : list Dup) :
  Forall2 same_rects ds1 ds2 -> Forall2 same_rects ds2 ds3 ->
  Forall2 same_rects ds1 ds3.
Proof.
  intros H. revert ds3. induction H; intros ds3 H3; inversion H3; subst;
    constructor; eauto using same_rects_trans.
Qed.

Lemma all_same_rects_length (ds ds' : list Dup) :
  Forall2 same_rects ds ds' -> length ds' = length ds.
Proof.
  induction 1; simpl; congruence.
Qed.

Lemma all_same_rects_total (ds ds' : list Dup) :
  Forall2 same_rects ds ds' -> totalScreens ds' = totalScreens ds.
Proof.
  induction 1 as [|d d' ds ds' (_ & Hc & _) _ IH]; simpl; congruence.
Qed.

Lemma all_same_rects_nonneg (ds ds' : list Dup) :
  Forall2 same_rects ds ds' ->
  Forall (fun d => 0 <= dup_screenCount d) ds ->
  Forall (fun d => 0 <= dup_screenCount d) ds'.
Proof.
  induction 1 as [|d d' ds ds' (_ & Hc & _) _ IH]; intros H; inversion H; subst;
    constructor; auto. rewrite Hc. assumption.
Qed.

Lemma evolved_refl (c : Ctl) : evolved c c.
Proof.
  repeat split. apply all_same_rects_refl.
Qed.

Lemma evolved_trans (c1 c2 c3 : Ctl) :
  evolved c1 c2 -> evolved c2 c3 -> evolved c1 c3.
Proof.
  unfold evolved. intros H1 H2.
  destruct H1 as (A1 & B1 & C1 & D1 & E1 & F1 & G1 & K1).
  destruct H2 as (A2 & B2 & C2 & D2 & E2 & F2 & G2 & K2).
  repeat split; try congruence.
  eapply all_same_rects_trans; eassumption.
Qed.

Lemma evolved_set_duplicators (c : Ctl) (ds : list Dup) :
  Forall2 same_rects (duplicators_ c) ds -> evolved c (set_duplicators c ds).
Proof.
  intros H. repeat split. exact H.
Qed.

Lemma evolved_screenCount (c c' : Ctl) :
  evolved c c' -> screenCountUnlocked c' = screenCountUnlocked c.
Proof.
  intros H. rewrite !screenCountUnlocked_total.
  f_equal. apply all_same_rects_total. apply H.
Qed.

Hypothesis laws : AdapterLaws AD.

Lemma setupAll_sound (ds : list Dup) (cs : list SubCtx) :
  length cs = length ds ->
  sound (setupAll ds cs)
        (fun '(ds', cs') => Forall2 same_rects ds ds' /\ length cs' = length ds').
Proof.
  revert cs. induction ds as [|d ds IH]; intros [|s cs] Hlen;
    simpl in *; try discriminate.
  - split; [constructor | reflexivity].
  - pose proof (setup_same_rects d s) as Hd.
    destruct (dup_setup d s) as [d' s']. simpl in Hd.
    eapply sound_bind; [apply IH; congruence|].
    intros [ds' cs'] [Hds Hcs]. simpl. split.
    + constructor; assumption.
    + congruence.
Qed.

Lemma duplicateAll_sound (ds : list Dup) (cs : list SubCtx) (t : SharedFrame) :
  length cs = length ds ->
  sound (duplicateAll ds cs t)
        (fun '(_, ds', cs', _) => Forall2 same_rects ds ds' /\ length cs' = length ds').
Proof.
  revert cs t. induction ds as [|d ds IH]; intros [|s cs] t Hlen;
    simpl in *; try discriminate.
  - split; [constructor | reflexivity].
  - pose proof (duplicate_same_rects d s t) as Hd.
    destruct (dup_duplicate d s t) as [[[ok d'] s'] t']. simpl in Hd.
    destruct ok; simpl.
    + eapply sound_bind; [apply (IH cs t'); congruence|].
      intros [[[r ds'] cs'] t''] [Hds Hcs]. simpl. split.
      * constructor; assumption.
      * congruence.
    + split.
      * constructor; [assumption | apply all_same_rects_refl].
      * simpl. congruence.
Qed.

Lemma duplicateOne_sound (ds : list Dup) (cs : list SubCtx) (id : Z) (t : SharedFrame) :
  length cs = length ds ->
  let '(_, ds', cs', _) := duplicateOne ds cs id t in
  Forall2 same_rects ds ds' /\ length cs' = length ds'.
Proof.
  revert cs id. induction ds as [|d ds IH]; intros [|s cs] id Hlen;
    simpl in *; try discriminate.
  - split; [constructor | reflexivity].
  - destruct (id >=? dup_screenCount d).
    + specialize (IH cs (int_sub id (dup_screenCount d))).
      destruct (duplicateOne ds cs (int_sub id (dup_screenCount d)) t)
        as [[[r ds'] cs'] t'].
      destruct IH as [Hds Hcs]; [congruence|]. split.
      * constructor; [apply same_rects_refl | assumption].
      * simpl. congruence.
    + pose proof (duplicateMonitor_same_rects d s id t) as Hd.
      destruct (dup_duplicateMonitor d s id t) as [[[ok d'] s'] t']. simpl in Hd.
      destruct ok; (split; [constructor; [assumption | apply all_same_rects_refl]
                           | simpl; congruence]).
Qed.

Lemma setup_sound (c : Ctl) (ctx : Ctx) :
  sound (setup c ctx) (fun '(c1, ctx1) => evolved c c1 /\ aligned c1 ctx1).
Proof.
  unfold setup. destruct (contextExpired c ctx) eqn:E.
  - eapply sound_bind; [apply setupAll_sound; apply repeat_length|].
    intros [ds cs] [Hds Hcs]. simpl. split.
    + apply evolved_set_duplicators. exact Hds.
    + exact Hcs.
  - simpl. split; [apply evolved_refl|].
    apply contextExpired_false in E. apply E.
Qed.

Lemma doDuplicateAll_sound (c : Ctl) (ctx : Ctx) (t : SharedFrame) :
  aligned c ctx ->
  sound (doDuplicateAll c ctx t)
        (fun '(_, c', ctx', _) => evolved c c' /\ aligned c' ctx').
Proof.
  intros Ha. unfold doDuplicateAll.
  eapply sound_bind; [apply duplicateAll_sound; exact Ha|].
  intros [[[r ds] cs] t'] [Hds Hcs]. simpl. split.
  - apply evolved_set_duplicators. exact Hds.
  - exact Hcs.
Qed.

Lemma doDuplicateOne_sound (c : Ctl) (ctx : Ctx) (id : Z) (t : SharedFrame) :
  aligned c ctx ->
  let '(_, c', ctx', _) := doDuplicateOne c ctx id t in
  evolved c c' /\ aligned c' ctx'.
Proof.
  intros Ha. unfold doDuplicateOne.
  pose proof (duplicateOne_sound (duplicators_ c) (contexts ctx) id t Ha) as H.
  destruct (duplicateOne (duplicators_ c) (contexts ctx) id t) as [[[r ds] cs] t'].
  destruct H as [Hds Hcs]. split.
  - apply evolved_set_duplicators. exact Hds.
  - exact Hcs.
Qed.

Lemma warmUp_sound (fuel : nat) (start_ms last : Z) (c : Ctl) (w : World)
      (ctx : Ctx) (shared_frame : SharedFrame) :
  aligned c ctx ->
  sound (warmUp fuel start_ms last c w ctx shared_frame)
        (fun '(_, c', _, ctx', _) => evolved c c' /\ aligned c' ctx').
Proof.
  revert last c w ctx shared_frame.
  induction fuel as [|fuel IH]; intros last c w ctx shared_frame Ha; simpl.
  - destruct (numFramesCaptured c <? frames_to_skip); simpl; auto using evolved_refl.
  - destruct (numFramesCaptured c <? frames_to_skip); simpl; auto using evolved_refl.
    match goal with
    | |- context [Clock_now ?x] => destruct (Clock_now x) as [last' w2]
    end.
    eapply sound_bind; [apply doDuplicateAll_sound; exact Ha|].
    intros [[[ok c'] ctx'] shared'] [He Ha']. destruct ok; simpl; [|auto].
    destruct (Clock_now w2) as [now w3].
    destruct (int64_sub now start_ms >? timeout_ms); simpl; [auto|].
    specialize (IH last' c' w3 ctx' shared' Ha').
    destruct (warmUp fuel start_ms last' c' w3 ctx' shared')
      as [[[[[r c''] w''] ctx''] sf'']| |]; simpl in *; auto.
    destruct IH as [He' Ha'']. split; [|assumption].
    eapply evolved_trans; eassumption.
Qed.

Lemma ensureFrameCaptured_sound (fuel : nat) (c : Ctl) (w : World) (ctx : Ctx)
      (target : SharedFrame) :
  aligned c ctx ->
  sound (ensureFrameCaptured fuel c w ctx target)
        (fun '(_, c', _, ctx', _) => evolved c c' /\ aligned c' ctx').
Proof.
  intros Ha. unfold ensureFrameCaptured.
  destruct (numFramesCaptured c >=? frames_to_skip); simpl; auto using evolved_refl.
  destruct (Clock_now w) as [start_ms w1].
  match goal with |- context [if ?b then _ else _] => destruct b end.
  - apply warmUp_sound. exact Ha.
  - eapply sound_bind; [apply warmUp_sound; exact Ha|].
    intros [[[[r c'] w'] ctx'] sf']. simpl. auto.
Qed.

Lemma doDuplicateUnlocked_sound (fuel : nat) (c : Ctl) (w : World) (ctx : Ctx)
      (monitor_id : Z) (target : SharedFrame) :
  sound (doDuplicateUnlocked fuel c w ctx monitor_id target)
        (fun '(_, c', _, ctx', _) => evolved c c' /\ aligned c' ctx').
Proof.
  unfold doDuplicateUnlocked.
  eapply sound_bind; [apply setup_sound|].
  intros [c1 ctx1] [He1 Ha1].
  eapply sound_bind; [apply ensureFrameCaptured_sound; exact Ha1|].
  intros [[[[ok c2] w2] ctx2] target2] [He2 Ha2].
  assert (He : evolved c c2) by (eapply evolved_trans; eassumption).
  destruct ok; simpl; [|auto].
  destruct (monitor_id <? 0).
  - eapply sound_bind; [apply doDuplicateAll_sound; exact Ha2|].
    intros [[[r c3] ctx3] target3] [He3 Ha3]. simpl. split; [|assumption].
    eapply evolved_trans; eassumption.
  - pose proof (doDuplicateOne_sound c2 ctx2 monitor_id target2 Ha2) as H.
    destruct (doDuplicateOne c2 ctx2 monitor_id target2) as [[[r c3] ctx3] target3].
    destruct H as [He3 Ha3]. simpl. split; [|assumption].
    eapply evolved_trans; eassumption.
Qed.

(** ** A successful initialisation has adapters *)

Lemma doInitialize_true_nonempty (c : Ctl) (w : World) :
  fst (fst (doInitialize c w)) = true ->
  duplicators_ (snd (fst (doInitialize c w))) <> [].
Proof.
  unfold doInitialize. destruct (enumDevices w) as [devices w1].
  destruct (is_empty devices); simpl; [discriminate|].
  destruct (GetDC_DeviceCaps w1) as [hdc w2]. simpl.
  intros Hb Hd. rewrite Hd in Hb. discriminate Hb.
Qed.

Lemma initialize_true_nonempty (c : Ctl) (w : World) :
  fst (fst (initialize c w)) = true ->
  duplicators_ (snd (fst (initialize c w))) <> [].
Proof.
  unfold initialize. destruct (duplicators_ c) eqn:E; simpl.
  - pose proof (doInitialize_true_nonempty c w) as H.
    destruct (doInitialize c w) as [[[] c1] w1]; simpl in *; [auto | discriminate].
  - intros _. rewrite E. discriminate.
Qed.

Lemma enterDuplicate_true_nonempty (c : Ctl) (w : World) :
  fst (fst (enterDuplicate c w)) = true ->
  duplicators_ (snd (fst (enterDuplicate c w))) <> [].
Proof.
  unfold enterDuplicate. destruct (checkDisplayChange c w) as [c1 w0].
  apply initialize_true_nonempty.
Qed.

(** ** An out-of-range monitor id *)

Lemma doDuplicateUnlocked_beyond (fuel : nat) (c : Ctl) (w : World) (ctx : Ctx)
      (id : Z) (target : SharedFrame) :
  Forall (fun d => 0 <= dup_screenCount d) (duplicators_ c) ->
  totalScreens (duplicators_ c) <= id < 2 ^ 31 ->
  sound (doDuplicateUnlocked fuel c w ctx id target)
        (fun '(ok, c', _, _, _) => ok = false /\ evolved c c').
Proof.
  intros Hnn Hid. unfold doDuplicateUnlocked.
  eapply sound_bind; [apply setup_sound|].
  intros [c1 ctx1] [He1 Ha1].
  eapply sound_bind; [apply ensureFrameCaptured_sound; exact Ha1|].
  intros [[[[ok c2] w2] ctx2] target2] [He2 Ha2].
  assert (He : evolved c c2) by (eapply evolved_trans; eassumption).
  destruct ok; simpl; [|auto].
  pose proof (totalScreens_nonneg _ Hnn) as Hpos.
  destruct (Z.ltb_spec id 0); [lia|].
  assert (Hds : Forall2 same_rects (duplicators_ c) (duplicators_ c2)) by apply He.
  unfold doDuplicateOne. rewrite duplicateOne_beyond.
  - simpl. split; [reflexivity|].
    eapply evolved_trans; [exact He|].
    apply evolved_set_duplicators. apply all_same_rects_refl.
  - eapply all_same_rects_nonneg; eassumption.
  - rewrite (all_same_rects_total _ _ Hds). exact Hid.
Qed.

Lemma enterDuplicate_running (c : Ctl) (w : World) :
  duplicators_ c <> [] ->
  fst (fst (dcm_isChanged (display_configuration_monitor_ c) w)) = false ->
  snd (fst (enterDuplicate c w))
  = set_monitor c (snd (fst (dcm_isChanged (display_configuration_monitor_ c) w))).
Proof.
  intros Hne Hch. unfold enterDuplicate, checkDisplayChange.
  destruct (dcm_isChanged (display_configuration_monitor_ c) w) as [[changed mon] w0].
  simpl in *. subst changed. unfold initialize. simpl.
  destruct (duplicators_ c); [contradiction | reflexivity].
Qed.

(** Whenever a call whose initialisation and [prepare] succeed, with a
    monitor id at or beyond the screen count, returns at all, it returns
    [INVALID_MONITOR_ID] without having deinitialised. *)
Lemma invalid_monitor_id_at_return :
  forall (fuel : nat) (c : Ctl) (w : World) (f : Frm) (monitor_id : Z),
    fst (fst (enterDuplicate c w)) = true ->
    Forall (fun d => 0 <= dup_screenCount d)
           (duplicators_ (snd (fst (enterDuplicate c w)))) ->
    totalScreens (duplicators_ (snd (fst (enterDuplicate c w)))) < 2 ^ 31 ->
    screenCountUnlocked (snd (fst (enterDuplicate c w))) <= monitor_id < 2 ^ 31 ->
    fst (frame_prepare f (selectedDesktopSize (snd (fst (enterDuplicate c w)))
                                              monitor_id) monitor_id) = true ->
    doDuplicate frame_prepare fuel c w f monitor_id <> OutOfFuel ->
    exists c' w' f',
      doDuplicate frame_prepare fuel c w f monitor_id
      = Returns (INVALID_MONITOR_ID, c', w', f')
      /\ evolved (snd (fst (enterDuplicate c w))) c'
      /\ duplicators_ c' <> []
      /\ (duplicators_ c <> [] ->
          fst (fst (dcm_isChanged (display_configuration_monitor_ c) w)) = false ->
          identity_ c' = identity_ c
          /\ desktop_rect_ c' = desktop_rect_ c
          /\ Forall2 same_rects (duplicators_ c) (duplicators_ c')).
Proof.
  intros fuel c w f id Hinit Hnn Htot Hid Hprep Hfuel.
  pose proof (enterDuplicate_running c w) as Hrun.
  pose proof (enterDuplicate_true_nonempty c w Hinit) as Hne2.
  unfold doDuplicate in *.
  destruct (enterDuplicate c w) as [[ok c2] w1]. simpl in *. subst ok. simpl in *.
  destruct (frame_prepare f (selectedDesktopSize c2 id) id) as [prepared f1].
  simpl in *. subst prepared. simpl in *.
  assert (Hexact := screenCountUnlocked_exact c2 Hnn Htot).
  pose proof (doDuplicateUnlocked_beyond fuel c2 w1 (context f1) id
                (sf_clearUpdatedRegion (frame f1)) Hnn) as Hs.
  destruct (doDuplicateUnlocked fuel c2 w1 (context f1) id
                                (sf_clearUpdatedRegion (frame f1)))
    as [[[[[ok c3] w2] ctx] target]| |]; simpl in *.
  - destruct Hs as [-> He]; [lia|].
    rewrite (evolved_screenCount _ _ He).
    destruct (Z.geb_spec id (screenCountUnlocked c2)); [|lia].
    exists c3, w2, (mkDxgiFrame ctx target).
    split; [reflexivity|]. split; [exact He|]. split.
    + intros Hd. destruct He as (_ & _ & _ & _ & _ & _ & _ & Hds).
      rewrite Hd in Hds. inversion Hds. congruence.
    + intros Hne Hch. specialize (Hrun Hne Hch). subst c2.
      destruct He as (_ & Hi & Hr & _ & _ & _ & _ & Hds). auto.
  - exfalso. apply Hs. lia.
  - congruence.
Qed.

(** C10.  With the controller as initialisation left it and a monitor id at
    or beyond the screen count, [screenRect] returns the empty [QRect()] and
    [selectedDesktopSize] the size (0, 0); so the frame is asked to prepare a
    buffer of size (0, 0) before the id is looked at: if that [prepare] fails
    the call returns [FRAME_PREPARE_FAILED], and a call that returns
    [INVALID_MONITOR_ID] is one whose zero-sized [prepare] succeeded. *)
Theorem C10_out_of_range_id_prepares_zero_size :
  forall (fuel : nat) (c : Ctl) (w : World) (f : Frm) (monitor_id : Z),
    fst (fst (enterDuplicate c w)) = true ->
    Forall (fun d => 0 <= dup_screenCount d)
           (duplicators_ (snd (fst (enterDuplicate c w)))) ->
    totalScreens (duplicators_ (snd (fst (enterDuplicate c w)))) < 2 ^ 31 ->
    screenCountUnlocked (snd (fst (enterDuplicate c w))) <= monitor_id < 2 ^ 31 ->
    screenRect (snd (fst (enterDuplicate c w))) monitor_id = QRect_null
    /\ isEmpty (screenRect (snd (fst (enterDuplicate c w))) monitor_id) = true
    /\ selectedDesktopSize (snd (fst (enterDuplicate c w))) monitor_id = mkQSize 0 0
    /\ (fst (frame_prepare f (mkQSize 0 0) monitor_id) = false ->
        doDuplicate frame_prepare fuel c w f monitor_id
        = Returns (FRAME_PREPARE_FAILED, snd (fst (enterDuplicate c w)),
                   snd (enterDuplicate c w),
                   snd (frame_prepare f (mkQSize 0 0) monitor_id)))
    /\ (forall c' w' f',
          doDuplicate frame_prepare fuel c w f monitor_id
          = Returns (INVALID_MONITOR_ID, c', w', f') ->
          fst (frame_prepare f (mkQSize 0 0) monitor_id) = true).
Proof.
  intros fuel c w f id Hinit Hnn Htot Hid.
  assert (Hrect : screenRect (snd (fst (enterDuplicate c w))) id = QRect_null).
  { unfold screenRect. apply screenRectFrom_beyond; [exact Hnn|].
    rewrite <- (screenCountUnlocked_exact _ Hnn Htot). exact Hid. }
  assert (Hsize : selectedDesktopSize (snd (fst (enterDuplicate c w))) id
                  = mkQSize 0 0).
  { unfold selectedDesktopSize. rewrite Hrect.
    pose proof (totalScreens_nonneg _ Hnn).
    rewrite (screenCountUnlocked_exact _ Hnn Htot) in Hid.
    destruct (Z.ltb_spec id 0); [lia | reflexivity]. }
  split; [exact Hrect|]. split; [rewrite Hrect; reflexivity|].
  split; [exact Hsize|]. split.
  - intros Hp. unfold doDuplicate.
    destruct (enterDuplicate c w) as [[ok c2] w1]. simpl in *. subst ok. simpl.
    rewrite Hsize.
    destruct (frame_prepare f (mkQSize 0 0) id) as [prepared f1]. simpl in *.
    subst prepared. reflexivity.
  - intros c' w' f' H. apply doDuplicate_inv in H. simpl in H.
    rewrite Hsize in H.
    destruct H as [(_ & [E|E] & _) | [(_ & _ & E & _) | (_ & Hp & _)]];
      try discriminate E.
    exact Hp.
Qed.

(** ** Resolving a monitor id *)

Lemma duplicateOne_resolve (ds : list Dup) (cs : list SubCtx) (m : Z) (t : SharedFrame) :
  Forall (fun d => 0 <= dup_screenCount d) ds ->
  length cs = length ds ->
  0 <= m < 2 ^ 31 ->
  m < totalScreens ds ->
  exists i r d s,
    resolveMonitor ds m = Some (i, r)
    /\ nth_error ds i = Some d
    /\ nth_error cs i = Some s
    /\ r = m - totalScreens (firstn i ds)
    /\ 0 <= r < dup_screenCount d
    /\ screenRectFrom ds m = dup_screenRect d r
    /\ duplicateOne ds cs m t
       = (let '(ok, d', s', t') := dup_duplicateMonitor d s r t in
          (ok, replace_nth i d' ds, replace_nth i s' cs,
           if ok then sf_setTopLeft t' (topLeft (dup_screenRect d' r)) else t')).
Proof.
  intros H. revert cs m.
  induction H as [|d ds Hd Hds IH]; intros [|s cs] m Hlen Hm Hlt;
    simpl in *; try discriminate; try lia.
  destruct (Z.geb_spec m (dup_screenCount d)) as [Hge|Hlt'].
  - destruct (Z.ltb_spec m (dup_screenCount d)); [lia|].
    assert (Hsub : int_sub m (dup_screenCount d) = m - dup_screenCount d)
      by (unfold int_sub; apply wrap_int_small; lia).
    rewrite Hsub.
    destruct (IH cs (m - dup_screenCount d)) as (i & r & d0 & s0 & Hres & Hnd & Hns & Hr & Hrange & Hrect & Hdup);
      [congruence | lia | lia |].
    exists (S i), r, d0, s0. rewrite Hres, Hdup, Hrect. simpl.
    repeat split; try assumption; try lia.
    destruct (dup_duplicateMonitor d0 s0 r t) as [[[ok d'] s'] t']. reflexivity.
  - destruct (Z.ltb_spec m (dup_screenCount d)); [|lia].
    exists O, m, d, s. simpl. repeat split; try lia.
    destruct (dup_duplicateMonitor d s m t) as [[[ok d'] s'] t'].
    destruct ok; reflexivity.
Qed.

(** C7.  For a monitor id [0 <= m < screenCountUnlocked()] and a context
    with one sub-context per adapter (as [setup] leaves it), [doDuplicateOne]
    lands on the adapter [i] and the remainder [r] that the specification's
    walk-and-subtract resolution gives ([r] is [m] less the screen counts of
    the adapters before [i], and lies within adapter [i]); it calls that
    adapter's [duplicateMonitor] on the [i]-th sub-context with [r], and it
    returns that call's result, having set, on success, the frame's top-left
    to the top-left of the adapter's rectangle for monitor [r].  That
    rectangle is the controller's [screenRect(m)]. *)
Theorem C7_single_monitor_resolution :
  forall (c : Ctl) (ctx : Ctx) (m : Z) (target : SharedFrame),
    Forall (fun d => 0 <= dup_screenCount d) (duplicators_ c) ->
    aligned c ctx ->
    0 <= m < screenCountUnlocked c ->
    exists i r d s,
      resolveMonitor (duplicators_ c) m = Some (i, r)
      /\ nth_error (duplicators_ c) i = Some d
      /\ nth_error (contexts ctx) i = Some s
      /\ r = m - totalScreens (firstn i (duplicators_ c))
      /\ 0 <= r < dup_screenCount d
      /\ screenRect c m = dup_screenRect d r
      /\ doDuplicateOne c ctx m target
         = (let '(ok, d', s', t') := dup_duplicateMonitor d s r target in
            (ok,
             set_duplicators c (replace_nth i d' (duplicators_ c)),
             mkContext (controller_id ctx) (replace_nth i s' (contexts ctx)),
             if ok then sf_setTopLeft t' (topLeft (dup_screenRect d' r)) else t')).
Proof.
  intros c ctx m target Hnn Ha Hm.
  pose proof (totalScreens_nonneg _ Hnn) as Hpos.
  assert (Hlt : m < totalScreens (duplicators_ c)).
  { rewrite screenCountUnlocked_total in Hm.
    pose proof (wrap_int_le _ Hpos). lia. }
  assert (Hint : 0 <= m < 2 ^ 31).
  { rewrite screenCountUnlocked_total in Hm.
    pose proof (wrap_int_range (totalScreens (duplicators_ c))). lia. }
  destruct (duplicateOne_resolve (duplicators_ c) (contexts ctx) m target
                                 Hnn Ha Hint Hlt)
    as (i & r & d & s & Hres & Hnd & Hns & Hr & Hrange & Hrect & Hdup).
  exists i, r, d, s. repeat split; try assumption; try lia.
  unfold doDuplicateOne. rewrite Hdup.
  destruct (dup_duplicateMonitor d s r target) as [[[ok d'] s'] t']. reflexivity.
Qed.

(** ** Warm-up *)

Lemma fold_min_le (ds : list Dup) (a : Z) :
  fold_left (fun min d => Z.min min (dup_numFramesCaptured d)) ds a <= a
  /\ Forall (fun d => fold_left (fun min d => Z.min min (dup_numFramesCaptured d)) ds a
                      <= dup_numFramesCaptured d) ds
  /\ (fold_left (fun min d => Z.min min (dup_numFramesCaptured d)) ds a = a
      \/ Exists (fun d => fold_left (fun min d => Z.min min (dup_numFramesCaptured d)) ds a
                          = dup_numFramesCaptured d) ds).
Proof.
  revert a. induction ds as [|d ds IH]; intros a; simpl.
  - split; [lia|]. split; [constructor | left; reflexivity].
  - destruct (IH (Z.min a (dup_numFramesCaptured d))) as (Hle & Hall & Hex).
    split; [lia|]. split.
    + constructor; [lia | exact Hall].
    + destruct Hex as [Heq|Hex].
      * destruct (Z.min_spec a (dup_numFramesCaptured d)) as [[_ E]|[_ E]];
          [left | right; left]; rewrite Heq; exact E.
      * right. right. exact Hex.
Qed.

Lemma warmUp_times (fuel : nat) (start_ms last : Z) (c : Ctl) (w : World)
      (ctx : Ctx) (sf : SharedFrame)
      (r : bool) (c' : Ctl) (w' : World) (ctx' : Ctx) (sf' : SharedFrame) :
  warmUp fuel start_ms last c w ctx sf = Returns (r, c', w', ctx', sf') ->
  exists n r',
    (n <= fuel)%nat
    /\ (numFramesCaptured c < frames_to_skip -> (1 <= n)%nat)
    /\ duplicateAllTimes n c ctx sf = Returns (r', c', ctx', sf')
    /\ (r = true -> r' = true /\ frames_to_skip <= numFramesCaptured c').
Proof.
  revert last c w ctx sf.
  induction fuel as [|fuel IH]; intros last c w ctx sf; simpl.
  - destruct (Z.ltb_spec (numFramesCaptured c) frames_to_skip) as [|Hwarm];
      [discriminate|].
    intros H. inversion H; subst. exists O, true. simpl.
    repeat split; try lia.
  - destruct (Z.ltb_spec (numFramesCaptured c) frames_to_skip) as [Hcold|Hwarm].
    + match goal with
      | |- context [Clock_now ?x] => destruct (Clock_now x) as [last' w2]
      end.
      destruct (doDuplicateAll c ctx sf) as [[[[ok c1] ctx1] sf1]| |] eqn:Hall;
        simpl; try discriminate.
      destruct ok; simpl.
      * destruct (Clock_now w2) as [now w3].
        destruct (int64_sub now start_ms >? timeout_ms).
        -- intros H. inversion H; subst. exists 1%nat, true. simpl.
           rewrite Hall. simpl. repeat split; try lia; discriminate.
        -- intros H. apply IH in H.
           destruct H as (n & r' & Hn & _ & Htimes & Hr).
           exists (S n), r'. simpl. rewrite Hall. simpl.
           repeat split; try lia; try assumption; apply Hr; assumption.
      * intros H. inversion H; subst. exists 1%nat, false. simpl.
        rewrite Hall. simpl. repeat split; try lia; discriminate.
    + intros H. inversion H; subst. exists O, true. simpl.
      repeat split; try lia.
Qed.

(** C6.  [numFramesCaptured()] is the minimum of [INT64_MAX] and the
    adapters' frame counts: a lower bound of all of them that is one of
    them.  [frames_to_skip] is 1.  When that minimum is at least 1,
    [ensureFrameCaptured] returns true at once and changes nothing.  When it
    is below 1 the warm-up runs, and what it does to the controller, the
    context and the frame it captures into (the target if it is large enough,
    else a fallback frame of the desktop size) is [n >= 1] calls of
    [doDuplicateAll] in a row; no monitor id enters into it, and in
    [doDuplicateUnlocked] a failed warm-up has the same outcome for every
    monitor id. *)
Theorem C6_warm_up_uses_minimum_and_full_desktop :
  forall (c : Ctl),
    (numFramesCaptured c <= INT64_MAX
     /\ Forall (fun d => numFramesCaptured c <= dup_numFramesCaptured d) (duplicators_ c)
     /\ (numFramesCaptured c = INT64_MAX
         \/ Exists (fun d => numFramesCaptured c = dup_numFramesCaptured d)
                   (duplicators_ c)))
    /\ frames_to_skip = 1
    /\ (forall fuel w ctx target,
          1 <= numFramesCaptured c ->
          ensureFrameCaptured fuel c w ctx target = Returns (true, c, w, ctx, target))
    /\ (forall fuel w ctx target r c' w' ctx' target',
          numFramesCaptured c < 1 ->
          ensureFrameCaptured fuel c w ctx target = Returns (r, c', w', ctx', target') ->
          let fits := (wd (sf_size target) >=? wd (desktopSize c))
                      && (ht (sf_size target) >=? ht (desktopSize c)) in
          let shared_frame :=
            if fits then target else FrameSimple_create (desktopSize c) in
          exists n r' shared',
            (1 <= n <= fuel)%nat
            /\ duplicateAllTimes n c ctx shared_frame = Returns (r', c', ctx', shared')
            /\ target' = (if fits then shared' else target)
            /\ (r = true -> r' = true /\ 1 <= numFramesCaptured c'))
    /\ (forall fuel w ctx target c1 ctx1 c2 w2 ctx2 target2 monitor_id,
          setup c ctx = Returns (c1, ctx1) ->
          ensureFrameCaptured fuel c1 w ctx1 target
          = Returns (false, c2, w2, ctx2, target2) ->
          doDuplicateUnlocked fuel c w ctx monitor_id target
          = Returns (false, c2, w2, ctx2, target2)).
Proof.
  intros c. split; [apply fold_min_le|]. split; [reflexivity|]. split; [|split].
  - intros fuel w ctx target Hwarm. unfold ensureFrameCaptured.
    destruct (Z.geb_spec (numFramesCaptured c) frames_to_skip) as [_|Hlt];
      [reflexivity | unfold frames_to_skip in Hlt; lia].
  - intros fuel w ctx target r c' w' ctx' target' Hcold Hens fits shared_frame.
    subst fits shared_frame. revert Hens. unfold ensureFrameCaptured.
    destruct (Z.geb_spec (numFramesCaptured c) frames_to_skip) as [Hge|_];
      [unfold frames_to_skip in Hge; lia|].
    destruct (Clock_now w) as [start_ms w1].
    destruct ((wd (sf_size target) >=? wd (desktopSize c))
              && (ht (sf_size target) >=? ht (desktopSize c))).
    + intros H. apply warmUp_times in H.
      destruct H as (n & r' & Hn & Hone & Htimes & Hr).
      exists n, r', target'. unfold frames_to_skip in *.
      repeat split; try lia; try assumption; apply Hr; assumption.
    + destruct (warmUp fuel start_ms 0 c w1 ctx (FrameSimple_create (desktopSize c)))
        as [[[[[r0 c0] w0] ctx0] sf0]| |] eqn:Hw; simpl; try discriminate.
      intros H. inversion H; subst. apply warmUp_times in Hw.
      destruct Hw as (n & r' & Hn & Hone & Htimes & Hr).
      exists n, r', sf0. unfold frames_to_skip in *.
      repeat split; try lia; try assumption; apply Hr; assumption.
  - intros fuel w ctx target c1 ctx1 c2 w2 ctx2 target2 monitor_id Hsetup Hwarm.
    unfold doDuplicateUnlocked. rewrite Hsetup. simpl. rewrite Hwarm. reflexivity.
Qed.

(** ** Rectangles far from the limits of [int] *)

Lemma int_add_exact (a b : Z) : - 2 ^ 31 <= a + b < 2 ^ 31 -> int_add a b = a + b.
Proof. apply wrap_int_small. Qed.

Lemma int_sub_exact (a b : Z) : - 2 ^ 31 <= a - b < 2 ^ 31 -> int_sub a b = a - b.
Proof. apply wrap_int_small. Qed.

Lemma translate_exact (r : QRect) (p : QPoint) :
  medium_rect r -> small_offset p ->
  translate r p
  = mkQRect (x1 r + xp p) (y1 r + yp p) (x2 r + xp p) (y2 r + yp p).
Proof.
  intros [[? ?] [? ?]] [? ?]. unfold translate.
  rewrite !int_add_exact by lia. reflexivity.
Qed.

Lemma width_exact (r : QRect) : medium_rect r -> width r = x2 r - x1 r + 1.
Proof.
  intros [[? ?] [? ?]]. unfold width.
  rewrite (int_sub_exact (x2 r) (x1 r)) by lia. apply int_add_exact. lia.
Qed.

Lemma height_exact (r : QRect) : medium_rect r -> height r = y2 r - y1 r + 1.
Proof.
  intros [[? ?] [? ?]]. unfold height.
  rewrite (int_sub_exact (y2 r) (y1 r)) by lia. apply int_add_exact. lia.
Qed.

Lemma isNull_exact (r : QRect) :
  medium_rect r -> isNull r = (x2 r =? x1 r - 1) && (y2 r =? y1 r - 1).
Proof.
  intros [[? ?] [? ?]]. unfold isNull.
  rewrite !int_sub_exact by lia. reflexivity.
Qed.

Lemma small_medium (r : QRect) : small_rect r -> medium_rect r.
Proof. unfold small_rect, medium_rect. lia. Qed.

Lemma translate_medium (r : QRect) (p : QPoint) :
  small_rect r -> small_offset p -> medium_rect (translate r p).
Proof.
  intros Hr Hp. rewrite translate_exact by auto using small_medium.
  unfold small_rect, small_offset, medium_rect in *. simpl. lia.
Qed.

Lemma united_small (a b : QRect) :
  small_rect a -> small_rect b -> small_rect (united a b).
Proof.
  intros Ha Hb. unfold united.
  destruct (isNull a); [exact Hb|]. destruct (isNull b); [exact Ha|].
  unfold small_rect in *. simpl.
  destruct (width a <? 0), (width b <? 0), (height a <? 0), (height b <? 0); lia.
Qed.

Lemma united_translate (a b : QRect) (p : QPoint) :
  small_rect a -> small_rect b -> small_offset p ->
  united (translate a p) (translate b p) = translate (united a b) p.
Proof.
  intros Ha Hb Hp.
  pose proof (united_small a b Ha Hb) as Hu.
  rewrite (translate_exact (united a b)) by auto using small_medium.
  unfold united.
  rewrite (isNull_exact (translate a p)), (isNull_exact (translate b p)),
    (width_exact (translate a p)), (width_exact (translate b p)),
    (height_exact (translate a p)), (height_exact (translate b p))
    by auto using translate_medium.
  rewrite (isNull_exact a), (isNull_exact b), (width_exact a), (width_exact b),
    (height_exact a), (height_exact b) by auto using small_medium.
  rewrite !translate_exact by auto using small_medium.
  destruct a as [ax1 ay1 ax2 ay2], b as [bx1 by1 bx2 by2], p as [px py]. simpl.
  replace (ax2 + px =? ax1 + px - 1) with (ax2 =? ax1 - 1)
    by (destruct (Z.eqb_spec ax2 (ax1 - 1)), (Z.eqb_spec (ax2 + px) (ax1 + px - 1)); lia).
  replace (ay2 + py =? ay1 + py - 1) with (ay2 =? ay1 - 1)
    by (destruct (Z.eqb_spec ay2 (ay1 - 1)), (Z.eqb_spec (ay2 + py) (ay1 + py - 1)); lia).
  replace (bx2 + px =? bx1 + px - 1) with (bx2 =? bx1 - 1)
    by (destruct (Z.eqb_spec bx2 (bx1 - 1)), (Z.eqb_spec (bx2 + px) (bx1 + px - 1)); lia).
  replace (by2 + py =? by1 + py - 1) with (by2 =? by1 - 1)
    by (destruct (Z.eqb_spec by2 (by1 - 1)), (Z.eqb_spec (by2 + py) (by1 + py - 1)); lia).
  replace (ax2 + px - (ax1 + px) + 1) with (ax2 - ax1 + 1) by lia.
  replace (ay2 + py - (ay1 + py) + 1) with (ay2 - ay1 + 1) by lia.
  replace (bx2 + px - (bx1 + px) + 1) with (bx2 - bx1 + 1) by lia.
  replace (by2 + py - (by1 + py) + 1) with (by2 - by1 + 1) by lia.
  destruct ((ax2 =? ax1 - 1) && (ay2 =? ay1 - 1)); [reflexivity|].
  destruct ((bx2 =? bx1 - 1) && (by2 =? by1 - 1)); [reflexivity|].
  simpl.
  destruct (ax2 - ax1 + 1 <? 0), (bx2 - bx1 + 1 <? 0),
    (ay2 - ay1 + 1 <? 0), (by2 - by1 + 1 <? 0); f_equal; lia.
Qed.

Lemma fold_united_small (rs : list QRect) (r0 : QRect) :
  Forall small_rect rs -> small_rect r0 -> small_rect (fold_left united rs r0).
Proof.
  intros H. revert r0.
  induction H as [|r rs Hr _ IH]; intros r0 Hr0; simpl; auto using united_small.
Qed.

Lemma fold_united_translate (rs : list QRect) (r0 : QRect) (p : QPoint) :
  Forall small_rect rs -> small_rect r0 -> small_offset p ->
  fold_left united (map (fun r => translate r p) rs) (translate r0 p)
  = translate (fold_left united rs r0) p.
Proof.
  intros H. revert r0. induction H as [|r rs Hr _ IH]; intros r0 Hr0 Hp; simpl.
  - reflexivity.
  - rewrite united_translate by assumption.
    apply IH; auto using united_small.
Qed.

Lemma origin_offset_small (u : QRect) : small_rect u -> small_offset (origin_offset u).
Proof.
  intros [[? ?] _]. unfold origin_offset, QPoint_sub, small_offset. simpl.
  rewrite !int_sub_exact by lia. lia.
Qed.

Lemma unionRects_translate (rs : list QRect) :
  Forall small_rect rs ->
  unionRects (map (fun r => translate r (origin_offset (unionRects rs))) rs)
  = translate (unionRects rs) (origin_offset (unionRects rs)).
Proof.
  intros H. destruct H as [|r rs Hr Hrs]; [reflexivity|].
  assert (Hu : small_rect (unionRects (r :: rs))).
  { apply fold_united_small; [constructor; assumption|].
    unfold small_rect. simpl. lia. }
  set (p := origin_offset (unionRects (r :: rs))).
  assert (Hp : small_offset p) by (apply origin_offset_small; exact Hu).
  unfold unionRects. simpl.
  change (united QRect_null (translate r p)) with (translate r p).
  change (united QRect_null r) with r.
  apply fold_united_translate; assumption.
Qed.

Lemma all_translated_rects (p : QPoint) (os ds : list Dup) :
  Forall2 (translated p) os ds ->
  map dup_desktopRect ds = map (fun r => translate r p) (map dup_desktopRect os).
Proof.
  induction 1 as [|o d os ds (Hr & _) _ IH]; simpl; congruence.
Qed.

Lemma desktop_rect_is_union (rect : QRect) (os ds : list Dup) :
  rect = translate (unionRects (map dup_desktopRect os))
                   (origin_offset (unionRects (map dup_desktopRect os))) ->
  Forall2 (translated (origin_offset (unionRects (map dup_desktopRect os)))) os ds ->
  Forall small_rect (map dup_desktopRect os) ->
  rect = unionRects (map dup_desktopRect ds).
Proof.
  intros Hrect Hall Hsmall.
  rewrite (all_translated_rects _ _ _ Hall), unionRects_translate by assumption.
  exact Hrect.
Qed.

(** ** The desktop rectangle *)

Lemma topLeft_translate_origin (u : QRect) :
  topLeft (translate u (origin_offset u)) = mkQPoint 0 0.
Proof.
  unfold topLeft, translate, origin_offset, QPoint_sub. simpl.
  rewrite !wrap_int_cancel. reflexivity.
Qed.

Lemma fold_initDevice_adapters (devices : list Device) (c : Ctl) :
  duplicators_ (fold_left initDevice devices c)
  = duplicators_ c ++ initialised devices
  /\ desktop_rect_ (fold_left initDevice devices c)
     = fold_left united (map dup_desktopRect (initialised devices)) (desktop_rect_ c).
Proof.
  revert c. induction devices as [|dev devices IH]; intros c; simpl.
  - rewrite app_nil_r. split; reflexivity.
  - destruct (IH (initDevice c dev)) as [Hd Hr]. rewrite Hd, Hr.
    unfold initDevice.
    destruct (dup_initialize (dup_new dev)) as [[] d]; simpl.
    + rewrite <- app_assoc. split; reflexivity.
    + split; reflexivity.
Qed.

Lemma doInitialize_adapters (c : Ctl) (w : World) :
  duplicators_ c = [] ->
  desktop_rect_ c = QRect_null ->
  fst (fst (doInitialize c w)) = true ->
  let origs := initialised (fst (enumDevices w)) in
  let u := unionRects (map dup_desktopRect origs) in
  desktop_rect_ (snd (fst (doInitialize c w))) = translate u (origin_offset u)
  /\ duplicators_ (snd (fst (doInitialize c w)))
     = map (fun d => dup_translateRect d (origin_offset u)) origs.
Proof.
  intros Hd Hr. unfold doInitialize.
  destruct (enumDevices w) as [devices w1]. simpl.
  destruct (is_empty devices); simpl; [discriminate|].
  destruct (fold_initDevice_adapters devices (set_d3d_info c (mkD3dInfo 0 0)))
    as [Hfd Hfr].
  simpl in Hfd, Hfr. rewrite Hd in Hfd. rewrite Hr in Hfr. simpl in Hfd.
  destruct (GetDC_DeviceCaps w1) as [[caps|] w2]; simpl; intros _;
    rewrite Hfd, Hfr; split; reflexivity.
Qed.

Lemma translated_same_rects (p : QPoint) (o d d' : Dup) :
  translated p o d -> same_rects d d' -> translated p o d'.
Proof.
  intros (A & B & C) (A' & B' & C'). repeat split; try congruence.
  intros i Hi. rewrite C'. apply C. exact Hi.
Qed.

Lemma all_translated_same_rects (p : QPoint) (os ds ds' : list Dup) :
  Forall2 (translated p) os ds -> Forall2 same_rects ds ds' ->
  Forall2 (translated p) os ds'.
Proof.
  intros H. revert ds'. induction H; intros ds' H'; inversion H'; subst;
    constructor; eauto using translated_same_rects.
Qed.

Lemma all_translated_map (p : QPoint) (os : list Dup) :
  Forall2 (translated p) os (map (fun d => dup_translateRect d p) os).
Proof.
  induction os; simpl; constructor; auto. apply translateRect_translated.
Qed.

Lemma invariant_new (m : Monitor) : controller_invariant (new_controller m).
Proof.
  split; [reflexivity|]. intros H. contradiction H. reflexivity.
Qed.

Lemma invariant_deinitialize (c : Ctl) : controller_invariant (deinitialize c).
Proof.
  split; [reflexivity|]. intros H. contradiction H. reflexivity.
Qed.

Lemma invariant_same_adapters (c c' : Ctl) :
  duplicators_ c' = duplicators_ c ->
  desktop_rect_ c' = desktop_rect_ c ->
  controller_invariant c -> controller_invariant c'.
Proof.
  intros Hd Hr [Hclean Hinv]. unfold controller_invariant, desktop_invariant.
  rewrite Hd, Hr. split; assumption.
Qed.

Lemma invariant_evolved (c c' : Ctl) :
  evolved c c' -> controller_invariant c -> controller_invariant c'.
Proof.
  intros (_ & _ & Hr & _ & _ & _ & _ & Hds) [Hclean Hinv]. split.
  - intros He. rewrite Hr. apply Hclean.
    rewrite He in Hds. inversion Hds. reflexivity.
  - intros Hne. destruct Hinv as (origs & Htl & Hrect & Hall & _).
    + intros He. rewrite He in Hds. inversion Hds. congruence.
    + assert (Hall' := all_translated_same_rects _ _ _ _ Hall Hds).
      exists origs. rewrite Hr. repeat split; try assumption.
      intros Hsmall. eapply desktop_rect_is_union; eassumption.
Qed.

Lemma invariant_initialize (c : Ctl) (w : World) :
  controller_invariant c -> controller_invariant (snd (fst (initialize c w))).
Proof.
  intros Hinv. unfold initialize.
  destruct (duplicators_ c) eqn:Hd; simpl; [|exact Hinv].
  pose proof (doInitialize_adapters c w Hd (proj1 Hinv Hd)) as Hinit.
  pose proof (doInitialize_true_nonempty c w) as Hne.
  destruct (doInitialize c w) as [[[] c1] w1]; simpl in *;
    [|apply invariant_deinitialize].
  destruct (Hinit eq_refl) as [Hr Hds]. specialize (Hne eq_refl). split.
  - intros He. contradiction.
  - intros _. exists (initialised (fst (enumDevices w))). simpl.
    rewrite Hr, Hds. repeat split.
    + apply topLeft_translate_origin.
    + apply all_translated_map.
    + intros Hsmall. eapply desktop_rect_is_union;
        [reflexivity | apply all_translated_map | exact Hsmall].
Qed.

Lemma invariant_checkDisplayChange (c : Ctl) (w : World) :
  controller_invariant c -> controller_invariant (fst (checkDisplayChange c w)).
Proof.
  intros Hinv. destruct (checkDisplayChange_cases c w) as [H|H]; simpl in H;
    rewrite H.
  - apply invariant_deinitialize.
  - eapply invariant_same_adapters; [| |exact Hinv]; reflexivity.
Qed.

Lemma invariant_enterDuplicate (c : Ctl) (w : World) :
  controller_invariant c -> controller_invariant (snd (fst (enterDuplicate c w))).
Proof.
  intros Hinv. unfold enterDuplicate.
  pose proof (invariant_checkDisplayChange c w Hinv) as H.
  destruct (checkDisplayChange c w) as [c1 w0]. simpl in H.
  apply invariant_initialize. exact H.
Qed.

Lemma invariant_doDuplicate (fuel : nat) (c : Ctl) (w : World) (f : Frm) (m : Z)
      (r : Result) (c' : Ctl) (w' : World) (f' : Frm) :
  doDuplicate frame_prepare fuel c w f m = Returns (r, c', w', f') ->
  controller_invariant c -> controller_invariant c'.
Proof.
  intros H Hinv. apply doDuplicate_inv in H. simpl in H.
  pose proof (invariant_enterDuplicate c w Hinv) as H2.
  destruct H as [(_ & _ & -> & _) | [(_ & _ & _ & -> & _) | (_ & _ & H)]];
    try exact H2.
  destruct H as (ok & c3 & ctx & target & Hun & _ & Hcases).
  match type of Hun with
  | doDuplicateUnlocked ?fu ?c2 ?w1 ?cx ?mm ?tg = _ =>
      pose proof (doDuplicateUnlocked_sound fu c2 w1 cx mm tg) as Hs
  end.
  rewrite Hun in Hs. destruct Hs as [He _].
  pose proof (invariant_evolved _ _ He H2) as H3.
  destruct Hcases as [(_ & _ & ->) | [(_ & _ & _ & ->) | (_ & _ & _ & ->)]].
  - eapply invariant_same_adapters; [| |exact H3]; reflexivity.
  - exact H3.
  - apply invariant_deinitialize.
Qed.

Lemma unregisterAll_same_rects (ds : list Dup) (cs : list SubCtx) (ds' : list Dup) :
  unregisterAll ds cs = Returns ds' -> Forall2 same_rects ds ds'.
Proof.
  revert cs ds'. induction ds as [|d ds IH]; intros cs ds'; simpl.
  - intros H. inversion H. constructor.
  - destruct cs as [|s cs]; [discriminate|].
    destruct (unregisterAll ds cs) as [rest| |] eqn:E; simpl; try discriminate.
    intros H. inversion H; subst. constructor.
    + apply unregister_same_rects.
    + eapply IH. exact E.
Qed.

Lemma invariant_unregister (c : Ctl) (ctx : Ctx) (c' : Ctl) :
  unregister c ctx = Returns c' ->
  controller_invariant c -> controller_invariant c'.
Proof.
  unfold unregister. destruct (contextExpired c ctx).
  - intros H. inversion H; subst. auto.
  - destruct (unregisterAll (duplicators_ c) (contexts ctx)) as [ds| |] eqn:E;
      simpl; try discriminate.
    intros H. inversion H; subst. apply invariant_evolved.
    apply evolved_set_duplicators. eapply unregisterAll_same_rects. exact E.
Qed.

Lemma invariant_step (c c' : Ctl) :
  step frame_prepare c c' -> controller_invariant c -> controller_invariant c'.
Proof.
  intros Hstep Hinv. destruct Hstep.
  - eapply invariant_same_adapters; [| |exact Hinv]; reflexivity.
  - destruct (release_cases c) as [H|H]; rewrite H.
    + apply invariant_deinitialize.
    + eapply invariant_same_adapters; [| |exact Hinv]; reflexivity.
  - apply invariant_deinitialize.
  - pose proof (invariant_initialize c w Hinv) as Hi.
    unfold isSupported in *. rewrite H in Hi. exact Hi.
  - pose proof (invariant_initialize c w Hinv) as Hi.
    unfold retrieveD3dInfo in *.
    destruct (initialize c w) as [[ok c1] w1]. inversion H; subst. exact Hi.
  - pose proof (invariant_initialize c w Hinv) as Hi.
    unfold dpi in *.
    destruct (initialize c w) as [[[] c1] w1]; inversion H; subst; exact Hi.
  - pose proof (invariant_initialize c w Hinv) as Hi.
    unfold screenCount in *.
    destruct (initialize c w) as [[[] c1] w1]; inversion H; subst; exact Hi.
  - pose proof (invariant_initialize c w Hinv) as Hi.
    unfold deviceNames in *.
    destruct (initialize c w) as [[[] c1] w1]; inversion H; subst; exact Hi.
  - eapply invariant_doDuplicate; eassumption.
  - eapply invariant_doDuplicate; eassumption.
  - eapply invariant_unregister; eassumption.
Qed.

Lemma invariant_reachable (c : Ctl) :
  reachable frame_prepare c -> controller_invariant c.
Proof.
  induction 1; [apply invariant_new | eapply invariant_step; eassumption].
Qed.

(** C5.  In every state the public operations can bring the controller to,
    while there are adapters, [desktop_rect_] has its top-left at (0, 0) and
    is the union [u] of the desktop rectangles the adapters had when they
    were initialised, moved by [(0, 0) - u.topLeft()], and every adapter
    reports its rectangles moved by that same offset; where those rectangles
    are far from the limits of [int], [desktop_rect_] is also the union of
    the rectangles the adapters report now.  An initialisation
    that succeeds sets this up from the adapters that initialise on the
    enumerated devices, calling [translateRect] with that offset on each. *)
Theorem C5_desktop_rect_is_translated_union :
  forall (c : Ctl),
    reachable frame_prepare c ->
    desktop_invariant c
    /\ (forall w : World,
          duplicators_ c = [] ->
          fst (fst (initialize c w)) = true ->
          let origs := initialised (fst (enumDevices w)) in
          let u := unionRects (map dup_desktopRect origs) in
          desktop_rect_ (snd (fst (initialize c w)))
          = translate u (origin_offset u)
          /\ topLeft (desktop_rect_ (snd (fst (initialize c w)))) = mkQPoint 0 0
          /\ duplicators_ (snd (fst (initialize c w)))
             = map (fun d => dup_translateRect d (origin_offset u)) origs).
Proof.
  intros c Hreach. apply invariant_reachable in Hreach.
  destruct Hreach as [Hclean Hinv]. split; [exact Hinv|].
  intros w Hd. unfold initialize. rewrite Hd. simpl.
  pose proof (doInitialize_adapters c w Hd (Hclean Hd)) as Hinit.
  destruct (doInitialize c w) as [[[] c1] w1]; simpl in *; [|discriminate].
  intros _. destruct (Hinit eq_refl) as [Hr Hds].
  rewrite Hr, Hds. repeat split. apply topLeft_translate_origin.
Qed.

(* ------------------------------------------------------------------ *)
(** ** Further properties of the operations *)

(** *** Sizes of the adapter and sub-context sequences *)

Lemma setupAll_lengths (ds : list Dup) (cs : list SubCtx) :
  length cs = length ds ->
  exists ds' cs',
    setupAll ds cs = Returns (ds', cs')
    /\ length ds' = length ds /\ length cs' = length ds.
Proof.
  revert cs. induction ds as [|d ds IH]; intros [|s cs] Hlen;
    simpl in *; try discriminate.
  - exists [], []. repeat split.
  - destruct (dup_setup d s) as [d' s'].
    destruct (IH cs) as (ds' & cs' & Heq & Hd & Hc); [congruence|].
    rewrite Heq. simpl. exists (d' :: ds'), (s' :: cs'). simpl.
    repeat split; congruence.
Qed.

Lemma duplicateAll_lengths (ds : list Dup) (cs : list SubCtx) (t : SharedFrame) :
  length cs = length ds ->
  exists r ds' cs' t',
    duplicateAll ds cs t = Returns (r, ds', cs', t')
    /\ length ds' = length ds /\ length cs' = length ds.
Proof.
  revert cs t. induction ds as [|d ds IH]; intros [|s cs] t Hlen;
    simpl in *; try discriminate.
  - exists true, [], [], t. repeat split.
  - destruct (dup_duplicate d s t) as [[[ok d'] s'] t'].
    destruct ok; simpl.
    + destruct (IH cs t') as (r & ds' & cs' & t'' & Heq & Hd & Hc); [congruence|].
      rewrite Heq. simpl. exists r, (d' :: ds'), (s' :: cs'), t''. simpl.
      repeat split; congruence.
    + exists false, (d' :: ds), (s' :: cs), t'. simpl. repeat split; congruence.
Qed.

Lemma duplicateOne_lengths (ds : list Dup) (cs : list SubCtx) (id : Z) (t : SharedFrame) :
  let '(_, ds', cs', _) := duplicateOne ds cs id t in
  length ds' = length ds /\ length cs' = length cs.
Proof.
  revert cs id. induction ds as [|d ds IH]; intros [|s cs] id; simpl;
    try (split; reflexivity).
  destruct (id >=? dup_screenCount d).
  - specialize (IH cs (int_sub id (dup_screenCount d))).
    destruct (duplicateOne ds cs (int_sub id (dup_screenCount d)) t)
      as [[[r ds'] cs'] t'].
    destruct IH as [Hd Hc]. simpl. split; congruence.
  - destruct (dup_duplicateMonitor d s id t) as [[[ok d'] s'] t'].
    destruct ok; simpl; split; reflexivity.
Qed.

Lemma same_members_refl (c : Ctl) : same_members c c.
Proof. repeat split. Qed.

Lemma same_members_trans (c1 c2 c3 : Ctl) :
  same_members c1 c2 -> same_members c2 c3 -> same_members c1 c3.
Proof.
  unfold same_members. intros H1 H2.
  destruct H1 as (A1 & B1 & C1 & D1 & E1 & F1 & G1 & K1).
  destruct H2 as (A2 & B2 & C2 & D2 & E2 & F2 & G2 & K2).
  repeat split; congruence.
Qed.

Lemma same_members_set_duplicators (c : Ctl) (ds : list Dup) :
  length ds = length (duplicators_ c) -> same_members c (set_duplicators c ds).
Proof.
  intros H. repeat split. exact H.
Qed.

Lemma same_members_current (c c' : Ctl) (ctx ctx' : Ctx) :
  same_members c c' ->
  controller_id ctx' = controller_id ctx ->
  length (contexts ctx') = length (contexts ctx) ->
  contextExpired c ctx = false -> contextExpired c' ctx' = false.
Proof.
  intros (_ & Hi & _ & _ & _ & _ & _ & Hl) Hid Hlen H.
  apply contextExpired_false in H. apply contextExpired_false.
  destruct H. split; congruence.
Qed.

Lemma setup_current (c : Ctl) (ctx : Ctx) :
  exists c1 ctx1,
    setup c ctx = Returns (c1, ctx1)
    /\ same_members c c1
    /\ contextExpired c1 ctx1 = false.
Proof.
  unfold setup. destruct (contextExpired c ctx) eqn:E.
  - destruct (setupAll_lengths (duplicators_ c)
                (repeat subctx_default (length (duplicators_ c))))
      as (ds & cs & Heq & Hd & Hc); [apply repeat_length|].
    rewrite Heq. simpl. exists (set_duplicators c ds), (mkContext (identity_ c) cs).
    split; [reflexivity|]. split.
    + apply same_members_set_duplicators. exact Hd.
    + apply contextExpired_false. simpl. split; congruence.
  - exists c, ctx. split; [reflexivity|]. split; [apply same_members_refl | exact E].
Qed.

Lemma doDuplicateAll_current (c : Ctl) (ctx : Ctx) (t : SharedFrame) :
  contextExpired c ctx = false ->
  exists r c' ctx' t',
    doDuplicateAll c ctx t = Returns (r, c', ctx', t')
    /\ same_members c c'
    /\ contextExpired c' ctx' = false.
Proof.
  intros H. pose proof H as H0. apply contextExpired_false in H0.
  destruct H0 as [Hid Hlen].
  unfold doDuplicateAll.
  destruct (duplicateAll_lengths (duplicators_ c) (contexts ctx) t Hlen)
    as (r & ds & cs & t' & Heq & Hd & Hc).
  rewrite Heq. simpl.
  exists r, (set_duplicators c ds), (mkContext (controller_id ctx) cs), t'.
  split; [reflexivity|]. split.
  - apply same_members_set_duplicators. exact Hd.
  - apply contextExpired_false. simpl. split; congruence.
Qed.

Lemma doDuplicateOne_current (c : Ctl) (ctx : Ctx) (id : Z) (t : SharedFrame) :
  contextExpired c ctx = false ->
  let '(_, c', ctx', _) := doDuplicateOne c ctx id t in
  same_members c c' /\ contextExpired c' ctx' = false.
Proof.
  intros H. apply contextExpired_false in H. destruct H as [Hid Hlen].
  unfold doDuplicateOne.
  pose proof (duplicateOne_lengths (duplicators_ c) (contexts ctx) id t) as Hl.
  destruct (duplicateOne (duplicators_ c) (contexts ctx) id t) as [[[r ds] cs] t'].
  destruct Hl as [Hd Hc]. split.
  - apply same_members_set_duplicators. exact Hd.
  - apply contextExpired_false. simpl. split; congruence.
Qed.

Lemma warmUp_current (fuel : nat) (start_ms last : Z) (c : Ctl) (w : World)
      (ctx : Ctx) (shared_frame : SharedFrame) :
  contextExpired c ctx = false ->
  sound (warmUp fuel start_ms last c w ctx shared_frame)
        (fun '(_, c', _, ctx', _) =>
           same_members c c' /\ contextExpired c' ctx' = false).
Proof.
  revert last c w ctx shared_frame.
  induction fuel as [|fuel IH]; intros last c w ctx shared_frame Hc; simpl.
  - destruct (numFramesCaptured c <? frames_to_skip); simpl;
      auto using same_members_refl.
  - destruct (numFramesCaptured c <? frames_to_skip); simpl;
      auto using same_members_refl.
    match goal with
    | |- context [Clock_now ?x] => destruct (Clock_now x) as [last' w2]
    end.
    destruct (doDuplicateAll_current c ctx shared_frame Hc)
      as (ok & c' & ctx' & shared' & Heq & Hm & Hc').
    rewrite Heq. simpl. destruct ok; simpl; [|auto].
    destruct (Clock_now w2) as [now w3].
    destruct (int64_sub now start_ms >? timeout_ms); simpl; [auto|].
    specialize (IH last' c' w3 ctx' shared' Hc').
    destruct (warmUp fuel start_ms last' c' w3 ctx' shared')
      as [[[[[r c''] w''] ctx''] sf'']| |]; simpl in *; auto.
    destruct IH as [Hm' Hc'']. split; [|assumption].
    eapply same_members_trans; eassumption.
Qed.

Lemma ensureFrameCaptured_current (fuel : nat) (c : Ctl) (w : World) (ctx : Ctx)
      (target : SharedFrame) :
  contextExpired c ctx = false ->
  sound (ensureFrameCaptured fuel c w ctx target)
        (fun '(_, c', _, ctx', _) =>
           same_members c c' /\ contextExpired c' ctx' = false).
Proof.
  intros Hc. unfold ensureFrameCaptured.
  destruct (numFramesCaptured c >=? frames_to_skip); simpl;
    auto using same_members_refl.
  destruct (Clock_now w) as [start_ms w1].
  match goal with |- context [if ?b then _ else _] => destruct b end.
  - apply warmUp_current. exact Hc.
  - eapply sound_bind; [apply warmUp_current; exact Hc|].
    intros [[[[r c'] w'] ctx'] sf']. simpl. auto.
Qed.

Lemma doDuplicateUnlocked_current (fuel : nat) (c : Ctl) (w : World) (ctx : Ctx)
      (monitor_id : Z) (target : SharedFrame) :
  sound (doDuplicateUnlocked fuel c w ctx monitor_id target)
        (fun '(_, c', _, ctx', _) =>
           same_members c c' /\ contextExpired c' ctx' = false).
Proof.
  unfold doDuplicateUnlocked.
  destruct (setup_current c ctx) as (c1 & ctx1 & Heq & Hm1 & Hc1).
  rewrite Heq. simpl.
  eapply sound_bind; [apply ensureFrameCaptured_current; exact Hc1|].
  intros [[[[ok c2] w2] ctx2] target2] [Hm2 Hc2].
  assert (Hm : same_members c c2) by (eapply same_members_trans; eassumption).
  destruct ok; simpl; [|auto].
  destruct (monitor_id <? 0).
  - destruct (doDuplicateAll_current c2 ctx2 target2 Hc2)
      as (r & c3 & ctx3 & t3 & Heq3 & Hm3 & Hc3).
    rewrite Heq3. simpl. split; [|assumption].
    eapply same_members_trans; eassumption.
  - pose proof (doDuplicateOne_current c2 ctx2 monitor_id target2 Hc2) as H.
    destruct (doDuplicateOne c2 ctx2 monitor_id target2) as [[[r c3] ctx3] target3].
    destruct H as [Hm3 Hc3]. simpl. split; [|assumption].
    eapply same_members_trans; eassumption.
Qed.

(** *** What initialisation changes *)

Lemma fold_initDevice_members (devices : list Device) (c : Ctl) :
  refcount_ (fold_left initDevice devices c) = refcount_ c
  /\ identity_ (fold_left initDevice devices c) = identity_ c
  /\ dpi_ (fold_left initDevice devices c) = dpi_ c
  /\ display_configuration_monitor_ (fold_left initDevice devices c)
     = display_configuration_monitor_ c
  /\ d3d_info_ (fold_left initDevice devices c)
     = fold_left recordLevel (map feature_level devices) (d3d_info_ c).
Proof.
  revert c. induction devices as [|dev devices IH]; intros c; simpl.
  - repeat split.
  - destruct (IH (initDevice c dev)) as (A & B & C & D & E).
    rewrite A, B, C, D, E. unfold initDevice.
    destruct (dup_initialize (dup_new dev)) as [[] d]; repeat split.
Qed.

(** The controller [doInitialize] leaves, member by member, when the
    enumeration is not empty. *)
Lemma doInitialize_members (c : Ctl) (w : World) :
  fst (enumDevices w) <> [] ->
  let c' := snd (fst (doInitialize c w)) in
  refcount_ c' = refcount_ c
  /\ identity_ c' = int_add (identity_ c) 1
  /\ dpi_ c' = match fst (GetDC_DeviceCaps (snd (enumDevices w))) with
               | Some caps => caps
               | None => dpi_ c
               end
  /\ display_configuration_monitor_ c' = display_configuration_monitor_ c
  /\ d3d_info_ c'
     = fold_left recordLevel (map feature_level (fst (enumDevices w)))
                 (mkD3dInfo 0 0).
Proof.
  intros Hne. unfold doInitialize.
  destruct (enumDevices w) as [devices w1]. simpl in *.
  destruct devices as [|dev devices]; [contradiction|]. cbv [is_empty].
  destruct (fold_initDevice_members (dev :: devices)
              (set_d3d_info c (mkD3dInfo 0 0))) as (A & B & C & D & E).
  destruct (GetDC_DeviceCaps w1) as [[caps|] w2]; simpl in *;
    rewrite ?A, ?B, ?C, ?D, ?E; repeat split.
Qed.

Lemma doInitialize_no_device (c : Ctl) (w : World) :
  fst (enumDevices w) = [] ->
  doInitialize c w = (false, set_d3d_info c (mkD3dInfo 0 0), snd (enumDevices w)).
Proof.
  intros He. unfold doInitialize.
  destruct (enumDevices w) as [devices w1]. simpl in *. subst devices. reflexivity.
Qed.

Lemma initialised_nonempty (devices : list Device) :
  initialised devices <> [] <->
  Exists (fun device => fst (dup_initialize (dup_new device)) = true) devices.
Proof.
  induction devices as [|dev devices IH]; simpl.
  - split; [intros H; contradiction H; reflexivity | intros H; inversion H].
  - destruct (dup_initialize (dup_new dev)) as [[] d] eqn:E; simpl.
    + split; [intros _ | discriminate]. left. rewrite E. reflexivity.
    + rewrite IH. split.
      * intros H. right. exact H.
      * intros H. inversion H as [? ? H1|? ? H1]; subst; [|exact H1].
        rewrite E in H1. discriminate H1.
Qed.

Lemma doInitialize_result (c : Ctl) (w : World) :
  duplicators_ c = [] ->
  fst (fst (doInitialize c w))
  = negb (is_empty (initialised (fst (enumDevices w)))).
Proof.
  intros Hd. unfold doInitialize.
  destruct (enumDevices w) as [devices w1]. cbn [fst snd].
  destruct devices as [|dev devices]; [reflexivity|]. cbv [is_empty].
  destruct (fold_initDevice_adapters (dev :: devices)
              (set_d3d_info c (mkD3dInfo 0 0))) as [Hfd _].
  remember (fold_left initDevice (dev :: devices)
                      (set_d3d_info c (mkD3dInfo 0 0))) as c2 eqn:Ec2.
  cbn [duplicators_ set_d3d_info] in Hfd. rewrite Hd in Hfd. cbn [app] in Hfd.
  remember (initialised (dev :: devices)) as ini eqn:Eini.
  destruct (GetDC_DeviceCaps w1) as [[caps|] w2]; simpl; rewrite Hfd;
    destruct ini; reflexivity.
Qed.

Lemma initialize_members (c : Ctl) (w : World) :
  let fresh_attempt :=
    is_empty (duplicators_ c) && negb (is_empty (fst (enumDevices w))) in
  let c' := snd (fst (initialize c w)) in
  refcount_ c' = refcount_ c
  /\ identity_ c'
     = (if fresh_attempt then int_add (identity_ c) 1 else identity_ c)
  /\ dpi_ c'
     = (if fresh_attempt
        then match fst (GetDC_DeviceCaps (snd (enumDevices w))) with
             | Some caps => caps
             | None => dpi_ c
             end
        else dpi_ c)
  /\ d3d_info_ c'
     = (if is_empty (duplicators_ c)
        then fold_left recordLevel (map feature_level (fst (enumDevices w)))
                       (mkD3dInfo 0 0)
        else d3d_info_ c).
Proof.
  unfold initialize. destruct (duplicators_ c) eqn:Hd; simpl; [|repeat split].
  destruct (fst (enumDevices w)) eqn:He.
  - rewrite (doInitialize_no_device c w He). simpl. repeat split.
  - assert (Hne : fst (enumDevices w) <> []) by (rewrite He; discriminate).
    pose proof (doInitialize_members c w Hne) as H. simpl in H.
    rewrite He in H.
    destruct (doInitialize c w) as [[[] c1] w1]; simpl in *;
      destruct H as (A & B & C & D & E); repeat split; assumption.
Qed.

(** X1.  From a controller without adapters, [initialize()] succeeds exactly
    when the duplicator of at least one enumerated device initialises:
    adapters that fail do not prevent the others from being used, and an
    empty enumeration fails. *)
Theorem initialize_succeeds_iff_some_adapter :
  forall (c : Ctl) (w : World),
    duplicators_ c = [] ->
    (fst (fst (initialize c w)) = true <->
     Exists (fun device => fst (dup_initialize (dup_new device)) = true)
            (fst (enumDevices w))).
Proof.
  intros c w Hd. rewrite <- initialised_nonempty.
  unfold initialize. rewrite Hd. simpl.
  pose proof (doInitialize_result c w Hd) as Hr.
  destruct (doInitialize c w) as [[ok c1] w1]. simpl in Hr. subst ok.
  destruct (initialised (fst (enumDevices w))); simpl; split; intros H;
    first [discriminate | reflexivity | contradiction H; reflexivity].
Qed.

(** X2.  [initialize()] returns true exactly when the controller has
    adapters afterwards; when it returns false the controller is
    deinitialised: no adapter, [desktop_rect_] the empty [QRect()], the
    display-change probe reset. *)
Theorem initialize_true_iff_adapters :
  forall (c : Ctl) (w : World),
    (fst (fst (initialize c w)) = true <->
     duplicators_ (snd (fst (initialize c w))) <> [])
    /\ (fst (fst (initialize c w)) = false ->
        desktop_rect_ (snd (fst (initialize c w))) = QRect_null
        /\ exists m, display_configuration_monitor_ (snd (fst (initialize c w)))
                     = dcm_reset m).
Proof.
  intros c w. unfold initialize.
  destruct (duplicators_ c) eqn:Hd; simpl.
  - destruct (doInitialize c w) as [[ok c1] w1] eqn:E.
    pose proof (doInitialize_true_nonempty c w) as Hne. rewrite E in Hne.
    simpl in Hne. destruct ok; simpl.
    + split; [split; auto | discriminate].
    + split; [split; [discriminate | intros H; contradiction H; reflexivity]|].
      intros _. split; [reflexivity|]. eexists. reflexivity.
  - rewrite Hd. split; [split; [discriminate | reflexivity] | discriminate].
Qed.

(** X3.  Once [initialize()] has succeeded, calling it again changes nothing
    and does not consult the outside world: it returns true with the same
    controller, whatever the world is. *)
Theorem initialize_again_is_noop :
  forall (c : Ctl) (w w' : World),
    fst (fst (initialize c w)) = true ->
    initialize (snd (fst (initialize c w))) w'
    = (true, snd (fst (initialize c w)), w').
Proof.
  intros c w w' H. apply initialize_true_nonempty in H.
  unfold initialize at 1.
  destruct (duplicators_ (snd (fst (initialize c w)))); [contradiction|].
  reflexivity.
Qed.

(** X4.  [initialize()] increments [identity_] (by one, as an [int]) exactly
    when it finds no adapter and the enumeration returns at least one
    device, whether or not the attempt then succeeds; otherwise [identity_]
    is unchanged.  An incremented identity differs from the one before. *)
Theorem initialize_identity :
  forall (c : Ctl) (w : World),
    identity_ (snd (fst (initialize c w)))
    = (if is_empty (duplicators_ c) && negb (is_empty (fst (enumDevices w)))
       then int_add (identity_ c) 1 else identity_ c)
    /\ (in_int (identity_ c) -> int_add (identity_ c) 1 <> identity_ c).
Proof.
  intros c w. split; [apply (initialize_members c w)|].
  unfold in_int, int_add, wrap_int. intros H.
  destruct (Z_lt_le_dec (identity_ c + 1) (2 ^ 31)).
  - rewrite Z.mod_small by lia. lia.
  - replace (identity_ c + 1 + 2 ^ 31) with (0 + 1 * 2 ^ 32) by lia.
    rewrite Z.mod_add by lia. rewrite Z.mod_small by lia. lia.
Qed.

(** X5.  The [dpi()] query returns [QPoint()] when initialisation fails.
    When it succeeds it returns the stored [dpi_]: the value just read from
    the device context if this call initialised the controller and a device
    context could be obtained, and the old value otherwise. *)
Theorem dpi_query :
  forall (c : Ctl) (w : World),
    fst (fst (dpi c w))
    = (if fst (fst (initialize c w)) then
         if is_empty (duplicators_ c) then
           match fst (GetDC_DeviceCaps (snd (enumDevices w))) with
           | Some caps => caps
           | None => dpi_ c
           end
         else dpi_ c
       else QPoint_zero).
Proof.
  intros c w. unfold dpi.
  pose proof (initialize_members c w) as H. simpl in H.
  destruct H as (_ & _ & Hdpi & _).
  pose proof (initialize_succeeds_iff_some_adapter c w) as Hiff.
  destruct (initialize c w) as [[ok c1] w1]. simpl in *.
  destruct ok; [|reflexivity]. simpl. rewrite Hdpi.
  destruct (duplicators_ c) eqn:Hd; simpl; [|reflexivity].
  destruct (fst (enumDevices w)); simpl; [|reflexivity].
  destruct Hiff as [Hex _]; [reflexivity|]. specialize (Hex eq_refl).
  inversion Hex.
Qed.

Lemma fold_min_lower (l : list Z) (a : Z) :
  fold_left Z.min l a <= a /\ Forall (fun x => fold_left Z.min l a <= x) l.
Proof.
  revert a. induction l as [|x l IH]; intros a; simpl.
  - split; [lia | constructor].
  - destruct (IH (Z.min a x)) as [Hle Hall]. split; [lia|].
    constructor; [lia | exact Hall].
Qed.

Lemma fold_max_upper (l : list Z) (a : Z) :
  a <= fold_left Z.max l a /\ Forall (fun x => x <= fold_left Z.max l a) l.
Proof.
  revert a. induction l as [|x l IH]; intros a; simpl.
  - split; [lia | constructor].
  - destruct (IH (Z.max a x)) as [Hle Hall]. split; [lia|].
    constructor; [lia | exact Hall].
Qed.

(** X6.  When [retrieveD3dInfo] runs on a controller without adapters, the
    information it returns is recomputed from the enumeration: with no
    device the call fails and both levels are 0 (what was known before is
    gone); otherwise, the feature levels being positive, the minimum and the
    maximum bound the level of every enumerated device, also of those
    whose duplicator did not initialise. *)
Theorem retrieveD3dInfo_bounds_devices :
  forall (c : Ctl) (w : World),
    duplicators_ c = [] ->
    Forall (fun device => 0 < feature_level device) (fst (enumDevices w)) ->
    let info := snd (fst (fst (retrieveD3dInfo c w))) in
    Forall (fun device =>
              min_feature_level info <= feature_level device
              <= max_feature_level info)
           (fst (enumDevices w))
    /\ (fst (enumDevices w) = [] ->
        info = mkD3dInfo 0 0 /\ fst (fst (fst (retrieveD3dInfo c w))) = false).
Proof.
  intros c w Hd Hpos info. subst info. unfold retrieveD3dInfo.
  pose proof (initialize_members c w) as H. simpl in H.
  destruct H as (_ & _ & _ & Hinfo). rewrite Hd in Hinfo. simpl in Hinfo.
  pose proof (initialize_succeeds_iff_some_adapter c w Hd) as Hiff.
  destruct (initialize c w) as [[ok c1] w1]. simpl in *. rewrite Hinfo.
  destruct (fst (enumDevices w)) as [|dev devices] eqn:He.
  - split; [constructor|]. intros _. split; [reflexivity|].
    destruct ok; [|reflexivity].
    destruct Hiff as [Hex _]. specialize (Hex eq_refl). inversion Hex.
  - split; [|discriminate].
    rewrite fold_recordLevel_positive;
      [| apply Forall_map; exact Hpos | discriminate].
    simpl.
    destruct (fold_min_lower (map feature_level devices) (feature_level dev))
      as [Hmin Hmins].
    destruct (fold_max_upper (map feature_level devices) (feature_level dev))
      as [Hmax Hmaxs].
    rewrite Forall_map in Hmins, Hmaxs.
    constructor; [lia|].
    rewrite Forall_forall in *. intros x Hx.
    specialize (Hmins x Hx). specialize (Hmaxs x Hx). simpl in *. lia.
Qed.

(** *** What a duplication changes *)

Lemma enterDuplicate_refcount (c : Ctl) (w : World) :
  refcount_ (snd (fst (enterDuplicate c w))) = refcount_ c.
Proof.
  unfold enterDuplicate.
  pose proof (checkDisplayChange_cases c w) as H. simpl in H.
  destruct (checkDisplayChange c w) as [c1 w0]. simpl in H.
  pose proof (initialize_members c1 w0) as Hm. simpl in Hm.
  destruct Hm as (Hr & _). rewrite Hr.
  destruct H as [-> | ->]; reflexivity.
Qed.

(** X7.  No call of [duplicate] or [duplicateMonitor] indexes the caller's
    sub-contexts out of range, whatever context the frame brings: [setup]
    has given the context one sub-context per adapter before any
    [contexts[i]] is read. *)
Theorem doDuplicate_never_out_of_range :
  forall (fuel : nat) (c : Ctl) (w : World) (f : Frm) (monitor_id : Z),
    doDuplicate frame_prepare fuel c w f monitor_id <> OutOfRange.
Proof.
  intros fuel c w f m. unfold doDuplicate.
  destruct (enterDuplicate c w) as [[ok c2] w1].
  destruct ok; simpl.
  - destruct (frame_prepare f (selectedDesktopSize c2 m) m) as [prepared f1].
    destruct prepared; simpl; [|discriminate].
    pose proof (doDuplicateUnlocked_current fuel c2 w1 (context f1) m
                  (sf_clearUpdatedRegion (frame f1))) as Hs.
    destruct (doDuplicateUnlocked fuel c2 w1 (context f1) m
                                  (sf_clearUpdatedRegion (frame f1)))
      as [[[[[ok' c3] w2] ctx] target]| |]; simpl in *;
      [|contradiction|discriminate].
    destruct ok'; [discriminate|].
    destruct (m >=? screenCountUnlocked c3); discriminate.
  - destruct (succeeded_duplications_ c2 =? 0); [|discriminate].
    destruct (isCurrentSessionSupported w1) as [[] w2]; discriminate.
Qed.

(** X8.  [unregister] always returns, for every context: the test
    [contextExpired] keeps the loop from reading a sub-context that is not
    there.  It leaves every member but the adapters' inner state alone. *)
Theorem unregister_always_returns :
  forall (c : Ctl) (ctx : Ctx),
    exists c', unregister c ctx = Returns c' /\ same_members c c'.
Proof.
  intros c ctx. unfold unregister.
  destruct (contextExpired c ctx) eqn:E.
  - exists c. split; [reflexivity | apply same_members_refl].
  - apply contextExpired_false in E. destruct E as [_ Hlen].
    rewrite (unregisterAll_combine _ _ Hlen). simpl.
    eexists. split; [reflexivity|].
    apply same_members_set_duplicators.
    rewrite length_map, length_combine, Hlen. apply Nat.min_id.
Qed.

(** X9.  After a call that returns [SUCCEEDED] or [INVALID_MONITOR_ID], the
    context of the caller's frame is current for the controller the call
    leaves: its [controller_id] is [identity_] and it has one sub-context
    per adapter. *)
Theorem context_current_after_duplicate :
  forall (fuel : nat) (c : Ctl) (w : World) (f : Frm) (monitor_id : Z)
         (r : Result) (c' : Ctl) (w' : World) (f' : Frm),
    doDuplicate frame_prepare fuel c w f monitor_id = Returns (r, c', w', f') ->
    r = SUCCEEDED \/ r = INVALID_MONITOR_ID ->
    contextExpired c' (context f') = false.
Proof.
  intros fuel c w f m r c' w' f' H Hr.
  apply doDuplicate_inv in H. simpl in H.
  destruct H as [(_ & [E|E] & _) | [(_ & _ & E & _) | (_ & _ & H)]];
    try (destruct Hr; congruence).
  destruct H as (ok & c3 & ctx & target & Hun & -> & Hcases).
  match type of Hun with
  | doDuplicateUnlocked ?fu ?c2 ?w1 ?cx ?mm ?tg = _ =>
      pose proof (doDuplicateUnlocked_current fu c2 w1 cx mm tg) as Hs
  end.
  rewrite Hun in Hs. destruct Hs as [_ Hc]. simpl.
  destruct Hcases as [(_ & _ & ->) | [(_ & _ & _ & ->) | (_ & _ & E & _)]].
  - exact Hc.
  - exact Hc.
  - destruct Hr; congruence.
Qed.

(** X10.  [succeeded_duplications_] counts the calls that return
    [SUCCEEDED]: such a call adds one to it (as a [uint32_t]) and every
    other call leaves it as it was.  No call changes the reference count. *)
Theorem succeeded_duplications_counts_successes :
  forall (fuel : nat) (c : Ctl) (w : World) (f : Frm) (monitor_id : Z)
         (r : Result) (c' : Ctl) (w' : World) (f' : Frm),
    doDuplicate frame_prepare fuel c w f monitor_id = Returns (r, c', w', f') ->
    succeeded_duplications_ c'
    = match r with
      | SUCCEEDED => wrap_uint32 (succeeded_duplications_ c + 1)
      | _ => succeeded_duplications_ c
      end
    /\ refcount_ c' = refcount_ c.
Proof.
  intros fuel c w f m r c' w' f' H.
  apply doDuplicate_inv in H. simpl in H.
  pose proof (enterDuplicate_succeeded c w) as Hs.
  pose proof (enterDuplicate_refcount c w) as Hrc.
  destruct H as [(_ & [->| ->] & -> & _) | [(_ & _ & -> & -> & _) | (_ & _ & H)]];
    try (split; assumption).
  destruct H as (ok & c3 & ctx & target & Hun & _ & Hcases).
  match type of Hun with
  | doDuplicateUnlocked ?fu ?c2 ?w1 ?cx ?mm ?tg = _ =>
      pose proof (doDuplicateUnlocked_current fu c2 w1 cx mm tg) as Hm
  end.
  rewrite Hun in Hm. destruct Hm as [(Hr3 & _ & _ & _ & _ & _ & Hs3 & _) _].
  destruct Hcases as [(_ & -> & ->) | [(_ & _ & -> & ->) | (_ & _ & -> & ->)]];
    simpl; split; congruence.
Qed.

(** X11.  The duplication that follows the opening initialisation changes
    neither [identity_] nor [dpi_] nor [d3d_info_]: whatever the result,
    they are as initialisation left them.  Unless the result is
    [DUPLICATION_FAILED], [desktop_rect_] and the number of adapters are as
    initialisation left them too. *)
Theorem duplication_keeps_identity_dpi_levels :
  forall (fuel : nat) (c : Ctl) (w : World) (f : Frm) (monitor_id : Z)
         (r : Result) (c' : Ctl) (w' : World) (f' : Frm),
    doDuplicate frame_prepare fuel c w f monitor_id = Returns (r, c', w', f') ->
    let c2 := snd (fst (enterDuplicate c w)) in
    identity_ c' = identity_ c2
    /\ dpi_ c' = dpi_ c2
    /\ d3d_info_ c' = d3d_info_ c2
    /\ (r <> DUPLICATION_FAILED ->
        desktop_rect_ c' = desktop_rect_ c2
        /\ length (duplicators_ c') = length (duplicators_ c2)
        /\ display_configuration_monitor_ c' = display_configuration_monitor_ c2).
Proof.
  intros fuel c w f m r c' w' f' H c2. subst c2.
  apply doDuplicate_inv in H. simpl in H.
  destruct H as [(_ & _ & -> & _) | [(_ & _ & _ & -> & _) | (_ & _ & H)]];
    try (repeat split; reflexivity).
  destruct H as (ok & c3 & ctx & target & Hun & _ & Hcases).
  match type of Hun with
  | doDuplicateUnlocked ?fu ?c2 ?w1 ?cx ?mm ?tg = _ =>
      pose proof (doDuplicateUnlocked_current fu c2 w1 cx mm tg) as Hm
  end.
  rewrite Hun in Hm.
  destruct Hm as [(_ & Hi & Hrect & Hdpi & Hinfo & Hmon & _ & Hlen) _].
  destruct Hcases as [(_ & _ & ->) | [(_ & _ & _ & ->) | (_ & _ & -> & ->)]];
    simpl; repeat split; try assumption;
    exfalso; match goal with Hneq : ?x <> ?x |- _ => apply Hneq; reflexivity end.
Qed.

(** *** The warm-up loop *)

(** X12.  The warm-up loop never sleeps: with [frames_to_skip] equal to 1
    the guard [numFramesCaptured() > 0] of the sleeping branch cannot hold
    inside a loop that runs while [numFramesCaptured() < 1].  The loop is
    the loop without that branch, and [last_frame_start_ms] has no effect. *)
Theorem warm_up_never_sleeps :
  forall (fuel : nat) (start_ms last : Z) (c : Ctl) (w : World) (ctx : Ctx)
         (shared_frame : SharedFrame),
    warmUp fuel start_ms last c w ctx shared_frame
    = warmUpNoSleep fuel start_ms c w ctx shared_frame.
Proof.
  induction fuel as [|fuel IH]; intros start_ms last c w ctx shared_frame; simpl.
  - reflexivity.
  - destruct (Z.ltb_spec (numFramesCaptured c) frames_to_skip) as [Hcold|Hwarm];
      [|reflexivity].
    destruct (Z.gtb_spec (numFramesCaptured c) 0) as [Hpos|_];
      [unfold frames_to_skip in Hcold; lia|].
    destruct (Clock_now w) as [last' w2].
    destruct (doDuplicateAll c ctx shared_frame) as [[[[ok c'] ctx'] sf']| |];
      simpl; try reflexivity.
    destruct ok; simpl; [|reflexivity].
    destruct (Clock_now w2) as [now w3].
    destruct (int64_sub now start_ms >? timeout_ms); [reflexivity|].
    apply IH.
Qed.

Lemma duplicateAll_not_out_of_fuel (ds : list Dup) (cs : list SubCtx) (t : SharedFrame) :
  duplicateAll ds cs t <> OutOfFuel.
Proof.
  revert cs t. induction ds as [|d ds IH]; intros cs t; simpl; [discriminate|].
  destruct cs as [|s cs]; [discriminate|].
  destruct (dup_duplicate d s t) as [[[ok d'] s'] t'].
  destruct ok; simpl; [|discriminate].
  specialize (IH cs t').
  destruct (duplicateAll ds cs t') as [[[[r ds'] cs'] t'']| |]; simpl;
    [discriminate | discriminate | contradiction].
Qed.

Lemma warmUp_out_of_fuel (fuel : nat) (start_ms last : Z) (c : Ctl) (w : World)
      (ctx : Ctx) (sf : SharedFrame) :
  warmUp fuel start_ms last c w ctx sf = OutOfFuel ->
  exists c' ctx' sf',
    duplicateAllTimes fuel c ctx sf = Returns (true, c', ctx', sf')
    /\ numFramesCaptured c' < frames_to_skip.
Proof.
  revert last c w ctx sf.
  induction fuel as [|fuel IH]; intros last c w ctx sf; simpl.
  - destruct (Z.ltb_spec (numFramesCaptured c) frames_to_skip) as [Hcold|Hwarm];
      [|discriminate].
    intros _. exists c, ctx, sf. split; [reflexivity | exact Hcold].
  - destruct (Z.ltb_spec (numFramesCaptured c) frames_to_skip) as [Hcold|Hwarm];
      [|discriminate].
    match goal with
    | |- context [Clock_now ?x] => destruct (Clock_now x) as [last' w2]
    end.
    unfold doDuplicateAll at 1 2.
    pose proof (duplicateAll_not_out_of_fuel (duplicators_ c) (contexts ctx) sf)
      as Hnf.
    destruct (duplicateAll (duplicators_ c) (contexts ctx) sf)
      as [[[[ok ds] cs] sf1]| |]; simpl; try discriminate; [|contradiction].
    destruct ok; simpl; [|discriminate].
    destruct (Clock_now w2) as [now w3].
    destruct (int64_sub now start_ms >? timeout_ms); [discriminate|].
    apply IH.
Qed.

Lemma clock_after_S (n : nat) (w : World) :
  clock_after (S n) w = snd (Clock_now (clock_after n w)).
Proof. reflexivity. Qed.

(** A warm-up loop that is entered after [j] turns and is still running
    [fuel] turns later has found the clock within the deadline at the end
    of each of those turns. *)
Lemma warmUp_out_of_fuel_deadline (fuel : nat) :
  forall (j : nat) (start_ms last : Z) (c : Ctl) (w w0 : World) (ctx : Ctx)
         (sf : SharedFrame),
    w0 = clock_after (S (2 * j)) w ->
    warmUp fuel start_ms last c w0 ctx sf = OutOfFuel ->
    forall i, (j < i <= j + fuel)%nat ->
      int64_sub (fst (Clock_now (clock_after (2 * i) w))) start_ms <= timeout_ms.
Proof.
  induction fuel as [|fuel IH]; intros j start_ms last c w w0 ctx sf Hw H i Hi;
    [lia|].
  simpl in H.
  destruct (Z.ltb_spec (numFramesCaptured c) frames_to_skip) as [Hcold|Hwarm];
    [|discriminate].
  destruct (Z.gtb_spec (numFramesCaptured c) 0) as [Hpos|_];
    [unfold frames_to_skip in Hcold; lia|].
  destruct (Clock_now w0) as [last' w2] eqn:E1.
  unfold doDuplicateAll in H.
  pose proof (duplicateAll_not_out_of_fuel (duplicators_ c) (contexts ctx) sf)
    as Hnf.
  destruct (duplicateAll (duplicators_ c) (contexts ctx) sf)
    as [[[[ok ds] cs] sf1]| |]; simpl in H; try discriminate; [|contradiction].
  destruct ok; simpl in H; [|discriminate].
  destruct (Clock_now w2) as [now w3] eqn:E2.
  destruct (Z.gtb_spec (int64_sub now start_ms) timeout_ms) as [Hlate|Hin];
    [discriminate|].
  assert (Hw2 : w2 = clock_after (2 * S j) w).
  { replace (2 * S j)%nat with (S (S (2 * j))) by lia.
    rewrite clock_after_S, <- Hw, E1. reflexivity. }
  destruct (Nat.eq_dec i (S j)) as [->|Hne].
  - rewrite <- Hw2, E2. exact Hin.
  - eapply (IH (S j)); [|exact H|lia].
    rewrite clock_after_S, <- Hw2, E2. reflexivity.
Qed.

Lemma ensureFrameCaptured_out_of_fuel_deadline (fuel : nat) (c : Ctl) (w : World)
      (ctx : Ctx) (target : SharedFrame) :
  ensureFrameCaptured fuel c w ctx target = OutOfFuel ->
  forall i, (1 <= i <= fuel)%nat -> turn_elapsed i w <= timeout_ms.
Proof.
  unfold ensureFrameCaptured, turn_elapsed.
  destruct (numFramesCaptured c >=? frames_to_skip); [discriminate|].
  destruct (Clock_now w) as [start_ms w1] eqn:E.
  assert (Hw : w1 = clock_after (S (2 * 0)) w)
    by (simpl; rewrite E; reflexivity).
  destruct ((wd (sf_size target) >=? wd (desktopSize c))
            && (ht (sf_size target) >=? ht (desktopSize c))).
  - intros H i Hi.
    apply (warmUp_out_of_fuel_deadline fuel 0 start_ms 0 c w w1 ctx target Hw H).
    lia.
  - destruct (warmUp fuel start_ms 0 c w1 ctx (FrameSimple_create (desktopSize c)))
      as [[[[[r0 c0] w0] ctx0] sf0]| |] eqn:Hwu; simpl; try discriminate.
    intros _ i Hi.
    apply (warmUp_out_of_fuel_deadline fuel 0 start_ms 0 c w w1 ctx
             (FrameSimple_create (desktopSize c)) Hw Hwu).
    lia.
Qed.

(** X13.  The warm-up can outlast the fuel of the model only by going on as
    the source does: if [ensureFrameCaptured] is still running after [fuel]
    turns, then [fuel] full-desktop duplications in a row have all
    succeeded, some adapter still has no frame, and at the end of each of
    those turns the clock was still within [timeout_ms] of the start.  The
    loop never goes on after a failed duplication, once every adapter has a
    frame, or once the deadline has passed. *)
Theorem warm_up_goes_on_only_while_cold :
  forall (fuel : nat) (c : Ctl) (w : World) (ctx : Ctx) (target : SharedFrame),
    ensureFrameCaptured fuel c w ctx target = OutOfFuel ->
    let fits := (wd (sf_size target) >=? wd (desktopSize c))
                && (ht (sf_size target) >=? ht (desktopSize c)) in
    let shared_frame :=
      if fits then target else FrameSimple_create (desktopSize c) in
    (exists c' ctx' shared',
        duplicateAllTimes fuel c ctx shared_frame = Returns (true, c', ctx', shared')
        /\ numFramesCaptured c' < 1)
    /\ (forall i, (1 <= i <= fuel)%nat -> turn_elapsed i w <= timeout_ms).
Proof.
  intros fuel c w ctx target H fits shared_frame. subst fits shared_frame.
  split; [|exact (ensureFrameCaptured_out_of_fuel_deadline fuel c w ctx target H)].
  revert H. unfold ensureFrameCaptured.
  destruct (numFramesCaptured c >=? frames_to_skip); [discriminate|].
  destruct (Clock_now w) as [start_ms w1].
  destruct ((wd (sf_size target) >=? wd (desktopSize c))
            && (ht (sf_size target) >=? ht (desktopSize c))).
  - apply warmUp_out_of_fuel.
  - pose proof (warmUp_out_of_fuel fuel start_ms 0 c w1 ctx
                  (FrameSimple_create (desktopSize c))) as Ho.
    destruct (warmUp fuel start_ms 0 c w1 ctx (FrameSimple_create (desktopSize c)))
      as [[[[[r0 c0] w0] ctx0] sf0]| |]; simpl; try discriminate.
    intros _. apply Ho. reflexivity.
Qed.

(** *** The warm-up ends when the clock advances *)

Lemma doDuplicateUnlocked_out_of_fuel (fuel : nat) (c : Ctl) (w : World) (ctx : Ctx)
      (monitor_id : Z) (target : SharedFrame) :
  doDuplicateUnlocked fuel c w ctx monitor_id target = OutOfFuel ->
  exists c1 ctx1, ensureFrameCaptured fuel c1 w ctx1 target = OutOfFuel.
Proof.
  unfold doDuplicateUnlocked.
  destruct (setup_current c ctx) as (c1 & ctx1 & Heq & _ & _).
  rewrite Heq. simpl.
  destruct (ensureFrameCaptured fuel c1 w ctx1 target)
    as [[[[[ok c2] w2] ctx2] target2]| |] eqn:E; simpl; try discriminate.
  - destruct ok; simpl; [|discriminate].
    destruct (monitor_id <? 0).
    + unfold doDuplicateAll.
      pose proof (duplicateAll_not_out_of_fuel (duplicators_ c2) (contexts ctx2)
                    target2) as Hnf.
      destruct (duplicateAll (duplicators_ c2) (contexts ctx2) target2)
        as [[[[r ds] cs] t]| |]; simpl; try discriminate. contradiction.
    + destruct (doDuplicateOne c2 ctx2 monitor_id target2) as [[[r c3] ctx3] t3].
      discriminate.
  - intros _. exists c1, ctx1. exact E.
Qed.

Lemma doDuplicate_out_of_fuel (fuel : nat) (c : Ctl) (w : World) (f : Frm) (m : Z) :
  doDuplicate frame_prepare fuel c w f m = OutOfFuel ->
  exists c1 ctx1 target,
    ensureFrameCaptured fuel c1 (snd (enterDuplicate c w)) ctx1 target = OutOfFuel.
Proof.
  unfold doDuplicate.
  destruct (enterDuplicate c w) as [[ok c2] w1]. simpl.
  destruct ok; simpl.
  - destruct (frame_prepare f (selectedDesktopSize c2 m) m) as [prepared f1].
    destruct prepared; simpl; [|discriminate].
    pose proof (doDuplicateUnlocked_out_of_fuel fuel c2 w1 (context f1) m
                  (sf_clearUpdatedRegion (frame f1))) as Ho.
    destruct (doDuplicateUnlocked fuel c2 w1 (context f1) m
                                  (sf_clearUpdatedRegion (frame f1)))
      as [[[[[ok' c3] w2] ctx] target]| |]; simpl; try discriminate.
    + destruct ok'; [discriminate|].
      destruct (m >=? screenCountUnlocked c3); discriminate.
    + intros _. destruct (Ho eq_refl) as (c1 & ctx1 & H).
      exists c1, ctx1, (sf_clearUpdatedRegion (frame f1)). exact H.
  - destruct (succeeded_duplications_ c2 =? 0); [|discriminate].
    destruct (isCurrentSessionSupported w1) as [[] w2]; discriminate.
Qed.

(** With the deadline passed at the end of turn [i], [i] turns of fuel are
    enough for the call to come to its end. *)
Lemma doDuplicate_ends (fuel i : nat) (c : Ctl) (w : World) (f : Frm) (m : Z) :
  (1 <= i <= fuel)%nat ->
  turn_elapsed i (snd (enterDuplicate c w)) > timeout_ms ->
  doDuplicate frame_prepare fuel c w f m <> OutOfFuel.
Proof.
  intros Hi Hlate H.
  destruct (doDuplicate_out_of_fuel fuel c w f m H) as (c1 & ctx1 & target & Ho).
  pose proof (ensureFrameCaptured_out_of_fuel_deadline fuel c1 _ ctx1 target Ho i Hi).
  lia.
Qed.

(** A call that has returned returns the same with more fuel. *)
Lemma warmUp_more_fuel (fuel : nat) :
  forall (fuel' : nat) (start_ms last : Z) (c : Ctl) (w : World) (ctx : Ctx)
         (sf : SharedFrame) x,
    (fuel <= fuel')%nat ->
    warmUp fuel start_ms last c w ctx sf = Returns x ->
    warmUp fuel' start_ms last c w ctx sf = Returns x.
Proof.
  induction fuel as [|fuel IH]; intros fuel' start_ms last c w ctx sf x Hle H.
  - simpl in H.
    destruct (numFramesCaptured c <? frames_to_skip) eqn:E; [discriminate|].
    destruct fuel'; simpl; rewrite E; exact H.
  - destruct fuel' as [|fuel']; [lia|]. simpl in *.
    destruct (Z.ltb_spec (numFramesCaptured c) frames_to_skip) as [Hcold|Hwarm];
      [|exact H].
    destruct (Z.gtb_spec (numFramesCaptured c) 0) as [Hpos|_];
      [unfold frames_to_skip in Hcold; lia|].
    destruct (Clock_now w) as [last' w2].
    destruct (doDuplicateAll c ctx sf) as [[[[ok c'] ctx'] sf']| |];
      simpl in *; try discriminate.
    destruct ok; simpl in *; [|exact H].
    destruct (Clock_now w2) as [now w3].
    destruct (int64_sub now start_ms >? timeout_ms); [exact H|].
    apply IH; [lia | exact H].
Qed.

Lemma ensureFrameCaptured_more_fuel (fuel fuel' : nat) (c : Ctl) (w : World)
      (ctx : Ctx) (target : SharedFrame) x :
  (fuel <= fuel')%nat ->
  ensureFrameCaptured fuel c w ctx target = Returns x ->
  ensureFrameCaptured fuel' c w ctx target = Returns x.
Proof.
  intros Hle. unfold ensureFrameCaptured.
  destruct (numFramesCaptured c >=? frames_to_skip); [auto|].
  destruct (Clock_now w) as [start_ms w1].
  destruct ((wd (sf_size target) >=? wd (desktopSize c))
            && (ht (sf_size target) >=? ht (desktopSize c))).
  - apply warmUp_more_fuel. exact Hle.
  - destruct (warmUp fuel start_ms 0 c w1 ctx (FrameSimple_create (desktopSize c)))
      as [y| |] eqn:E; simpl; try discriminate.
    rewrite (warmUp_more_fuel fuel fuel' _ _ _ _ _ _ y Hle E). simpl. auto.
Qed.

Lemma doDuplicateUnlocked_more_fuel (fuel fuel' : nat) (c : Ctl) (w : World)
      (ctx : Ctx) (monitor_id : Z) (target : SharedFrame) x :
  (fuel <= fuel')%nat ->
  doDuplicateUnlocked fuel c w ctx monitor_id target = Returns x ->
  doDuplicateUnlocked fuel' c w ctx monitor_id target = Returns x.
Proof.
  intros Hle. unfold doDuplicateUnlocked.
  destruct (setup c ctx) as [[c1 ctx1]| |]; simpl; try discriminate.
  destruct (ensureFrameCaptured fuel c1 w ctx1 target) as [y| |] eqn:E;
    simpl; try discriminate.
  rewrite (ensureFrameCaptured_more_fuel fuel fuel' _ _ _ _ y Hle E). simpl. auto.
Qed.

Lemma doDuplicate_more_fuel (fuel fuel' : nat) (c : Ctl) (w : World) (f : Frm)
      (m : Z) x :
  (fuel <= fuel')%nat ->
  doDuplicate frame_prepare fuel c w f m = Returns x ->
  doDuplicate frame_prepare fuel' c w f m = Returns x.
Proof.
  intros Hle. unfold doDuplicate.
  destruct (enterDuplicate c w) as [[ok c2] w1].
  destruct ok; simpl; [|auto].
  destruct (frame_prepare f (selectedDesktopSize c2 m) m) as [prepared f1].
  destruct prepared; simpl; [|auto].
  destruct (doDuplicateUnlocked fuel c2 w1 (context f1) m
                                (sf_clearUpdatedRegion (frame f1)))
    as [y| |] eqn:E; simpl; try discriminate.
  rewrite (doDuplicateUnlocked_more_fuel fuel fuel' _ _ _ _ _ y Hle E). simpl. auto.
Qed.

(** C3, as the code has it.  Take a call whose initialisation succeeds and
    whose monitor id is at or beyond the screen count.  If the frame's
    [prepare] fails, the call returns [FRAME_PREPARE_FAILED].  If it
    succeeds, the call returns [INVALID_MONITOR_ID]: the warm-up ends, at the
    latest when the clock has passed its deadline, and with fuel for that
    many turns or more the model returns one and the same result.  The call
    has not deinitialised: against the controller as initialisation left it,
    [identity_], [desktop_rect_] and all other members are the same and the
    adapters are the same sequence, changed only inside by [setup] and the
    warm-up.  When the controller was already initialised at call entry and
    no display change was seen, that is the [identity_] and the adapter
    sequence of call entry. *)
Theorem C3_invalid_monitor_id_keeps_adapters :
  forall (c : Ctl) (w : World) (f : Frm) (monitor_id : Z),
    fst (fst (enterDuplicate c w)) = true ->
    Forall (fun d => 0 <= dup_screenCount d)
           (duplicators_ (snd (fst (enterDuplicate c w)))) ->
    totalScreens (duplicators_ (snd (fst (enterDuplicate c w)))) < 2 ^ 31 ->
    screenCountUnlocked (snd (fst (enterDuplicate c w))) <= monitor_id < 2 ^ 31 ->
    (fst (frame_prepare f (selectedDesktopSize (snd (fst (enterDuplicate c w)))
                                               monitor_id) monitor_id) = false ->
     forall fuel : nat,
       doDuplicate frame_prepare fuel c w f monitor_id
       = Returns (FRAME_PREPARE_FAILED,
                  snd (fst (enterDuplicate c w)),
                  snd (enterDuplicate c w),
                  snd (frame_prepare f (selectedDesktopSize
                                          (snd (fst (enterDuplicate c w)))
                                          monitor_id) monitor_id)))
    /\ (fst (frame_prepare f (selectedDesktopSize (snd (fst (enterDuplicate c w)))
                                                  monitor_id) monitor_id) = true ->
        deadline_passes (snd (enterDuplicate c w)) ->
        exists (fuel0 : nat) c' w' f',
          (forall fuel : nat,
              (fuel0 <= fuel)%nat ->
              doDuplicate frame_prepare fuel c w f monitor_id
              = Returns (INVALID_MONITOR_ID, c', w', f'))
          /\ evolved (snd (fst (enterDuplicate c w))) c'
          /\ duplicators_ c' <> []
          /\ (duplicators_ c <> [] ->
              fst (fst (dcm_isChanged (display_configuration_monitor_ c) w)) = false ->
              identity_ c' = identity_ c
              /\ desktop_rect_ c' = desktop_rect_ c
              /\ Forall2 same_rects (duplicators_ c) (duplicators_ c'))).
Proof.
  intros c w f id Hinit Hnn Htot Hid. split.
  - intros Hp fuel. unfold doDuplicate.
    destruct (enterDuplicate c w) as [[ok c2] w1]. simpl in *. subst ok. simpl.
    destruct (frame_prepare f (selectedDesktopSize c2 id) id) as [prepared f1].
    simpl in *. subst prepared. reflexivity.
  - intros Hp (i & Hi & Hlate).
    assert (Hend : doDuplicate frame_prepare i c w f id <> OutOfFuel)
      by (apply (doDuplicate_ends i i); [lia | exact Hlate]).
    destruct (invalid_monitor_id_at_return i c w f id Hinit Hnn Htot Hid Hp Hend)
      as (c' & w' & f' & Heq & Hrest).
    exists i, c', w', f'. split; [|exact Hrest].
    intros fuel Hle.
    exact (doDuplicate_more_fuel i fuel c w f id _ Hle Heq).
Qed.

(** *** Full-desktop duplication *)

Lemma duplicateAll_app (ds1 ds2 : list Dup) (cs1 cs2 : list SubCtx) (t : SharedFrame)
      (ds1' : list Dup) (cs1' : list SubCtx) (t1 : SharedFrame) :
  length cs1 = length ds1 ->
  duplicateAll ds1 cs1 t = Returns (true, ds1', cs1', t1) ->
  duplicateAll (ds1 ++ ds2) (cs1 ++ cs2) t
  = ('(r, ds2', cs2', t') <- duplicateAll ds2 cs2 t1 ;;
     Returns (r, ds1' ++ ds2', cs1' ++ cs2', t')).
Proof.
  revert cs1 t ds1' cs1'. induction ds1 as [|d ds1 IH];
    intros [|s cs1] t ds1' cs1' Hlen; simpl in *; try discriminate.
  - intros H. inversion H; subst. simpl.
    destruct (duplicateAll ds2 cs2 t1) as [[[[r a] b] t']| |]; reflexivity.
  - destruct (dup_duplicate d s t) as [[[ok d'] s'] t'].
    destruct ok; simpl; [|discriminate].
    destruct (duplicateAll ds1 cs1 t') as [[[[r a] b] t'']| |] eqn:E; simpl;
      try discriminate.
    intros H. inversion H; subst.
    rewrite (IH cs1 t' a b) by (congruence || assumption).
    destruct (duplicateAll ds2 cs2 t1) as [[[[r a2] b2] t3]| |]; reflexivity.
Qed.

(** X14.  [doDuplicateAll] stops at the first adapter whose [duplicate]
    fails: it returns false, the adapters before it have captured, and the
    adapters and sub-contexts after it are not touched. *)
Theorem doDuplicateAll_stops_at_first_failure :
  forall (c : Ctl) (ctx : Ctx) (t : SharedFrame)
         (ds1 ds2 : list Dup) (d : Dup) (cs1 cs2 : list SubCtx) (s : SubCtx)
         (ds1' : list Dup) (cs1' : list SubCtx) (t1 : SharedFrame),
    duplicators_ c = ds1 ++ d :: ds2 ->
    contexts ctx = cs1 ++ s :: cs2 ->
    length cs1 = length ds1 ->
    duplicateAll ds1 cs1 t = Returns (true, ds1', cs1', t1) ->
    fst (fst (fst (dup_duplicate d s t1))) = false ->
    doDuplicateAll c ctx t
    = Returns (false,
               set_duplicators c
                 (ds1' ++ snd (fst (fst (dup_duplicate d s t1))) :: ds2),
               mkContext (controller_id ctx)
                 (cs1' ++ snd (fst (dup_duplicate d s t1)) :: cs2),
               snd (dup_duplicate d s t1)).
Proof.
  intros c ctx t ds1 ds2 d cs1 cs2 s ds1' cs1' t1 Hd Hc Hlen H1 Hfail.
  unfold doDuplicateAll. rewrite Hd, Hc.
  rewrite (duplicateAll_app ds1 (d :: ds2) cs1 (s :: cs2) t ds1' cs1' t1 Hlen H1).
  simpl. destruct (dup_duplicate d s t1) as [[[ok d'] s'] t2].
  simpl in Hfail. subst ok. reflexivity.
Qed.

(** *** Generations of contexts *)

(** X15.  A context that was current is expired once the controller has
    been torn down and initialised again: the initialisation that follows a
    [deinitialize()], if it finds a device at all, gives the controller an
    [identity_] the context does not carry. *)
Theorem context_expires_on_reinitialization :
  forall (c : Ctl) (ctx : Ctx) (w : World),
    in_int (identity_ c) ->
    controller_id ctx = identity_ c ->
    fst (enumDevices w) <> [] ->
    contextExpired (snd (fst (initialize (deinitialize c) w))) ctx = true.
Proof.
  intros c ctx w Hint Hid Hne.
  apply contextExpired_true. left.
  pose proof (initialize_members (deinitialize c) w) as H. simpl in H.
  destruct H as (_ & Hi & _). rewrite Hi, Hid.
  destruct (fst (enumDevices w)); [contradiction|]. simpl.
  intros Heq. symmetry in Heq. revert Heq.
  apply (proj2 (initialize_identity c w)). exact Hint.
Qed.

(** X16.  [setup] always returns and leaves the context current; a second
    [setup] then changes nothing.  A context that was current already is
    not touched, and no adapter is called for it; an expired one gets the
    controller's [identity_] and one sub-context per adapter. *)
Theorem setup_makes_current :
  forall (c : Ctl) (ctx : Ctx),
    exists c1 ctx1,
      setup c ctx = Returns (c1, ctx1)
      /\ contextExpired c1 ctx1 = false
      /\ setup c1 ctx1 = Returns (c1, ctx1)
      /\ same_members c c1
      /\ (contextExpired c ctx = false -> c1 = c /\ ctx1 = ctx)
      /\ (contextExpired c ctx = true ->
          controller_id ctx1 = identity_ c
          /\ length (contexts ctx1) = length (duplicators_ c)).
Proof.
  intros c ctx.
  destruct (setup_current c ctx) as (c1 & ctx1 & Heq & Hm & Hc).
  exists c1, ctx1. split; [exact Heq|]. split; [exact Hc|]. split.
  - unfold setup. rewrite Hc. reflexivity.
  - split; [exact Hm|]. split.
    + intros He. unfold setup in Heq. rewrite He in Heq.
      inversion Heq. split; reflexivity.
    + intros _. apply contextExpired_false in Hc. destruct Hc as [Hid Hlen].
      destruct Hm as (_ & Hi & _ & _ & _ & _ & _ & Hl). split; congruence.
Qed.

(** *** The reference count *)

Lemma int_sub_add_cancel (r : Z) : in_int r -> int_sub (int_add r 1) 1 = r.
Proof.
  intros H. unfold int_sub, int_add.
  replace (wrap_int (r + 1) - 1) with (wrap_int (r + 1) + (-1)) by lia.
  rewrite wrap_int_add_l. replace (r + 1 + -1) with r by lia.
  apply wrap_int_small. exact H.
Qed.

(** X17.  [addRef()] followed by [release()] restores the reference count.
    If the count was not 0 the controller is exactly as before; if it was 0
    the [release()] brings it back to 0 and the controller is unloaded. *)
Theorem release_after_addRef :
  forall (c : Ctl),
    in_int (refcount_ c) ->
    refcount_ (release (addRef c)) = refcount_ c
    /\ (refcount_ c <> 0 -> release (addRef c) = c)
    /\ (refcount_ c = 0 -> release (addRef c) = deinitialize c).
Proof.
  intros c Hint. pose proof (int_sub_add_cancel (refcount_ c) Hint) as Hcancel.
  destruct c as [rc id rect dp ds info mon succ]. simpl in *.
  unfold release, addRef, unload. simpl. rewrite Hcancel.
  destruct (Z.eqb_spec rc 0) as [->|Hne]; simpl.
  - split; [reflexivity|].
    split; [intros H; contradiction H; reflexivity | intros _; reflexivity].
  - split; [reflexivity|].
    split; [intros _; reflexivity | intros H; contradiction].
Qed.

(** *** Screens *)

Lemma deviceNames_fold (ds : list Dup) (out : list string) :
  fold_left
    (fun out duplicator =>
       out ++ map (fun i => dup_deviceName duplicator (Z.of_nat i))
                  (seq 0 (Z.to_nat (dup_screenCount duplicator))))
    ds out
  = out ++ fold_left
             (fun out duplicator =>
                out ++ map (fun i => dup_deviceName duplicator (Z.of_nat i))
                           (seq 0 (Z.to_nat (dup_screenCount duplicator))))
             ds [].
Proof.
  revert out. induction ds as [|d ds IH]; intros out; simpl.
  - rewrite app_nil_r. reflexivity.
  - rewrite IH. rewrite (IH (map _ _)). rewrite app_assoc. reflexivity.
Qed.

Lemma deviceNames_length (ds : list Dup) :
  Forall (fun d => 0 <= dup_screenCount d) ds ->
  Z.of_nat (length (fold_left
             (fun out duplicator =>
                out ++ map (fun i => dup_deviceName duplicator (Z.of_nat i))
                           (seq 0 (Z.to_nat (dup_screenCount duplicator))))
             ds []))
  = totalScreens ds.
Proof.
  induction 1 as [|d ds Hd _ IH]; simpl; [reflexivity|].
  rewrite deviceNames_fold, length_app, length_map, length_seq. lia.
Qed.

(** X18.  [deviceNames] only appends to the caller's vector, and it appends
    one name per screen: when initialisation succeeds (the screen counts
    being non-negative with a sum that fits an [int]) the number of names
    added is the number [screenCount()] returns for the same controller and
    world; when it fails the vector is returned as it was. *)
Theorem deviceNames_one_name_per_screen :
  forall (c : Ctl) (w : World) (output : list string),
    Forall (fun d => 0 <= dup_screenCount d)
           (duplicators_ (snd (fst (initialize c w)))) ->
    totalScreens (duplicators_ (snd (fst (initialize c w)))) < 2 ^ 31 ->
    let names := snd (fst (fst (deviceNames c w output))) in
    (fst (fst (initialize c w)) = true ->
     exists added,
       names = output ++ added
       /\ Z.of_nat (length added) = fst (fst (screenCount c w)))
    /\ (fst (fst (initialize c w)) = false ->
        names = output /\ fst (fst (screenCount c w)) = 0).
Proof.
  intros c w output Hnn Htot names. subst names.
  unfold deviceNames, screenCount.
  destruct (initialize c w) as [[ok c1] w1]. simpl in *.
  split; intros ->; simpl.
  - exists (deviceNamesUnlocked c1 []). split.
    + unfold deviceNamesUnlocked. apply deviceNames_fold.
    + unfold deviceNamesUnlocked. rewrite (deviceNames_length _ Hnn).
      symmetry. apply screenCountUnlocked_exact; assumption.
  - split; reflexivity.
Qed.

Lemma screenRectFrom_resolves (ds : list Dup) (m : Z) :
  Forall (fun d => 0 <= dup_screenCount d) ds ->
  0 <= m < 2 ^ 31 ->
  (resolveMonitor ds m = None <-> totalScreens ds <= m)
  /\ screenRectFrom ds m
     = match resolveMonitor ds m with
       | Some (i, r) =>
           match nth_error ds i with
           | Some d => dup_screenRect d r
           | None => QRect_null
           end
       | None => QRect_null
       end.
Proof.
  intros H. revert m. induction H as [|d ds Hd Hds IH]; intros m Hm; simpl.
  - split; [|reflexivity]. split; [lia | reflexivity].
  - pose proof (totalScreens_nonneg _ Hds) as Hpos.
    destruct (Z.geb_spec m (dup_screenCount d)) as [Hge|Hlt];
      destruct (Z.ltb_spec m (dup_screenCount d)) as [Hlt'|Hge']; try lia.
    + assert (Hsub : int_sub m (dup_screenCount d) = m - dup_screenCount d)
        by (unfold int_sub; apply wrap_int_small; lia).
      rewrite Hsub.
      destruct (IH (m - dup_screenCount d)) as [Hnone Hrect]; [lia|].
      rewrite Hrect.
      destruct (resolveMonitor ds (m - dup_screenCount d)) as [[i r]|].
      * split; [|reflexivity].
        split; [discriminate|]. intros Hle.
        assert (Hcontra : Some (i, r) = None) by (apply Hnone; lia).
        discriminate Hcontra.
      * split; [|reflexivity].
        split; [intros _ | reflexivity].
        assert (totalScreens ds <= m - dup_screenCount d)
          by (apply Hnone; reflexivity).
        lia.
    + split; [|reflexivity]. split; [discriminate | lia].
Qed.

(** X19.  For every monitor id [0 <= m] (the adapters' screen counts being
    non-negative), [screenRect(m)] is the rectangle the adapter that the
    walk-and-subtract resolution lands on reports for the remainder, and the
    empty [QRect()] when the resolution finds no adapter, which is exactly when
    [m] is at or beyond the sum of the screen counts. *)
Theorem screenRect_follows_resolution :
  forall (c : Ctl) (m : Z),
    Forall (fun d => 0 <= dup_screenCount d) (duplicators_ c) ->
    0 <= m < 2 ^ 31 ->
    (resolveMonitor (duplicators_ c) m = None
     <-> totalScreens (duplicators_ c) <= m)
    /\ screenRect c m
       = match resolveMonitor (duplicators_ c) m with
         | Some (i, r) =>
             match nth_error (duplicators_ c) i with
             | Some d => dup_screenRect d r
             | None => QRect_null
             end
         | None => QRect_null
         end.
Proof.
  intros c m Hnn Hm. unfold screenRect. apply screenRectFrom_resolves; assumption.
Qed.

(** *** Without adapters *)

Lemma clean_initialize (c : Ctl) (w : World) :
  duplicators_ (snd (fst (initialize c w))) = [] ->
  desktop_rect_ (snd (fst (initialize c w))) = QRect_null.
Proof.
  intros Hd. destruct (initialize_true_iff_adapters c w) as [Hiff Hfalse].
  destruct (fst (fst (initialize c w))) eqn:E.
  - exfalso. apply (proj1 Hiff); [reflexivity | exact Hd].
  - apply Hfalse. reflexivity.
Qed.

Lemma clean_same_members (c c' : Ctl) :
  same_members c c' ->
  (duplicators_ c = [] -> desktop_rect_ c = QRect_null) ->
  duplicators_ c' = [] -> desktop_rect_ c' = QRect_null.
Proof.
  intros (_ & _ & Hr & _ & _ & _ & _ & Hl) Hclean Hd.
  rewrite Hr. apply Hclean. rewrite Hd in Hl. simpl in Hl.
  destruct (duplicators_ c); [reflexivity | discriminate].
Qed.

Lemma clean_doDuplicate (fuel : nat) (c : Ctl) (w : World) (f : Frm) (m : Z)
      (r : Result) (c' : Ctl) (w' : World) (f' : Frm) :
  doDuplicate frame_prepare fuel c w f m = Returns (r, c', w', f') ->
  duplicators_ c' = [] -> desktop_rect_ c' = QRect_null.
Proof.
  intros H. apply doDuplicate_inv in H. simpl in H.
  assert (H2 : duplicators_ (snd (fst (enterDuplicate c w))) = [] ->
               desktop_rect_ (snd (fst (enterDuplicate c w))) = QRect_null).
  { unfold enterDuplicate. destruct (checkDisplayChange c w) as [c1 w0].
    apply clean_initialize. }
  destruct H as [(_ & _ & -> & _) | [(_ & _ & _ & -> & _) | (_ & _ & H)]];
    try exact H2.
  destruct H as (ok & c3 & ctx & target & Hun & _ & Hcases).
  match type of Hun with
  | doDuplicateUnlocked ?fu ?c2 ?w1 ?cx ?mm ?tg = _ =>
      pose proof (doDuplicateUnlocked_current fu c2 w1 cx mm tg) as Hm
  end.
  rewrite Hun in Hm. destruct Hm as [Hm _].
  pose proof (clean_same_members _ _ Hm H2) as H3.
  destruct Hcases as [(_ & _ & ->) | [(_ & _ & _ & ->) | (_ & _ & _ & ->)]].
  - exact H3.
  - exact H3.
  - reflexivity.
Qed.

Lemma clean_step (c c' : Ctl) :
  step frame_prepare c c' ->
  (duplicators_ c = [] -> desktop_rect_ c = QRect_null) ->
  duplicators_ c' = [] -> desktop_rect_ c' = QRect_null.
Proof.
  intros Hstep Hclean. destruct Hstep.
  - exact Hclean.
  - destruct (release_cases c) as [H|H]; rewrite H; [reflexivity | exact Hclean].
  - reflexivity.
  - pose proof (clean_initialize c w) as Hi.
    unfold isSupported in *. rewrite H in Hi. exact Hi.
  - pose proof (clean_initialize c w) as Hi. unfold retrieveD3dInfo in *.
    destruct (initialize c w) as [[ok c1] w1]. inversion H; subst. exact Hi.
  - pose proof (clean_initialize c w) as Hi. unfold dpi in *.
    destruct (initialize c w) as [[[] c1] w1]; inversion H; subst; exact Hi.
  - pose proof (clean_initialize c w) as Hi. unfold screenCount in *.
    destruct (initialize c w) as [[[] c1] w1]; inversion H; subst; exact Hi.
  - pose proof (clean_initialize c w) as Hi. unfold deviceNames in *.
    destruct (initialize c w) as [[[] c1] w1]; inversion H; subst; exact Hi.
  - eapply clean_doDuplicate; eassumption.
  - eapply clean_doDuplicate; eassumption.
  - destruct (unregister_always_returns c ctx) as (c'' & Heq & Hm).
    rewrite H in Heq. inversion Heq; subst.
    eapply clean_same_members; eassumption.
Qed.

(** X20.  In every state the public operations can bring the controller
    to, a controller without adapters has the empty [QRect()] as desktop
    rectangle: its desktop size is (0, 0), it has no screen, and every
    [screenRect] is empty. *)
Theorem no_adapters_no_desktop :
  forall (c : Ctl),
    reachable frame_prepare c ->
    duplicators_ c = [] ->
    desktop_rect_ c = QRect_null
    /\ desktopSize c = mkQSize 0 0
    /\ screenCountUnlocked c = 0
    /\ forall id, screenRect c id = QRect_null.
Proof.
  intros c Hreach Hd.
  assert (Hrect : desktop_rect_ c = QRect_null).
  { revert Hd. induction Hreach as [m|c c' _ IH Hstep].
    - reflexivity.
    - apply (clean_step c c' Hstep IH). }
  split; [exact Hrect|]. split.
  - unfold desktopSize. rewrite Hrect. reflexivity.
  - unfold screenCountUnlocked, screenRect. rewrite Hd. split; reflexivity.
Qed.

(** *** Results and monitor ids *)

Lemma same_rects_sym (d d' : Dup) : same_rects d d' -> same_rects d' d.
Proof.
  intros (A & B & C). repeat split; try congruence; intros i; symmetry; apply C.
Qed.

Lemma all_same_rects_sym (ds ds' : list Dup) :
  Forall2 same_rects ds ds' -> Forall2 same_rects ds' ds.
Proof.
  induction 1; constructor; auto using same_rects_sym.
Qed.

(** X21.  A call that returns [INVALID_MONITOR_ID] had a monitor id at or
    beyond the screen count of the controller it leaves.  So the
    full-desktop [duplicate] (monitor id -1) does not return it when the
    screen counts are non-negative with a sum that fits an [int]. *)
Theorem invalid_monitor_id_is_out_of_range :
  forall (fuel : nat) (c : Ctl) (w : World) (f : Frm) (monitor_id : Z)
         (c' : Ctl) (w' : World) (f' : Frm),
    doDuplicate frame_prepare fuel c w f monitor_id
    = Returns (INVALID_MONITOR_ID, c', w', f') ->
    screenCountUnlocked c' <= monitor_id
    /\ (Forall (fun d => 0 <= dup_screenCount d) (duplicators_ c') ->
        totalScreens (duplicators_ c') < 2 ^ 31 ->
        0 <= monitor_id).
Proof.
  intros fuel c w f m c' w' f' H.
  apply doDuplicate_inv in H. simpl in H.
  destruct H as [(_ & [E|E] & _) | [(_ & _ & E & _) | (_ & _ & H)]];
    try discriminate E.
  destruct H as (ok & c3 & ctx & target & _ & _
                 & [(_ & E & _) | [(_ & Hge & _ & ->) | (_ & _ & E & _)]]);
    try discriminate E.
  rewrite Z.geb_leb in Hge. apply Z.leb_le in Hge.
  split; [exact Hge|]. intros Hnn Htot.
  rewrite (screenCountUnlocked_exact _ Hnn Htot) in Hge.
  pose proof (totalScreens_nonneg _ Hnn). lia.
Qed.

(** X22.  A single-monitor call that returns [SUCCEEDED] was for a monitor
    that exists: its id is below the screen count of the controller (the
    adapters' screen counts being non-negative with a sum that fits an
    [int], and the adapter calls keeping them). *)
Theorem succeeded_monitor_exists :
  forall (fuel : nat) (c : Ctl) (w : World) (f : Frm) (monitor_id : Z)
         (c' : Ctl) (w' : World) (f' : Frm),
    doDuplicate frame_prepare fuel c w f monitor_id
    = Returns (SUCCEEDED, c', w', f') ->
    0 <= monitor_id < 2 ^ 31 ->
    Forall (fun d => 0 <= dup_screenCount d) (duplicators_ c') ->
    totalScreens (duplicators_ c') < 2 ^ 31 ->
    monitor_id < screenCountUnlocked c'.
Proof.
  intros fuel c w f m c' w' f' H Hm Hnn Htot.
  apply doDuplicate_inv in H. simpl in H.
  destruct H as [(_ & [E|E] & _) | [(_ & _ & E & _) | (_ & _ & H)]];
    try discriminate E.
  destruct H as (ok & c3 & ctx & target & Hun & _
                 & [(-> & _ & ->) | [(_ & _ & E & _) | (_ & _ & E & _)]]);
    try discriminate E.
  simpl in Hnn, Htot.
  change (screenCountUnlocked
            (set_succeeded c3 (wrap_uint32 (succeeded_duplications_ c3 + 1))))
    with (screenCountUnlocked c3).
  rewrite (screenCountUnlocked_exact _ Hnn Htot).
  destruct (Z_lt_le_dec m (totalScreens (duplicators_ c3))) as [Hlt|Hle];
    [exact Hlt|]. exfalso.
  match type of Hun with
  | doDuplicateUnlocked ?fu ?c2 ?w1 ?cx ?mm ?tg = _ =>
      pose proof (doDuplicateUnlocked_sound fu c2 w1 cx mm tg) as Hs;
      pose proof (doDuplicateUnlocked_beyond fu c2 w1 cx mm tg) as Hb
  end.
  rewrite Hun in Hs, Hb. destruct Hs as [He _].
  assert (Hds : Forall2 same_rects (duplicators_ c3)
                        (duplicators_ (snd (fst (enterDuplicate c w)))))
    by (apply all_same_rects_sym; apply He).
  destruct Hb as [Hfalse _].
  - eapply all_same_rects_nonneg; eassumption.
  - rewrite (all_same_rects_total _ _ Hds). lia.
  - discriminate Hfalse.
Qed.

End Facts.

(* ------------------------------------------------------------------ *)
(** * The simulated machine: laws, scenarios and instances *)

Ltac evaluated :=
  vm_compute;
  repeat first [ reflexivity | discriminate | intro; discriminate
               | split | constructor ].

Lemma Sim_adapter_laws : AdapterLaws Sim.adapter.
Proof.
  constructor.
  - intros d p. split; [reflexivity|]. split.
    + simpl. rewrite length_map. reflexivity.
    + intros i Hi. simpl in *.
      rewrite (nth_indep _ QRect_null (translate QRect_null p)).
      * exact (map_nth (fun r => translate r p) (Sim.screens d) QRect_null
                       (Z.to_nat i)).
      * rewrite length_map. lia.
  - intros d s. repeat split.
  - intros d s. repeat split.
  - intros d s t. simpl. unfold Sim.adapter_duplicate.
    destruct (Sim.dev_captures (Sim.device d)); repeat split.
  - intros d s i t. simpl. unfold Sim.adapter_duplicateMonitor.
    destruct (Sim.dev_captures (Sim.device d)
              && (i <? Z.of_nat (length (Sim.screens d)))); repeat split.
Qed.

(** Scenario S2 of the specification: the union of the two monitors, whose
    left half lies at negative x, is moved to the origin; two screens;
    first identity. *)
Example cold_start_negative_origin :
  desktop_rect_ Sim.running = mkQRect 0 0 3839 1079
  /\ size (desktop_rect_ Sim.running) = mkQSize 3840 1080
  /\ screenCountUnlocked Sim.running = 2
  /\ identity_ Sim.running = 1
  /\ map dup_desktopRect (duplicators_ Sim.running)
     = [mkQRect 0 0 1919 1079; mkQRect 1920 0 3839 1079].
Proof. evaluated. Qed.

(** Scenario S6: an adapter that does not initialise is passed over. *)
Example partial_adapter_failure :
  let c := snd (fst (initialize Sim.fresh
                       (Sim.world [Sim.gpu_right; Sim.gpu_virtual] (Some 1)))) in
  screenCountUnlocked c = 1 /\ length (duplicators_ c) = 1%nat
  /\ d3d_info_ c = mkD3dInfo 37120 45312.
Proof. evaluated. Qed.

(** The minimum is not the sum: with frame counts 2 and 3 it is 2. *)
Example numFramesCaptured_is_not_the_sum :
  numFramesCaptured
    (set_duplicators Sim.fresh
       [Sim.mkDup Sim.gpu_left Sim.left_rect [] 2 0;
        Sim.mkDup Sim.gpu_right Sim.right_rect [] 3 0]) = 2.
Proof. reflexivity. Qed.

(** ** Instances of the theorems *)

Lemma C1_witness :
  fst (fst (enterDuplicate Sim.fresh Sim.session_zero)) = false
  /\ exists r w',
      doDuplicate Sim.prepare_ok 0 Sim.fresh Sim.session_zero Sim.blank_frame 0
      = Returns (r, snd (fst (enterDuplicate Sim.fresh Sim.session_zero)), w',
                 Sim.blank_frame)
      /\ (r = UNSUPPORTED_SESSION <->
          succeeded_duplications_ Sim.fresh = 0
          /\ fst (isCurrentSessionSupported
                    (snd (enterDuplicate Sim.fresh Sim.session_zero))) = false)
      /\ (r <> UNSUPPORTED_SESSION -> r = INITIALIZATION_FAILED).
Proof.
  split; [reflexivity|].
  apply (C1_failed_initialization_result Sim.prepare_ok 0 Sim.fresh
           Sim.session_zero Sim.blank_frame 0).
  reflexivity.
Defined.

Lemma C2_witness :
  exists c' w' f',
    doDuplicate Sim.prepare_ok 1 Sim.fresh Sim.broken_only Sim.blank_frame 0
    = Returns (DUPLICATION_FAILED, c', w', f')
    /\ duplicators_ c' = []
    /\ desktop_rect_ c' = QRect_null
    /\ exists mon, display_configuration_monitor_ c' = dcm_reset mon.
Proof.
  do 3 eexists.
  match goal with
  | |- ?A /\ _ => assert (H : A) by (vm_compute; reflexivity)
  end.
  split; [exact H|].
  destruct (C2_duplication_failed_deinitializes Sim.prepare_ok _ _ _ _ _ _ _ _ H)
    as (_ & _ & Hd & Hr & _ & Hm & _).
  split; [exact Hd|]. split; [exact Hr | exact Hm].
Defined.

Lemma C3_witness :
  deadline_passes (snd (enterDuplicate Sim.running Sim.two_monitors))
  /\ (exists fuel0 c' w' f',
         (forall fuel : nat,
             (fuel0 <= fuel)%nat ->
             doDuplicate Sim.prepare_ok fuel Sim.running Sim.two_monitors
                         Sim.blank_frame 5
             = Returns (INVALID_MONITOR_ID, c', w', f'))
         /\ identity_ c' = identity_ Sim.running
         /\ desktop_rect_ c' = desktop_rect_ Sim.running
         /\ Forall2 same_rects (duplicators_ Sim.running) (duplicators_ c'))
  /\ (forall fuel : nat,
         exists c' w' f',
           doDuplicate Sim.prepare_fails fuel Sim.running Sim.two_monitors
                       Sim.blank_frame 5
           = Returns (FRAME_PREPARE_FAILED, c', w', f')).
Proof.
  assert (Hclock : deadline_passes (snd (enterDuplicate Sim.running Sim.two_monitors))).
  { exists 251%nat. split; [lia|]. vm_compute. reflexivity. }
  split; [exact Hclock|]. split.
  - destruct (C3_invalid_monitor_id_keeps_adapters
                Sim.prepare_ok Sim_adapter_laws Sim.running Sim.two_monitors
                Sim.blank_frame 5)
      as [_ Hok]; [evaluated | evaluated | evaluated | evaluated |].
    destruct (Hok eq_refl Hclock) as (fuel0 & c' & w' & f' & Hall & _ & _ & Hsame).
    exists fuel0, c', w', f'. split; [exact Hall|].
    apply Hsame; evaluated.
  - intros fuel.
    destruct (C3_invalid_monitor_id_keeps_adapters
                Sim.prepare_fails Sim_adapter_laws Sim.running Sim.two_monitors
                Sim.blank_frame 5)
      as [Hfail _]; [evaluated | evaluated | evaluated | evaluated |].
    do 3 eexists. exact (Hfail eq_refl fuel).
Defined.

(** The claim as the specification states it fails on a frame that cannot
    be prepared: initialisation succeeds and the monitor id 5 is beyond the
    two screens, yet the result is [FRAME_PREPARE_FAILED]; and a first call
    that does return [INVALID_MONITOR_ID] has initialised the controller, so
    that [identity_] and the adapters are not those of call entry. *)
Lemma C3_counterexample :
  (fst (fst (enterDuplicate Sim.fresh Sim.two_monitors)) = true
   /\ screenCountUnlocked (snd (fst (enterDuplicate Sim.fresh Sim.two_monitors))) = 2
   /\ exists c' w' f',
       duplicateMonitor Sim.prepare_fails 1 Sim.fresh Sim.two_monitors
                        Sim.blank_frame 5
       = Returns (FRAME_PREPARE_FAILED, c', w', f'))
  /\ (exists c' w' f',
         duplicateMonitor Sim.prepare_ok 1 Sim.fresh Sim.two_monitors
                          Sim.blank_frame 5
         = Returns (INVALID_MONITOR_ID, c', w', f')
         /\ identity_ Sim.fresh = 0 /\ identity_ c' = 1
         /\ length (duplicators_ Sim.fresh) = 0%nat
         /\ length (duplicators_ c') = 2%nat).
Proof.
  split.
  - split; [reflexivity|]. split; [reflexivity|].
    do 3 eexists. vm_compute. reflexivity.
  - do 3 eexists. split; [vm_compute; reflexivity|]. evaluated.
Qed.

Lemma C4_witness :
  fst (fst (initialize Sim.fresh Sim.virtual_only)) = false
  /\ duplicators_ (snd (fst (initialize Sim.fresh Sim.virtual_only))) = []
  /\ desktop_rect_ (snd (fst (initialize Sim.fresh Sim.virtual_only))) = QRect_null
  /\ identity_ (snd (fst (initialize Sim.fresh Sim.virtual_only)))
     = int_add (identity_ Sim.fresh) 1
  /\ d3d_info_ (snd (fst (initialize Sim.fresh Sim.virtual_only)))
     = mkD3dInfo 37120 37120.
Proof.
  destruct (C4_initialize_without_adapter Sim.fresh Sim.virtual_only)
    as (Hf & Hd & Hr & _ & _ & Hi & Hl & _);
    [evaluated | evaluated | evaluated | evaluated |].
  repeat split; assumption.
Defined.

(** The claim as the specification states it fails where no adapter
    initialises: [initialize] returns false, but [identity_] has gone from
    0 to 1 and the feature levels are those of the device, neither reset to
    0 nor left as they were. *)
Lemma C4_counterexample :
  fst (enumDevices Sim.virtual_only) <> []
  /\ Forall (fun device => fst (dup_initialize (dup_new device)) = false)
            (fst (enumDevices Sim.virtual_only))
  /\ fst (fst (initialize Sim.fresh Sim.virtual_only)) = false
  /\ identity_ Sim.fresh = 0
  /\ identity_ (snd (fst (initialize Sim.fresh Sim.virtual_only))) = 1
  /\ d3d_info_ Sim.fresh = mkD3dInfo 0 0
  /\ d3d_info_ (snd (fst (initialize Sim.fresh Sim.virtual_only)))
     = mkD3dInfo 37120 37120.
Proof.
  split; [discriminate|]. split; [repeat constructor|]. evaluated.
Qed.

Lemma C5_witness :
  exists c,
    reachable Sim.prepare_ok c
    /\ desktop_invariant c
    /\ length (duplicators_ c) = 2%nat
    /\ desktop_rect_ c = mkQRect 0 0 3839 1079.
Proof.
  destruct (duplicate Sim.prepare_ok 1 Sim.fresh Sim.two_monitors Sim.blank_frame)
    as [[[[r c] w'] f']| |] eqn:E; try (vm_compute in E; discriminate E).
  assert (Hreach : reachable Sim.prepare_ok c).
  { eapply reachable_step.
    - apply (reachable_new Sim.prepare_ok (Sim.mkMonitor false 0)).
    - eapply step_duplicate. exact E. }
  exists c. split; [exact Hreach|]. split.
  - exact (proj1 (C5_desktop_rect_is_translated_union
                    Sim.prepare_ok Sim_adapter_laws c Hreach)).
  - vm_compute in E. inversion E. split; reflexivity.
Defined.

Lemma C6_witness :
  numFramesCaptured Sim.running = 0
  /\ exists r c' w' ctx' target',
      ensureFrameCaptured 1 Sim.running Sim.two_monitors Sim.current_context
                          Sim.desktop_frame
      = Returns (r, c', w', ctx', target')
      /\ exists n r' shared',
          (1 <= n <= 1)%nat
          /\ duplicateAllTimes n Sim.running Sim.current_context Sim.desktop_frame
             = Returns (r', c', ctx', shared').
Proof.
  split; [reflexivity|].
  destruct (ensureFrameCaptured 1 Sim.running Sim.two_monitors Sim.current_context
                                Sim.desktop_frame)
    as [[[[[r c'] w'] ctx'] target']| |] eqn:E; try (vm_compute in E; discriminate E).
  exists r, c', w', ctx', target'. split; [reflexivity|].
  destruct (C6_warm_up_uses_minimum_and_full_desktop Sim.running)
    as (_ & _ & _ & Hcold & _).
  destruct (Hcold 1%nat Sim.two_monitors Sim.current_context Sim.desktop_frame
                  r c' w' ctx' target')
    as (n & r' & shared' & Hn & Htimes & _); [evaluated | exact E |].
  exists n, r', shared'. split; [exact Hn | exact Htimes].
Defined.

Lemma C7_witness :
  exists d s,
    resolveMonitor (duplicators_ Sim.running) 1 = Some (1%nat, 0)
    /\ nth_error (duplicators_ Sim.running) 1 = Some d
    /\ nth_error (contexts Sim.current_context) 1 = Some s
    /\ screenRect Sim.running 1 = dup_screenRect d 0
    /\ doDuplicateOne Sim.running Sim.current_context 1 Sim.desktop_frame
       = (let '(ok, d', s', t') := dup_duplicateMonitor d s 0 Sim.desktop_frame in
          (ok,
           set_duplicators Sim.running (replace_nth 1 d' (duplicators_ Sim.running)),
           mkContext (controller_id Sim.current_context)
                     (replace_nth 1 s' (contexts Sim.current_context)),
           if ok then sf_setTopLeft t' (topLeft (dup_screenRect d' 0)) else t')).
Proof.
  destruct (C7_single_monitor_resolution
              Sim.running Sim.current_context 1 Sim.desktop_frame)
    as (i & r & d & s & Hres & Hd & Hs & _ & _ & Hrect & Hone);
    [evaluated | evaluated | evaluated |].
  assert (Hir : Some (i, r) = Some (1%nat, 0))
    by (rewrite <- Hres; reflexivity).
  inversion Hir; subst i r.
  exists d, s. repeat split; assumption.
Defined.

Lemma C8_witness :
  contextExpired Sim.running Sim.stale_context = true
  /\ unregister Sim.running Sim.stale_context = Returns Sim.running
  /\ contextExpired Sim.running Sim.current_context = false
  /\ exists ds,
      unregister Sim.running Sim.current_context
      = Returns (set_duplicators Sim.running ds)
      /\ length ds = length (duplicators_ Sim.running).
Proof.
  destruct (C8_unregister_expired_noop Sim.running Sim.stale_context)
    as (_ & Hexpired & _).
  destruct (C8_unregister_expired_noop Sim.running Sim.current_context)
    as (_ & _ & Hcurrent).
  split; [reflexivity|]. split; [apply Hexpired; reflexivity|].
  split; [reflexivity|].
  destruct (Hcurrent eq_refl) as (ds & Heq & Hlen & _).
  exists ds. split; assumption.
Defined.

Lemma C10_witness :
  screenCountUnlocked (snd (fst (enterDuplicate Sim.fresh Sim.two_monitors))) = 2
  /\ screenRect (snd (fst (enterDuplicate Sim.fresh Sim.two_monitors))) 5
     = QRect_null
  /\ selectedDesktopSize (snd (fst (enterDuplicate Sim.fresh Sim.two_monitors))) 5
     = mkQSize 0 0
  /\ doDuplicate Sim.prepare_fails 1 Sim.fresh Sim.two_monitors Sim.blank_frame 5
     = Returns (FRAME_PREPARE_FAILED,
                snd (fst (enterDuplicate Sim.fresh Sim.two_monitors)),
                snd (enterDuplicate Sim.fresh Sim.two_monitors),
                snd (Sim.prepare_fails Sim.blank_frame (mkQSize 0 0) 5)).
Proof.
  destruct (C10_out_of_range_id_prepares_zero_size
              Sim.prepare_fails 1 Sim.fresh Sim.two_monitors Sim.blank_frame 5)
    as (Hrect & _ & Hsize & Hfail & _);
    [evaluated | evaluated | evaluated | evaluated |].
  split; [reflexivity|]. split; [exact Hrect|]. split; [exact Hsize|].
  apply Hfail. reflexivity.
Defined.

Lemma C9_witness :
  exists c3 c' w' f',
    doDuplicate Sim.prepare_ok 1 Sim.fresh Sim.broken_only Sim.blank_frame 0
    = Returns (DUPLICATION_FAILED, c', w', f')
    /\ c' = deinitialize c3
    /\ identity_ c' = identity_ c3
    /\ d3d_info_ c' = d3d_info_ c3.
Proof.
  destruct (doDuplicate Sim.prepare_ok 1 Sim.fresh Sim.broken_only Sim.blank_frame 0)
    as [[[[r c'] w'] f']| |] eqn:E; try (vm_compute in E; discriminate E).
  assert (Hr : r = DUPLICATION_FAILED) by (vm_compute in E; congruence).
  subst r.
  destruct (C9_teardown_changes_only_rect_adapters_probe Sim.prepare_ok Sim.fresh)
    as (_ & _ & _ & _ & _ & _ & Hfailed).
  destruct (Hfailed 1%nat Sim.broken_only Sim.blank_frame 0 c' w' f' E)
    as (c3 & Hc & Hi & _ & _ & Hd).
  exists c3, c', w', f'. repeat split; assumption.
Defined.

(** ** Instances of the further properties *)

Lemma initialize_succeeds_iff_some_adapter_witness :
  duplicators_ Sim.fresh = []
  /\ fst (fst (initialize Sim.fresh Sim.virtual_only)) = false
  /\ ~ Exists (fun device => fst (dup_initialize (dup_new device)) = true)
              (fst (enumDevices Sim.virtual_only)).
Proof.
  split; [reflexivity|]. split; [reflexivity|].
  intros Hex.
  apply (initialize_succeeds_iff_some_adapter Sim.fresh Sim.virtual_only eq_refl)
    in Hex.
  vm_compute in Hex. discriminate Hex.
Defined.

Lemma initialize_again_is_noop_witness :
  fst (fst (initialize Sim.fresh Sim.two_monitors)) = true
  /\ initialize (snd (fst (initialize Sim.fresh Sim.two_monitors))) Sim.session_zero
     = (true, snd (fst (initialize Sim.fresh Sim.two_monitors)), Sim.session_zero).
Proof.
  split; [reflexivity|].
  apply (initialize_again_is_noop Sim.fresh Sim.two_monitors Sim.session_zero).
  reflexivity.
Defined.

Lemma retrieveD3dInfo_bounds_devices_witness :
  Forall (fun device =>
            min_feature_level
              (snd (fst (fst (retrieveD3dInfo Sim.fresh Sim.three_adapters))))
            <= feature_level device
            <= max_feature_level
                 (snd (fst (fst (retrieveD3dInfo Sim.fresh Sim.three_adapters)))))
         (fst (enumDevices Sim.three_adapters)).
Proof.
  destruct (retrieveD3dInfo_bounds_devices Sim.fresh Sim.three_adapters)
    as [Hall _]; [evaluated | evaluated |].
  exact Hall.
Defined.

Lemma context_current_after_duplicate_witness :
  exists c' w' f',
    doDuplicate Sim.prepare_ok 1 Sim.fresh Sim.two_monitors Sim.blank_frame 1
    = Returns (SUCCEEDED, c', w', f')
    /\ contextExpired c' (context f') = false.
Proof.
  destruct (doDuplicate Sim.prepare_ok 1 Sim.fresh Sim.two_monitors Sim.blank_frame 1)
    as [[[[r c'] w'] f']| |] eqn:E; try (vm_compute in E; discriminate E).
  assert (Hr : r = SUCCEEDED) by (vm_compute in E; congruence).
  subst r. exists c', w', f'. split; [reflexivity|].
  apply (context_current_after_duplicate
           Sim.prepare_ok 1 Sim.fresh Sim.two_monitors Sim.blank_frame 1
           SUCCEEDED c' w' f' E).
  left. reflexivity.
Defined.

Lemma succeeded_duplications_counts_successes_witness :
  exists c' w' f',
    doDuplicate Sim.prepare_ok 1 Sim.fresh Sim.two_monitors Sim.blank_frame 1
    = Returns (SUCCEEDED, c', w', f')
    /\ succeeded_duplications_ c' = 1.
Proof.
  destruct (doDuplicate Sim.prepare_ok 1 Sim.fresh Sim.two_monitors Sim.blank_frame 1)
    as [[[[r c'] w'] f']| |] eqn:E; try (vm_compute in E; discriminate E).
  assert (Hr : r = SUCCEEDED) by (vm_compute in E; congruence).
  subst r. exists c', w', f'. split; [reflexivity|].
  destruct (succeeded_duplications_counts_successes
              Sim.prepare_ok 1 Sim.fresh Sim.two_monitors Sim.blank_frame 1
              SUCCEEDED c' w' f' E) as [Hs _].
  rewrite Hs. reflexivity.
Defined.

Lemma duplication_keeps_identity_dpi_levels_witness :
  exists c' w' f',
    doDuplicate Sim.prepare_ok 1 Sim.fresh Sim.broken_only Sim.blank_frame 0
    = Returns (DUPLICATION_FAILED, c', w', f')
    /\ identity_ c' = 1
    /\ dpi_ c' = mkQPoint 96 96.
Proof.
  destruct (doDuplicate Sim.prepare_ok 1 Sim.fresh Sim.broken_only Sim.blank_frame 0)
    as [[[[r c'] w'] f']| |] eqn:E; try (vm_compute in E; discriminate E).
  assert (Hr : r = DUPLICATION_FAILED) by (vm_compute in E; congruence).
  subst r. exists c', w', f'. split; [reflexivity|].
  destruct (duplication_keeps_identity_dpi_levels
              Sim.prepare_ok 1 Sim.fresh Sim.broken_only Sim.blank_frame 0
              DUPLICATION_FAILED c' w' f' E) as (Hi & Hd & _).
  rewrite Hi, Hd. split; reflexivity.
Defined.

Lemma warm_up_goes_on_only_while_cold_witness :
  let cold := set_duplicators Sim.fresh
                [Sim.mkDup Sim.gpu_left Sim.left_rect [Sim.left_rect] (-5) 0] in
  ensureFrameCaptured 2 cold Sim.two_monitors (mkContext 0 [1]) Sim.desktop_frame
  = OutOfFuel
  /\ (exists c' ctx' shared',
         duplicateAllTimes 2 cold (mkContext 0 [1]) Sim.desktop_frame
         = Returns (true, c', ctx', shared')
         /\ numFramesCaptured c' < 1)
  /\ (forall i, (1 <= i <= 2)%nat -> turn_elapsed i Sim.two_monitors <= timeout_ms).
Proof.
  intros cold. split; [reflexivity|].
  exact (warm_up_goes_on_only_while_cold
           2 cold Sim.two_monitors (mkContext 0 [1]) Sim.desktop_frame eq_refl).
Defined.

Lemma doDuplicateAll_stops_at_first_failure_witness :
  exists d1' d2' s1' s2' t',
    doDuplicateAll Sim.running_three Sim.context_three Sim.desktop_frame
    = Returns (false,
               set_duplicators Sim.running_three
                 [d1'; d2'; nth 2 (duplicators_ Sim.running_three)
                                (dup_new Sim.gpu_virtual)],
               mkContext 1 [s1'; s2'; 1], t')
    /\ Sim.frames d1' = 1.
Proof.
  pose proof (doDuplicateAll_stops_at_first_failure
                Sim.running_three Sim.context_three Sim.desktop_frame
                (firstn 1 (duplicators_ Sim.running_three))
                (skipn 2 (duplicators_ Sim.running_three))
                (nth 1 (duplicators_ Sim.running_three) (dup_new Sim.gpu_virtual))
                [1] [1] 1) as H.
  specialize (H _ _ _ eq_refl eq_refl eq_refl eq_refl eq_refl).
  do 5 eexists. split; [exact H | reflexivity].
Defined.

Lemma context_expires_on_reinitialization_witness :
  contextExpired Sim.running Sim.current_context = false
  /\ contextExpired
       (snd (fst (initialize (deinitialize Sim.running) Sim.two_monitors)))
       Sim.current_context = true.
Proof.
  split; [reflexivity|].
  apply (context_expires_on_reinitialization
           Sim.running Sim.current_context Sim.two_monitors); evaluated.
Defined.

Lemma release_after_addRef_witness :
  release (addRef Sim.running) = deinitialize Sim.running
  /\ release (addRef (addRef Sim.running)) = addRef Sim.running.
Proof.
  split.
  - apply (release_after_addRef Sim.running); evaluated.
  - apply (release_after_addRef (addRef Sim.running)); evaluated.
Defined.

Lemma deviceNames_one_name_per_screen_witness :
  exists added,
    snd (fst (fst (deviceNames Sim.fresh Sim.two_monitors [EmptyString])))
    = [EmptyString] ++ added
    /\ Z.of_nat (length added) = fst (fst (screenCount Sim.fresh Sim.two_monitors)).
Proof.
  destruct (deviceNames_one_name_per_screen Sim.fresh Sim.two_monitors [EmptyString])
    as [Hok _]; [evaluated | evaluated |].
  apply Hok. reflexivity.
Defined.

Lemma screenRect_follows_resolution_witness :
  resolveMonitor (duplicators_ Sim.running) 1 = Some (1%nat, 0)
  /\ screenRect Sim.running 1 = mkQRect 1920 0 3839 1079
  /\ screenRect Sim.running 2 = QRect_null.
Proof.
  destruct (screenRect_follows_resolution Sim.running 1) as [_ H1];
    [evaluated | evaluated |].
  destruct (screenRect_follows_resolution Sim.running 2) as [_ H2];
    [evaluated | evaluated |].
  split; [reflexivity|]. split; [rewrite H1 | rewrite H2]; reflexivity.
Defined.

Lemma no_adapters_no_desktop_witness :
  exists c,
    reachable Sim.prepare_ok c
    /\ identity_ c = 1
    /\ duplicators_ c = []
    /\ desktop_rect_ c = QRect_null.
Proof.
  destruct (duplicate Sim.prepare_ok 1 Sim.fresh Sim.broken_only Sim.blank_frame)
    as [[[[r c] w'] f']| |] eqn:E; try (vm_compute in E; discriminate E).
  assert (Hreach : reachable Sim.prepare_ok c).
  { eapply reachable_step.
    - apply (reachable_new Sim.prepare_ok (Sim.mkMonitor false 0)).
    - eapply step_duplicate. exact E. }
  assert (Hc : identity_ c = 1 /\ duplicators_ c = [])
    by (vm_compute in E; inversion E; split; reflexivity).
  destruct Hc as [Hi Hd].
  exists c. split; [exact Hreach|]. split; [exact Hi|]. split; [exact Hd|].
  apply (no_adapters_no_desktop Sim.prepare_ok c Hreach Hd).
Defined.

Lemma invalid_monitor_id_is_out_of_range_witness :
  exists c' w' f',
    doDuplicate Sim.prepare_ok 1 Sim.running Sim.two_monitors Sim.blank_frame 5
    = Returns (INVALID_MONITOR_ID, c', w', f')
    /\ screenCountUnlocked c' <= 5.
Proof.
  destruct (doDuplicate Sim.prepare_ok 1 Sim.running Sim.two_monitors Sim.blank_frame 5)
    as [[[[r c'] w'] f']| |] eqn:E; try (vm_compute in E; discriminate E).
  assert (Hr : r = INVALID_MONITOR_ID) by (vm_compute in E; congruence).
  subst r. exists c', w', f'. split; [reflexivity|].
  apply (invalid_monitor_id_is_out_of_range
           Sim.prepare_ok 1 Sim.running Sim.two_monitors Sim.blank_frame 5
           c' w' f' E).
Defined.

Lemma succeeded_monitor_exists_witness :
  exists c' w' f',
    doDuplicate Sim.prepare_ok 1 Sim.running Sim.two_monitors Sim.blank_frame 1
    = Returns (SUCCEEDED, c', w', f')
    /\ 1 < screenCountUnlocked c'.
Proof.
  destruct (doDuplicate Sim.prepare_ok 1 Sim.running Sim.two_monitors Sim.blank_frame 1)
    as [[[[r c'] w'] f']| |] eqn:E; try (vm_compute in E; discriminate E).
  assert (Hr : r = SUCCEEDED) by (vm_compute in E; congruence).
  subst r. exists c', w', f'. split; [reflexivity|].
  assert (Hc : Forall (fun d => 0 <= dup_screenCount d) (duplicators_ c')
               /\ totalScreens (duplicators_ c') < 2 ^ 31).
  { vm_compute in E. inversion E. split; evaluated. }
  destruct Hc as [Hnn Htot].
  apply (succeeded_monitor_exists
           Sim.prepare_ok Sim_adapter_laws 1 Sim.running Sim.two_monitors
           Sim.blank_frame 1 c' w' f' E); [evaluated | exact Hnn | exact Htot].
Defined.
